(** * Reconciliation routers of the ACCESS/XDCDB warehouse loaders

    A shallow embedding of the three router scripts

    - [bin/router_accessdb-fos.py]   (class [Router], fields of science),
    - [bin/route_xdcdb-persons.py]   (class [HandleLoad], persons),
    - [bin/route_xdcdb-users.py]     (class [HandleLoad], user map),

    and the properties of their retrieve / store / run steps.

    Python values are modelled by [pyval]; a Python [dict] is an
    association list in insertion order whose keys are pairwise distinct;
    code that can raise returns an [outcome]. *)

From Stdlib Require Import ZArith List String Ascii Bool Lia.
From Stdlib Require Import Permutation Sorted DecimalString.
Import ListNotations.
Local Open Scope string_scope.
Local Open Scope list_scope.
Local Open Scope Z_scope.

Set Implicit Arguments.

(* ================================================================== *)
(** ** Python values *)
(* ================================================================== *)

Module Py.

(** The scalar values that psycopg2 hands over for the columns the
    routers read and that Django hands back from [model_to_dict]:
    [None], [bool], [int] and [str].  A [str] is a [string] whose
    characters are code points below 256. *)
Inductive pyval : Type :=
| VNone
| VBool (b : bool)
| VInt (z : Z)
| VStr (s : string).

Definition code (c : ascii) : Z := Z.of_N (N_of_ascii c).
Definition chr (z : Z) : ascii := ascii_of_N (Z.to_N z).

(** [str.lower()] on code points below 256: the ASCII capitals and the
    Latin-1 capitals U+00C0..U+00DE without the multiplication sign. *)
Definition lower_char (c : ascii) : ascii :=
  let n := code c in
  if ((65 <=? n) && (n <=? 90)) || ((192 <=? n) && (n <=? 222) && negb (n =? 215))
  then chr (n + 32) else c.

Fixpoint lower (s : string) : string :=
  match s with
  | EmptyString => EmptyString
  | String c r => String (lower_char c) (lower r)
  end.

(** [isinstance(v, str) and v.lower() == 'none'] *)
Definition is_none_str (v : pyval) : bool :=
  match v with
  | VStr s => String.eqb (lower s) "none"
  | _ => false
  end.

(** *** [repr] and [str] *)

Definition hex_digit (n : Z) : ascii :=
  if n <? 10 then chr (48 + n) else chr (87 + n).

Definition printable (n : Z) : bool :=
  ((32 <=? n) && (n <? 127)) || ((160 <? n) && negb (n =? 173)).

Fixpoint contains (c : ascii) (s : string) : bool :=
  match s with
  | EmptyString => false
  | String d r => Ascii.eqb c d || contains c r
  end.

Definition squote : ascii := chr 39.
Definition dquote : ascii := chr 34.
Definition backslash : ascii := chr 92.

Definition repr_char (q : ascii) (c : ascii) : string :=
  let n := code c in
  if Ascii.eqb c q || Ascii.eqb c backslash then String backslash (String c EmptyString)
  else if n =? 9 then String backslash "t"
  else if n =? 10 then String backslash "n"
  else if n =? 13 then String backslash "r"
  else if printable n then String c EmptyString
  else String backslash (String "x" (String (hex_digit (n / 16))
                                      (String (hex_digit (n mod 16)) EmptyString))).

Fixpoint repr_chars (q : ascii) (s : string) : string :=
  match s with
  | EmptyString => EmptyString
  | String c r => (repr_char q c ++ repr_chars q r)%string
  end.

(** [repr(s)] of a [str]: single quotes unless the text has a single
    quote and no double quote. *)
Definition repr_str (s : string) : string :=
  let q := if contains squote s && negb (contains dquote s) then dquote else squote in
  String q (repr_chars q s ++ String q EmptyString)%string.

Definition repr_int (z : Z) : string := NilZero.string_of_int (Z.to_int z).

Definition repr (v : pyval) : string :=
  match v with
  | VNone => "None"
  | VBool true => "True"
  | VBool false => "False"
  | VInt z => repr_int z
  | VStr s => repr_str s
  end.

(** [str(v)] *)
Definition str (v : pyval) : string :=
  match v with
  | VStr s => s
  | _ => repr v
  end.

(** A [dict] with [str] keys (a row, a model's field dict). *)
Definition record : Type := list (string * pyval).

Fixpoint repr_items (r : record) : string :=
  match r with
  | [] => EmptyString
  | [(k, v)] => (repr_str k ++ ": " ++ repr v)%string
  | (k, v) :: rest => (repr_str k ++ ": " ++ repr v ++ ", " ++ repr_items rest)%string
  end.

(** [str(d)] of a dict *)
Definition str_dict (r : record) : string := ("{" ++ repr_items r ++ "}")%string.

(** [s.encode('UTF-8')] for code points below 256 *)
Fixpoint encode_utf8 (s : string) : list Z :=
  match s with
  | EmptyString => []
  | String c r =>
      let n := code c in
      if n <? 128 then n :: encode_utf8 r
      else Z.lor 192 (Z.shiftr n 6) :: Z.lor 128 (Z.land n 63) :: encode_utf8 r
  end.

End Py.

(* ================================================================== *)
(** ** [hashlib.md5] *)
(* ================================================================== *)

Module MD5.

Definition w32 (x : Z) : Z := Z.land x 4294967295.
Definition add32 (x y : Z) : Z := w32 (x + y).
Definition not32 (x : Z) : Z := Z.lxor x 4294967295.
Definition rotl32 (x c : Z) : Z :=
  w32 (Z.lor (Z.shiftl x c) (Z.shiftr x (32 - c))).

Definition K : list Z :=
  [3614090360; 3905402710; 606105819; 3250441966; 4118548399; 1200080426;
   2821735955; 4249261313; 1770035416; 2336552879; 4294925233; 2304563134;
   1804603682; 4254626195; 2792965006; 1236535329; 4129170786; 3225465664;
   643717713; 3921069994; 3593408605; 38016083; 3634488961; 3889429448;
   568446438; 3275163606; 4107603335; 1163531501; 2850285829; 4243563512;
   1735328473; 2368359562; 4294588738; 2272392833; 1839030562; 4259657740;
   2763975236; 1272893353; 4139469664; 3200236656; 681279174; 3936430074;
   3572445317; 76029189; 3654602809; 3873151461; 530742520; 3299628645;
   4096336452; 1126891415; 2878612391; 4237533241; 1700485571; 2399980690;
   4293915773; 2240044497; 1873313359; 4264355552; 2734768916; 1309151649;
   4149444226; 3174756917; 718787259; 3951481745].

Definition S : list Z :=
  [7; 12; 17; 22; 7; 12; 17; 22; 7; 12; 17; 22; 7; 12; 17; 22;
   5; 9; 14; 20; 5; 9; 14; 20; 5; 9; 14; 20; 5; 9; 14; 20;
   4; 11; 16; 23; 4; 11; 16; 23; 4; 11; 16; 23; 4; 11; 16; 23;
   6; 10; 15; 21; 6; 10; 15; 21; 6; 10; 15; 21; 6; 10; 15; 21].

Definition nthZ (l : list Z) (i : Z) : Z := nth (Z.to_nat i) l 0.

Record state : Type := mk { a : Z; b : Z; c : Z; d : Z }.

Definition init : state := mk 1732584193 4023233417 2562383102 271733878.

(** little-endian 32-bit words of a 64-byte block *)
Fixpoint words (n : nat) (bs : list Z) : list Z :=
  match n with
  | O => []
  | Datatypes.S n' =>
      (nthZ bs 0 + 256 * nthZ bs 1 + 65536 * nthZ bs 2 + 16777216 * nthZ bs 3)
        :: words n' (skipn 4 bs)
  end.

Definition round (M : list Z) (st : state) (i : Z) : state :=
  let '(mk A B C D) := st in
  let '(F, g) :=
    if i <? 16 then (Z.lor (Z.land B C) (Z.land (not32 B) D), i)
    else if i <? 32 then (Z.lor (Z.land D B) (Z.land (not32 D) C), (5 * i + 1) mod 16)
    else if i <? 48 then (Z.lxor (Z.lxor B C) D, (3 * i + 5) mod 16)
    else (Z.lxor C (Z.lor B (not32 D)), (7 * i) mod 16) in
  let F' := add32 (add32 (add32 F A) (nthZ K i)) (nthZ M g) in
  mk D (add32 B (rotl32 F' (nthZ S i))) B C.

Definition indices : list Z := map Z.of_nat (seq 0 64).

Definition block (st : state) (bs : list Z) : state :=
  let M := words 16 bs in
  let st' := fold_left (round M) indices st in
  mk (add32 (a st) (a st')) (add32 (b st) (b st'))
     (add32 (c st) (c st')) (add32 (d st) (d st')).

Fixpoint blocks (fuel : nat) (st : state) (bs : list Z) : state :=
  match fuel, bs with
  | Datatypes.S f, _ :: _ => blocks f (block st (firstn 64 bs)) (skipn 64 bs)
  | _, _ => st
  end.

Definition le_bytes (n : nat) (x : Z) : list Z :=
  map (fun i => Z.land (Z.shiftr x (8 * Z.of_nat i)) 255) (seq 0 n).

Definition pad (msg : list Z) : list Z :=
  let len := Z.of_nat (List.length msg) in
  let zeros := Z.to_nat ((55 - len) mod 64) in
  msg ++ 128 :: repeat 0 zeros ++ le_bytes 8 (8 * len).

(** [hashlib.md5(msg).digest()]: sixteen bytes *)
Definition digest (msg : list Z) : list Z :=
  let p := pad msg in
  let st := blocks (List.length p) init p in
  le_bytes 4 (a st) ++ le_bytes 4 (b st) ++ le_bytes 4 (c st) ++ le_bytes 4 (d st).

End MD5.

(* ================================================================== *)
(** ** Python dictionaries *)
(* ================================================================== *)

(** A [dict] keeps its keys in order of first insertion; assigning to a
    key that is present replaces the value in place. *)
Module Dict.
Section Dict.
Variables K V : Type.
Variable eqb : K -> K -> bool.

Definition t : Type := list (K * V).

Definition keys (d : t) : list K := map fst d.

(** [d.get(k)] *)
Fixpoint get (k : K) (d : t) : option V :=
  match d with
  | [] => None
  | (k', v) :: r => if eqb k k' then Some v else get k r
  end.

(** [k in d] *)
Definition mem (k : K) (d : t) : bool :=
  match get k d with Some _ => true | None => false end.

(** [d[k] = v] *)
Fixpoint set (k : K) (v : V) (d : t) : t :=
  match d with
  | [] => [(k, v)]
  | (k', v') :: r => if eqb k k' then (k', v) :: r else (k', v') :: set k v r
  end.

(** removal of the entries stored under [k] *)
Fixpoint remove (k : K) (d : t) : t :=
  match d with
  | [] => []
  | (k', v') :: r => if eqb k k' then remove k r else (k', v') :: remove k r
  end.

(** [dict(pairs)] *)
Definition of_list (l : list (K * V)) : t :=
  fold_left (fun d kv => set (fst kv) (snd kv) d) l [].
End Dict.
End Dict.

Import Py.

(** Keys of the dictionaries the routers build: a key is a Python value
    up to [==], so [True] and [1] are the same key. *)
Inductive key : Type :=
| KNone
| KInt (z : Z)
| KStr (s : string).

Definition key_of (v : pyval) : key :=
  match v with
  | VNone => KNone
  | VBool b => KInt (if b then 1 else 0)
  | VInt z => KInt z
  | VStr s => KStr s
  end.

Definition key_eqb (a b : key) : bool :=
  match a, b with
  | KNone, KNone => true
  | KInt x, KInt y => Z.eqb x y
  | KStr x, KStr y => String.eqb x y
  | _, _ => false
  end.

(** [dict(zip(COLS, row))] *)
Definition rowdict (COLS : list string) (row : list pyval) : record :=
  Dict.of_list String.eqb (combine COLS row).

(* ================================================================== *)
(** ** Outcomes of code that can raise or exit *)
(* ================================================================== *)

Inductive exn : Type :=
| KeyError
| TypeError
| ValueError
| UnboundLocalError
| AttributeError
| OperationalError     (* psycopg2.connect *)
| DataError            (* django.db *)
| IntegrityError.      (* django.db *)

(** The two exception classes the store steps catch. *)
Definition caught (e : exn) : bool :=
  match e with DataError | IntegrityError => true | _ => false end.

Inductive outcome (A : Type) : Type :=
| Ret (x : A)          (* normal completion *)
| Raise (e : exn)      (* an exception propagates *)
| Exit (rc : Z).       (* [exit(rc)]: SystemExit *)
Arguments Ret {A} x.
Arguments Raise {A} e.
Arguments Exit {A} rc.

(** [r[k]] on a row: [KeyError] when the column is absent *)
Definition getitem (r : record) (k : string) : outcome pyval :=
  match Dict.get String.eqb k r with
  | Some v => Ret v
  | None => Raise KeyError
  end.

(* ================================================================== *)
(** ** Canonical form and digest of a record *)
(* ================================================================== *)

(** [sorted(d.items())]: the items are compared as tuples; the keys of a
    dict are pairwise distinct, so the first components decide. *)
Definition item_leb (x y : string * pyval) : bool := String.leb (fst x) (fst y).

Fixpoint insert (x : string * pyval) (l : record) : record :=
  match l with
  | [] => [x]
  | y :: r => if item_leb y x then y :: insert x r else x :: l
  end.

Fixpoint sorted (l : record) : record :=
  match l with
  | [] => []
  | x :: r => insert x (sorted r)
  end.

(** [strdict = str({k:v for k,v in sorted(d.items())}).encode('UTF-8')] *)
Definition strdict (d : record) : list Z :=
  encode_utf8 (str_dict (Dict.of_list String.eqb (sorted d))).

(** [hashlib.md5(strdict).digest()] *)
Definition digest (d : record) : list Z := MD5.digest (strdict d).

Definition bytes_eqb (x y : list Z) : bool :=
  if list_eq_dec Z.eq_dec x y then true else false.

(* ================================================================== *)
(** ** The world of a run: destination table, counters, event trace *)
(* ================================================================== *)

(** What [logger.error] is called with. *)
Inductive note : Type :=
| Saving (e : exn) (id : key)      (* '{} saving ID={}: {}' *)
| Deleting (e : exn) (id : key)    (* '{} deleting ID={}: {}' *)
| Failed (sql : string)            (* "Failed '{}' with {}: {}" *)
| Uncaught (e : exn).              (* '{} Exception: {}' in the main guard *)

(** [self.STATS]: the three counters of the summary line. *)
Record stats : Type := mkStats { Update : nat; Delete : nat; Skip : nat }.

(** Effects of a run on its collaborators, in program order. *)
Inductive event : Type :=
| EActivity                          (* pa = ProcessingActivity(...) *)
| EConnect                           (* conn.cursor() *)
| EClose                             (* cursor.close() *)
| EWrite (id : key) (kw : record)    (* a save issued for [id] *)
| ERemove (id : key)                 (* a delete issued for [id] *)
| ELogError (n : note)               (* self.logger.error(...) *)
| EFinish (rc : bool) (s : stats).   (* pa.FinishActivity(rc, summary_msg) *)

(** The destination table: one row per natural identifier, a row being
    the field dict that [model_to_dict] returns for it. *)
Definition table : Type := Dict.t key record.

Record world : Type := mkWorld { db : table; STATS : stats }.

(** The collaborators a run talks to. *)
Inductive query_result : Type :=
| QError                                             (* psycopg2.Error *)
| QRows (COLS : list string) (rows : list (list pyval)).

Record env : Type := mkEnv {
  connect : outcome unit;                        (* Connect_Source(url) *)
  query : string -> query_result;                (* cursor.execute(sql); fetchall() *)
  save_error : key -> record -> option exn;      (* what a save of this row raises *)
  delete_error : key -> option exn               (* what a delete of this row raises *)
}.

(** What the destination's model class does with the keyword arguments
    of a save: the field dict [model_to_dict] later returns for the row,
    or nothing when a value does not convert to its field. *)
Record ORM : Type := mkORM { to_row : record -> option record }.

(** *** State, trace and exception monad *)

Definition M (A : Type) : Type := world -> outcome A * world * list event.

Definition ret {A} (x : A) : M A := fun w => (Ret x, w, []).
Definition raise {A} (e : exn) : M A := fun w => (Raise e, w, []).
Definition exit_ {A} (rc : Z) : M A := fun w => (Exit rc, w, []).
Definition emit (ev : event) : M unit := fun w => (Ret tt, w, [ev]).
Definition lift {A} (o : outcome A) : M A := fun w => (o, w, []).

Definition bind {A B} (m : M A) (f : A -> M B) : M B :=
  fun w =>
    match m w with
    | (Ret x, w1, l1) => let '(o, w2, l2) := f x w1 in (o, w2, l1 ++ l2)
    | (Raise e, w1, l1) => (Raise e, w1, l1)
    | (Exit rc, w1, l1) => (Exit rc, w1, l1)
    end.

Notation "x <- m ;; k" := (bind m (fun x => k))
  (at level 61, m at next level, right associativity).
Notation "m ;; k" := (bind m (fun _ => k))
  (at level 61, right associativity).

(** [try: body except (DataError, IntegrityError) as e: handler] *)
Definition try_catch {A} (body : M A) (handler : exn -> M A) : M A :=
  fun w =>
    match body w with
    | (Raise e, w1, l1) =>
        if caught e then let '(o, w2, l2) := handler e w1 in (o, w2, l1 ++ l2)
        else (Raise e, w1, l1)
    | r => r
    end.

Definition obind {A B} (o : outcome A) (f : A -> outcome B) : outcome B :=
  match o with
  | Ret x => f x
  | Raise e => Raise e
  | Exit rc => Exit rc
  end.

Notation "x <~ o ;; k" := (obind o (fun x => k))
  (at level 61, o at next level, right associativity).

Definition get_db : M table := fun w => (Ret (db w), w, []).
Definition put_db (t : table) : M unit := fun w => (Ret tt, mkWorld t (STATS w), []).
Definition get_stats : M stats := fun w => (Ret (STATS w), w, []).
Definition put_stats (s : stats) : M unit := fun w => (Ret tt, mkWorld (db w) s, []).

(** [self.STATS.update({'Update'})] and its siblings *)
Definition count_update : M unit :=
  fun w => (Ret tt, mkWorld (db w) (mkStats (S (Update (STATS w))) (Delete (STATS w)) (Skip (STATS w))), []).
Definition count_delete : M unit :=
  fun w => (Ret tt, mkWorld (db w) (mkStats (Update (STATS w)) (S (Delete (STATS w))) (Skip (STATS w))), []).
Definition count_skip : M unit :=
  fun w => (Ret tt, mkWorld (db w) (mkStats (Update (STATS w)) (Delete (STATS w)) (S (Skip (STATS w)))), []).

(** The conversion of the keyword arguments to field values; a value
    that does not convert raises [ValueError]. *)
Definition converted (orm : ORM) (kw : record) : outcome record :=
  match to_row orm kw with
  | Some row => Ret row
  | None => Raise ValueError
  end.

(** [model.save()] / [update_or_create]: the row stored under [id] *)
Definition db_save (orm : ORM) (e : env) (id : key) (kw : record) : M unit :=
  emit (EWrite id kw) ;;
  match save_error e id kw with
  | Some x => raise x
  | None =>
      row <- lift (converted orm kw) ;;
      t <- get_db ;;
      put_db (Dict.set key_eqb id row t)
  end.

(** [item.delete()] *)
Definition db_delete (e : env) (id : key) : M unit :=
  emit (ERemove id) ;;
  match delete_error e id with
  | Some x => raise x
  | None => t <- get_db ;; put_db (Dict.remove key_eqb id t)
  end.

(* ================================================================== *)
(** ** [router_accessdb-fos.py] *)
(* ================================================================== *)

Module Fos.

Definition sql : string := "SELECT * from info_services.fosv".

(** [Router.Connect_Source] *)
Definition Connect_Source (e : env) : M unit :=
  lift (connect e) ;; emit EConnect.

(** [Router.Disconnect_Source] *)
Definition Disconnect_Source : M unit := emit EClose.

(** One round of the row loop of [Router.Retrieve_Source]: the key and
    the row stored under it.  [DATA[key]] is [rowdict] itself, so the
    assignment to [DATA[key]['fos_nsf_abbrev']] changes the stored row. *)
Definition retrieve_row (rd : record) : outcome (key * record) :=
  k <~ getitem rd "field_of_science_id" ;;
  na <~ getitem rd "fos_nsf_abbrev" ;;
  Ret (key_of k,
       if is_none_str na then Dict.set String.eqb "fos_nsf_abbrev" VNone rd else rd).

Fixpoint retrieve_rows (COLS : list string) (rows : list (list pyval))
         (DATA : Dict.t key record) : outcome (Dict.t key record) :=
  match rows with
  | [] => Ret DATA
  | row :: rest =>
      kr <~ retrieve_row (rowdict COLS row) ;;
      retrieve_rows COLS rest (Dict.set key_eqb (fst kr) (snd kr) DATA)
  end.

(** [Router.Retrieve_Source] *)
Definition Retrieve_Source (e : env) : M (Dict.t key record) :=
  match query e sql with
  | QError => emit (ELogError (Failed sql)) ;; exit_ 1
  | QRows COLS rows => lift (retrieve_rows COLS rows [])
  end.

(** [self.cur]: the rows of [FieldOfScience.objects.all()] by identifier *)
Definition cur_of (t : table) : Dict.t key record :=
  fold_left (fun cur item => Dict.set key_eqb (fst item) (snd item) cur) t [].

(** The [none] normalisation of the destination side. *)
Definition normalize (xdict : record) : record :=
  map (fun kv => (fst kv, if is_none_str (snd kv) then VNone else snd kv)) xdict.

(** The digest of a destination item: [model_to_dict], normalisation,
    sorted string, MD5. *)
Definition item_digest (xdict : record) : list Z := digest (normalize xdict).

(** [self.curdigest] *)
Definition curdigest_of (t : table) : Dict.t key (list Z) :=
  fold_left (fun cd item =>
               Dict.set key_eqb (fst item) (item_digest (snd item)) cd) t [].

(** [hashlib.md5(strdict).digest() == self.curdigest.get(new_id, '')] *)
Definition same_digest (nitem : record) (cd : option (list Z)) : bool :=
  match cd with
  | Some d => bytes_eqb (digest nitem) d
  | None => false
  end.

(** The fields of [defaults], in source order, with whether the value
    is wrapped in [str(...)]. *)
Definition default_fields : list (string * bool) :=
  [("field_of_science_desc", true); ("fos_nsf_id", false);
   ("fos_nsf_abbrev", true); ("is_active", true); ("fos_source", true);
   ("nsf_directorate_id", true); ("nsf_directorate_name", true);
   ("nsf_directorate_abbrev", true); ("parent_field_of_science_id", false);
   ("parent_field_of_science_desc", false); ("parent_fos_nsf_id", false);
   ("parent_fos_nsf_abbrev", true)].

Fixpoint defaults (fs : list (string * bool)) (nitem : record) : outcome record :=
  match fs with
  | [] => Ret []
  | (f, wrap) :: rest =>
      v <~ getitem nitem f ;;
      r <~ defaults rest nitem ;;
      Ret ((f, if wrap then VStr (str v) else v) :: r)
  end.

(** The body of the [try] of the save loop. *)
Definition save_item (orm : ORM) (e : env) (nitem : record) : M (option note) :=
  id <- lift (getitem nitem "field_of_science_id") ;;
  dflt <- lift (defaults default_fields nitem) ;;
  db_save orm e (key_of id) (("field_of_science_id", id) :: dflt) ;;
  count_update ;;
  ret None.

(** Its [except (DataError, IntegrityError)] clause. *)
Definition save_failed (nitem : record) (x : exn) : M (option note) :=
  id <- lift (getitem nitem "field_of_science_id") ;;
  emit (ELogError (Saving x (key_of id))) ;;
  ret (Some (Saving x (key_of id))).

(** One round of [for new_id in new_items]: [Some msg] is the early
    [return(False, msg)]. *)
Definition store_item (orm : ORM) (e : env) (curdigest : Dict.t key (list Z))
           (new_id : key) (nitem : record) : M (option note) :=
  if same_digest nitem (Dict.get key_eqb new_id curdigest)
  then count_skip ;; ret None
  else try_catch (save_item orm e nitem) (save_failed nitem).

Fixpoint save_loop (orm : ORM) (e : env) (curdigest : Dict.t key (list Z))
         (items : list (key * record)) : M (option note) :=
  match items with
  | [] => ret None
  | (new_id, nitem) :: rest =>
      r <- store_item orm e curdigest new_id nitem ;;
      match r with
      | Some msg => ret (Some msg)
      | None => save_loop orm e curdigest rest
      end
  end.

(** One round of [for cur_id in self.cur]. *)
Definition delete_item (e : env) (new_items : Dict.t key record) (cur_id : key) : M unit :=
  if negb (Dict.mem key_eqb cur_id new_items)
  then try_catch (db_delete e cur_id ;; count_delete)
                 (fun x => emit (ELogError (Deleting x cur_id)))
  else ret tt.

Fixpoint delete_loop (e : env) (new_items : Dict.t key record)
         (cur : list (key * record)) : M unit :=
  match cur with
  | [] => ret tt
  | (cur_id, _) :: rest => delete_item e new_items cur_id ;; delete_loop e new_items rest
  end.

(** [Router.Store_Destination]: the pair [(rc, msg)] *)
Definition Store_Destination (orm : ORM) (e : env) (new_items : Dict.t key record)
  : M (bool * option note) :=
  t <- get_db ;;
  r <- save_loop orm e (curdigest_of t) new_items ;;
  match r with
  | Some msg => ret (false, Some msg)
  | None => delete_loop e new_items (cur_of t) ;; ret (true, None)
  end.

(** [Router.Run] *)
Definition Run (orm : ORM) (e : env) : M unit :=
  put_stats (mkStats 0 0 0) ;;
  emit EActivity ;;
  Connect_Source e ;;
  INPUT <- Retrieve_Source e ;;
  r <- Store_Destination orm e INPUT ;;
  Disconnect_Source ;;
  s <- get_stats ;;
  emit (EFinish (fst r) s).

(** The [__main__] guard: [except Exception] catches what [Run] raises
    but not [SystemExit]; the value is the process's exit status. *)
Definition main (orm : ORM) (e : env) : world -> Z * world * list event :=
  fun w =>
    match Run orm e w with
    | (Ret _, w1, l) => (0, w1, l)
    | (Raise x, w1, l) => (1, w1, l ++ [ELogError (Uncaught x)])
    | (Exit rc, w1, l) => (rc, w1, l)
    end.

End Fos.


(* ================================================================== *)
(** ** The destination model of the fields-of-science router *)
(* ================================================================== *)

Module Django.

Inductive field_kind : Type := IntegerField | CharField | BooleanField.

(** [int(s)] for a decimal literal *)
Definition parse_int (s : string) : option Z :=
  match NilZero.int_of_string s with
  | Some i => Some (Z.of_int i)
  | None => None
  end.

(** The value a field of the given kind holds once the row is stored
    and read back. *)
Definition to_python (k : field_kind) (v : pyval) : outcome pyval :=
  match k, v with
  | _, VNone => Ret VNone
  | CharField, VStr s => Ret (VStr s)
  | CharField, _ => Ret (VStr (str v))
  | IntegerField, VInt z => Ret (VInt z)
  | IntegerField, VBool b => Ret (VInt (if b then 1 else 0))
  | IntegerField, VStr s =>
      match parse_int s with Some z => Ret (VInt z) | None => Raise ValueError end
  | BooleanField, VBool b => Ret (VBool b)
  | BooleanField, VInt z =>
      if z =? 1 then Ret (VBool true)
      else if z =? 0 then Ret (VBool false) else Raise ValueError
  | BooleanField, VStr s =>
      if String.eqb s "True" then Ret (VBool true)
      else if String.eqb s "False" then Ret (VBool false) else Raise ValueError
  end.

Fixpoint store_fields (fields : list (string * field_kind)) (kw : record) : outcome record :=
  match fields with
  | [] => Ret []
  | (f, k) :: rest =>
      v <~ to_python k (match Dict.get String.eqb f kw with Some x => x | None => VNone end) ;;
      r <~ store_fields rest kw ;;
      Ret ((f, v) :: r)
  end.

(** Modelled from the spec: the model class [FieldOfScience] of
    [allocations.models] is declared outside the router sources.  Its
    fields are the keyword arguments of the router's [update_or_create];
    identifiers are integers, [is_active] is a boolean and the
    descriptive fields are text, so that a stored row reads back as the
    "persisted counterpart" of the source record. *)
Definition FieldOfScience_fields : list (string * field_kind) :=
  [("field_of_science_id", IntegerField);
   ("field_of_science_desc", CharField);
   ("fos_nsf_id", IntegerField);
   ("fos_nsf_abbrev", CharField);
   ("is_active", BooleanField);
   ("fos_source", CharField);
   ("nsf_directorate_id", IntegerField);
   ("nsf_directorate_name", CharField);
   ("nsf_directorate_abbrev", CharField);
   ("parent_field_of_science_id", IntegerField);
   ("parent_field_of_science_desc", CharField);
   ("parent_fos_nsf_id", IntegerField);
   ("parent_fos_nsf_abbrev", CharField)].

Definition FieldOfScience : ORM :=
  mkORM (fun kw => match store_fields FieldOfScience_fields kw with
                   | Ret row => Some row
                   | _ => None
                   end).

(** A model class that keeps the keyword arguments as they are. *)
Definition plain : ORM := mkORM (fun kw => Some kw).

End Django.

(* ================================================================== *)
(** ** [route_xdcdb-persons.py] *)
(* ================================================================== *)

Module Persons.

Definition sql_address : string := "SELECT * from info_services.address_v".
Definition sql_citizenship : string := "SELECT * from info_services.citizenship_v".
Definition sql_email : string := "SELECT * from info_services.email_v".
Definition sql_person : string := "SELECT * from info_services.person_v".

(** The values of the map [DATA]: a person row, the address list of a
    person, or a joined string (or [None]). *)
Inductive obj : Type :=
| ORow (r : record)
| OList (l : list record)
| OVal (v : pyval).

(** [o[k]] with a [str] subscript: only a dict accepts it *)
Definition subscript (o : obj) (k : string) : outcome pyval :=
  match o with
  | ORow r => getitem r k
  | OList _ => Raise TypeError
  | OVal _ => Raise TypeError
  end.

(** [a + b] on the operands of the joins: two [str] *)
Definition add (a b : pyval) : outcome pyval :=
  match a, b with
  | VStr x, VStr y => Ret (VStr (x ++ y))
  | _, _ => Raise TypeError
  end.

(** The loop over [address_v]. *)
Fixpoint address_rows (COLS : list string) (rows : list (list pyval))
         (A_DATA : Dict.t key (list record)) : outcome (Dict.t key (list record)) :=
  match rows with
  | [] => Ret A_DATA
  | row :: rest =>
      let rd := rowdict COLS row in
      k <~ getitem rd "person_id" ;;
      let old := match Dict.get key_eqb (key_of k) A_DATA with
                 | Some l => l
                 | None => []
                 end in
      address_rows COLS rest (Dict.set key_eqb (key_of k) (old ++ [rd]) A_DATA)
  end.

(** The loops over [citizenship_v] and [email_v]: the values of column
    [col] joined by commas, per person. *)
Fixpoint joined_rows (col : string) (COLS : list string) (rows : list (list pyval))
         (J_DATA : Dict.t key pyval) : outcome (Dict.t key pyval) :=
  match rows with
  | [] => Ret J_DATA
  | row :: rest =>
      let rd := rowdict COLS row in
      k <~ getitem rd "person_id" ;;
      match Dict.get key_eqb (key_of k) J_DATA with
      | None =>
          v <~ getitem rd col ;;
          joined_rows col COLS rest (Dict.set key_eqb (key_of k) v J_DATA)
      | Some old =>
          v <~ getitem rd col ;;
          t <~ add (VStr ",") v ;;
          s <~ add old t ;;
          joined_rows col COLS rest (Dict.set key_eqb (key_of k) s J_DATA)
      end
  end.

(** [A_DATA.get(key, {})], [C_DATA.get(key, None)] *)
Definition addresses_of (A_DATA : Dict.t key (list record)) (k : key) : obj :=
  match Dict.get key_eqb k A_DATA with
  | Some l => OList l
  | None => ORow []
  end.

Definition joined_of (J_DATA : Dict.t key pyval) (k : key) : obj :=
  match Dict.get key_eqb k J_DATA with
  | Some v => OVal v
  | None => OVal VNone
  end.

(** The loop over [person_v]. *)
Fixpoint person_rows (A_DATA : Dict.t key (list record)) (C_DATA E_DATA : Dict.t key pyval)
         (COLS : list string) (rows : list (list pyval))
         (DATA : Dict.t key obj) : outcome (Dict.t key obj) :=
  match rows with
  | [] => Ret DATA
  | row :: rest =>
      let rd := rowdict COLS row in
      k <~ getitem rd "person_id" ;;
      let DATA := Dict.set key_eqb (key_of k) (ORow rd) DATA in
      let DATA := Dict.set key_eqb (KStr "addresses") (addresses_of A_DATA (key_of k)) DATA in
      let DATA := Dict.set key_eqb (KStr "citizenships") (joined_of C_DATA (key_of k)) DATA in
      let DATA := Dict.set key_eqb (KStr "emails") (joined_of E_DATA (key_of k)) DATA in
      person_rows A_DATA C_DATA E_DATA COLS rest DATA
  end.

(** One [try: cursor.execute(sql) except psycopg2.Error: ...; exit(1)] *)
Definition execute (e : env) (sql : string) : M (list string * list (list pyval)) :=
  match query e sql with
  | QError => emit (ELogError (Failed sql)) ;; exit_ 1
  | QRows COLS rows => ret (COLS, rows)
  end.

(** [HandleLoad.Retrieve_Source] *)
Definition Retrieve_Source (e : env) : M (Dict.t key obj) :=
  a <- execute e sql_address ;;
  A_DATA <- lift (address_rows (fst a) (snd a) []) ;;
  c <- execute e sql_citizenship ;;
  C_DATA <- lift (joined_rows "country" (fst c) (snd c) []) ;;
  m <- execute e sql_email ;;
  E_DATA <- lift (joined_rows "Email" (fst m) (snd m) []) ;;
  p <- execute e sql_person ;;
  lift (person_rows A_DATA C_DATA E_DATA (fst p) (snd p) []).

(** The keyword arguments of [XSEDEPerson(...)]: name, subscript of
    [nitem], and whether the value is wrapped in [str(...)]. *)
Definition person_fields : list (string * string * bool) :=
  [("person_id", "person_id", false); ("portal_login", "portal_login", true);
   ("last_name", "last_name", true); ("first_name", "first_name", true);
   ("middle_name", "middle_name", true); ("is_suspended", "is_suspended", true);
   ("organization", "organization", true); ("citizenships", "citizenships", true);
   ("emails", "emails", true); ("addressesJSON", "addresses", false)].

Fixpoint kwargs (fs : list (string * string * bool)) (nitem : obj) : outcome record :=
  match fs with
  | [] => Ret []
  | (f, col, wrap) :: rest =>
      v <~ subscript nitem col ;;
      r <~ kwargs rest nitem ;;
      Ret ((f, if wrap then VStr (str v) else v) :: r)
  end.

(** Reading the local variable [person_id], bound by the first save
    that succeeds. *)
Definition local (person_id : option pyval) : outcome pyval :=
  match person_id with
  | Some v => Ret v
  | None => Raise UnboundLocalError
  end.

(** [e.message]: the exception classes of [django.db] have no such
    attribute. *)
Definition message : outcome string := Raise AttributeError.

(** The body of the [try] of the save loop; the value is the new
    binding of [person_id]. *)
Definition save_item (orm : ORM) (e : env) (nitem : obj) : M (option note * option pyval) :=
  kw <- lift (kwargs person_fields nitem) ;;
  id <- lift (subscript nitem "person_id") ;;
  db_save orm e (key_of id) kw ;;
  person_id <- lift (subscript nitem "person_id") ;;
  count_update ;;
  ret (None, Some person_id).

(** Its [except (DataError, IntegrityError)] clause. *)
Definition save_failed (person_id : option pyval) (x : exn)
  : M (option note * option pyval) :=
  id <- lift (local person_id) ;;
  _ <- lift message ;;
  emit (ELogError (Saving x (key_of id))) ;;
  ret (Some (Saving x (key_of id)), person_id).

Fixpoint save_loop (orm : ORM) (e : env) (items : list (key * obj))
         (person_id : option pyval) : M (option note) :=
  match items with
  | [] => ret None
  | (_, nitem) :: rest =>
      r <- try_catch (save_item orm e nitem) (save_failed person_id) ;;
      match fst r with
      | Some msg => ret (Some msg)
      | None => save_loop orm e rest (snd r)
      end
  end.

(** [self.cur[item]['person_id']]: [self.cur[item]] is a model
    instance, which takes no subscript. *)
Definition instance_subscript : outcome pyval := Raise TypeError.

Definition delete_item (e : env) (new_items : Dict.t key obj) : M unit :=
  id <- lift instance_subscript ;;
  if negb (Dict.mem key_eqb (key_of id) new_items)
  then try_catch (_ <- lift instance_subscript ;; db_delete e (key_of id) ;; count_delete)
                 (fun x => _ <- lift message ;; emit (ELogError (Deleting x (key_of id))))
  else ret tt.

Fixpoint delete_loop (e : env) (new_items : Dict.t key obj)
         (cur : list (key * record)) : M unit :=
  match cur with
  | [] => ret tt
  | _ :: rest => delete_item e new_items ;; delete_loop e new_items rest
  end.

(** [self.cur] *)
Definition cur_of (t : table) : Dict.t key record :=
  fold_left (fun cur item => Dict.set key_eqb (fst item) (snd item) cur) t [].

(** [HandleLoad.Store_Destination] *)
Definition Store_Destination (orm : ORM) (e : env) (new_items : Dict.t key obj)
  : M (bool * option note) :=
  t <- get_db ;;
  r <- save_loop orm e new_items None ;;
  match r with
  | Some msg => ret (false, Some msg)
  | None => delete_loop e new_items (cur_of t) ;; ret (true, None)
  end.

(** The loop of [HandleLoad.run] *)
Definition run (orm : ORM) (e : env) : M unit :=
  emit EActivity ;;
  put_stats (mkStats 0 0 0) ;;
  lift (connect e) ;; emit EConnect ;;
  INPUT <- Retrieve_Source e ;;
  r <- Store_Destination orm e INPUT ;;
  emit EClose ;;
  s <- get_stats ;;
  emit (EFinish (fst r) s).

End Persons.

(* ================================================================== *)
(** ** [route_xdcdb-users.py] *)
(* ================================================================== *)

Module Users.

Definition sql : string := "SELECT * from info_services.xsede_local_usermap".

(** [item.f] on a model instance *)
Definition attr (item : record) (f : string) : pyval :=
  match Dict.get String.eqb f item with
  | Some v => v
  | None => VNone
  end.

(** The row loop of [HandleLoad.Retrieve_Usermap]. *)
Fixpoint retrieve_rows (COLS : list string) (rows : list (list pyval))
         (DATA : Dict.t key record) : outcome (Dict.t key record) :=
  match rows with
  | [] => Ret DATA
  | row :: rest =>
      let rd := rowdict COLS row in
      u <~ getitem rd "username" ;;
      r <~ getitem rd "resource_name" ;;
      retrieve_rows COLS rest (Dict.set key_eqb (KStr (str u ++ str r)) rd DATA)
  end.

(** [HandleLoad.Retrieve_Usermap] *)
Definition Retrieve_Usermap (e : env) : M (Dict.t key record) :=
  match query e sql with
  | QError => emit (ELogError (Failed sql)) ;; exit_ 1
  | QRows COLS rows => lift (retrieve_rows COLS rows [])
  end.

(** [self.cur]: resource name, then local user name, to the stored
    item (its row key and fields); the first item of a pair stays. *)
Definition nested : Type := Dict.t key (Dict.t key (key * record)).

Definition cur_of (t : table) : nested :=
  fold_left
    (fun cur item =>
       let r := KStr (str (attr (snd item) "resource_name")) in
       let u := KStr (str (attr (snd item) "local_username")) in
       match Dict.get key_eqb r cur with
       | Some users =>
           if Dict.mem key_eqb u users then cur
           else Dict.set key_eqb r (Dict.set key_eqb u item users) cur
       | None => Dict.set key_eqb r [(u, item)] cur
       end) t [].

(** [nitem['resource_name'] in self.cur] and
    [nitem['username'] in self.cur[nitem['resource_name']]] *)
Definition present (cur : nested) (nitem : record) : outcome bool :=
  r <~ getitem nitem "resource_name" ;;
  match Dict.get key_eqb (key_of r) cur with
  | Some users =>
      u <~ getitem nitem "username" ;;
      Ret (Dict.mem key_eqb (key_of u) users)
  | None => Ret false
  end.

(** The key of a row inserted by [model.save()] on a new instance. *)
Definition fresh (t : table) : key :=
  KInt (1 + fold_left (fun m item => match fst item with
                                     | KInt z => Z.max m z
                                     | _ => m
                                     end) t 0).

Definition save_item (orm : ORM) (e : env) (nitem : record)
  : M (option note * option pyval) :=
  pid <- lift (getitem nitem "person_id") ;;
  login <- lift (getitem nitem "portal_login") ;;
  rid <- lift (getitem nitem "resource_id") ;;
  rname <- lift (getitem nitem "resource_name") ;;
  uname <- lift (getitem nitem "username") ;;
  rname' <- lift (getitem nitem "resource_name") ;;
  t <- get_db ;;
  db_save orm e (fresh t)
    [("person_id", pid); ("portal_login", VStr (str login)); ("resource_id", rid);
     ("resource_name", VStr (str rname)); ("local_username", VStr (str uname));
     ("ResourceID", VStr (str rname' ++ ".org"))] ;;
  person_id <- lift (getitem nitem "person_id") ;;
  count_update ;;
  ret (None, Some person_id).

Definition save_failed (person_id : option pyval) (x : exn)
  : M (option note * option pyval) :=
  id <- lift (Persons.local person_id) ;;
  _ <- lift Persons.message ;;
  emit (ELogError (Saving x (key_of id))) ;;
  ret (Some (Saving x (key_of id)), person_id).

(** One round of [for new_id in new_items]; [continue] leaves the
    world as it is. *)
Definition store_item (orm : ORM) (e : env) (cur : nested) (nitem : record)
           (person_id : option pyval) : M (option note * option pyval) :=
  p <- lift (present cur nitem) ;;
  if p then ret (None, person_id)
  else try_catch (save_item orm e nitem) (save_failed person_id).

Fixpoint save_loop (orm : ORM) (e : env) (cur : nested) (items : list (key * record))
         (person_id : option pyval) : M (option note) :=
  match items with
  | [] => ret None
  | (_, nitem) :: rest =>
      r <- store_item orm e cur nitem person_id ;;
      match fst r with
      | Some msg => ret (Some msg)
      | None => save_loop orm e cur rest (snd r)
      end
  end.

(** [self.stats['Usermap.Delete'] += 1]: [self.stats] is a plain
    dict and [run] initialises ['UserMap.Delete'], so this key is
    absent. *)
Definition missing_counter : outcome unit := Raise KeyError.

Definition delete_item (e : env) (new_items : Dict.t key record) (item : key * record)
  : M unit :=
  let compstring := (str (attr (snd item) "local_username")
                     ++ str (attr (snd item) "resource_name"))%string in
  if negb (Dict.mem key_eqb (KStr compstring) new_items)
  then try_catch (db_delete e (fst item) ;; lift missing_counter)
                 (fun x => _ <- lift Persons.message ;;
                           emit (ELogError (Deleting x (key_of (attr (snd item) "person_id")))))
  else ret tt.

Fixpoint delete_users (e : env) (new_items : Dict.t key record)
         (users : list (key * (key * record))) : M unit :=
  match users with
  | [] => ret tt
  | (_, item) :: rest => delete_item e new_items item ;; delete_users e new_items rest
  end.

Fixpoint delete_loop (e : env) (new_items : Dict.t key record) (cur : nested) : M unit :=
  match cur with
  | [] => ret tt
  | (_, users) :: rest => delete_users e new_items users ;; delete_loop e new_items rest
  end.

(** [HandleLoad.Warehouse_Usermap] *)
Definition Warehouse_Usermap (orm : ORM) (e : env) (new_items : Dict.t key record)
  : M (bool * option note) :=
  t <- get_db ;;
  r <- save_loop orm e (cur_of t) new_items None ;;
  match r with
  | Some msg => ret (false, Some msg)
  | None => delete_loop e new_items (cur_of t) ;; ret (true, None)
  end.

(** The loop of [HandleLoad.run] *)
Definition run (orm : ORM) (e : env) : M unit :=
  emit EActivity ;;
  lift (connect e) ;; emit EConnect ;;
  put_stats (mkStats 0 0 0) ;;
  INPUT <- Retrieve_Usermap e ;;
  r <- Warehouse_Usermap orm e INPUT ;;
  s <- get_stats ;;
  emit EClose ;;
  emit (EFinish (fst r) s).

End Users.

(* ================================================================== *)
(** ** Vocabulary of the properties *)
(* ================================================================== *)


Definition is_finish (ev : event) : bool :=
  match ev with EFinish _ _ => true | _ => false end.

Definition is_close (ev : event) : bool :=
  match ev with EClose => true | _ => false end.

Definition is_connect (ev : event) : bool :=
  match ev with EConnect => true | _ => false end.

(** A save or a delete issued for [id]. *)
Definition touches (id : key) (ev : event) : bool :=
  match ev with
  | EWrite id' _ => key_eqb id id'
  | ERemove id' => key_eqb id id'
  | _ => false
  end.

Definition is_write (ev : event) : bool :=
  match ev with EWrite _ _ | ERemove _ => true | _ => false end.


(** A value that stands for "no value": [None] or the word [none] in
    any letter case. *)
Definition null_like (v : pyval) : Prop := v = VNone \/ is_none_str v = true.

(** Two records that agree field by field up to the spelling of "no
    value". *)
Definition same_up_to_null (x y : record) : Prop :=
  Forall2 (fun a b => fst a = fst b /\
                      (snd a = snd b \/ (null_like (snd a) /\ null_like (snd b)))) x y.

(** The source map as [Retrieve_Source] builds it: every record is
    stored under its own [field_of_science_id]. *)
Definition keyed_by_id (items : Dict.t key record) : Prop :=
  forall k r, In (k, r) items ->
              exists v, getitem r "field_of_science_id" = Ret v /\ key_of v = k.

(** The keyword arguments of the save of a source record. *)
Definition fos_kwargs (nitem : record) : outcome record :=
  id <~ getitem nitem "field_of_science_id" ;;
  dflt <~ Fos.defaults Fos.default_fields nitem ;;
  Ret (("field_of_science_id", id) :: dflt).



(** The identifiers of a source snapshot. *)
Definition source_ids (COLS : list string) (rows : list (list pyval)) : list key :=
  map (fun row => key_of (Users.attr (rowdict COLS row) "field_of_science_id")) rows.

Definition is_saving (ev : event) : bool :=
  match ev with ELogError (Saving _ _) => true | _ => false end.

(** The events of the delete loop: deletes and their error lines. *)
Definition is_delete_event (ev : event) : bool :=
  match ev with
  | ERemove _ => true
  | ELogError (Deleting _ _) => true
  | _ => false
  end.

(** The events of a store step that does not log a save failure. *)
Definition is_store_event (ev : event) : bool :=
  match ev with
  | EWrite _ _ => true
  | ERemove _ => true
  | ELogError (Deleting _ _) => true
  | _ => false
  end.

(** What one round of the save loop of the fields-of-science router
    can do, as a relation between the world before and the outcome,
    world and trace after. *)
Inductive store_step (orm : ORM) (e : env) (cd : Dict.t key (list Z))
          (new_id : key) (nitem : record) (w : world)
  : outcome (option note) -> world -> list event -> Prop :=
| step_skip :
    Fos.same_digest nitem (Dict.get key_eqb new_id cd) = true ->
    store_step orm e cd new_id nitem w
      (Ret None)
      (mkWorld (db w) (mkStats (Update (STATS w)) (Delete (STATS w)) (S (Skip (STATS w)))))
      []
| step_save id kw row :
    Fos.same_digest nitem (Dict.get key_eqb new_id cd) = false ->
    getitem nitem "field_of_science_id" = Ret id ->
    fos_kwargs nitem = Ret kw ->
    save_error e (key_of id) kw = None ->
    to_row orm kw = Some row ->
    store_step orm e cd new_id nitem w
      (Ret None)
      (mkWorld (Dict.set key_eqb (key_of id) row (db w))
               (mkStats (S (Update (STATS w))) (Delete (STATS w)) (Skip (STATS w))))
      [EWrite (key_of id) kw]
| step_fail id kw x :
    Fos.same_digest nitem (Dict.get key_eqb new_id cd) = false ->
    getitem nitem "field_of_science_id" = Ret id ->
    fos_kwargs nitem = Ret kw ->
    caught x = true ->
    store_step orm e cd new_id nitem w
      (Ret (Some (Saving x (key_of id)))) w
      [EWrite (key_of id) kw; ELogError (Saving x (key_of id))]
| step_abort o l :
    Fos.same_digest nitem (Dict.get key_eqb new_id cd) = false ->
    (forall r, o <> Ret r) ->
    l = [] \/ (exists id kw, getitem nitem "field_of_science_id" = Ret id /\
                              l = [EWrite (key_of id) kw]) ->
    store_step orm e cd new_id nitem w o w l.

(** What one round of its delete loop can do. *)
Inductive delete_step (e : env) (new_items : Dict.t key record) (cur_id : key) (w : world)
  : outcome unit -> world -> list event -> Prop :=
| del_keep :
    Dict.mem key_eqb cur_id new_items = true ->
    delete_step e new_items cur_id w (Ret tt) w []
| del_done :
    Dict.mem key_eqb cur_id new_items = false ->
    delete_error e cur_id = None ->
    delete_step e new_items cur_id w
      (Ret tt)
      (mkWorld (Dict.remove key_eqb cur_id (db w))
               (mkStats (Update (STATS w)) (S (Delete (STATS w))) (Skip (STATS w))))
      [ERemove cur_id]
| del_fail x :
    Dict.mem key_eqb cur_id new_items = false ->
    delete_error e cur_id = Some x ->
    caught x = true ->
    delete_step e new_items cur_id w
      (Ret tt) w [ERemove cur_id; ELogError (Deleting x cur_id)]
| del_abort x :
    Dict.mem key_eqb cur_id new_items = false ->
    delete_error e cur_id = Some x ->
    caught x = false ->
    delete_step e new_items cur_id w (Raise x) w [ERemove cur_id].

(** An outcome that is not a normal completion, carried over to another
    result type. *)
Definition failed {A B} (o : outcome A) (o' : outcome B) : Prop :=
  (exists x, o = Raise x /\ o' = Raise x) \/ (exists rc, o = Exit rc /\ o' = Exit rc).

(** [Run] starts from fresh counters. *)
Definition reset (w : world) : world := mkWorld (db w) (mkStats 0 0 0).

(** The ways a run of the fields-of-science router can go. *)
Inductive run_shape (orm : ORM) (e : env) (w : world)
  : outcome unit -> world -> list event -> Prop :=
| run_connect_fails o :
    failed (connect e) o ->
    run_shape orm e w o (reset w) [EActivity]
| run_query_fails :
    connect e = Ret tt ->
    query e Fos.sql = QError ->
    run_shape orm e w (Exit 1) (reset w)
              [EActivity; EConnect; ELogError (Failed Fos.sql)]
| run_rows_fail COLS rows o :
    connect e = Ret tt ->
    query e Fos.sql = QRows COLS rows ->
    failed (Fos.retrieve_rows COLS rows []) o ->
    run_shape orm e w o (reset w) [EActivity; EConnect]
| run_store_fails COLS rows S os o w' l :
    connect e = Ret tt ->
    query e Fos.sql = QRows COLS rows ->
    Fos.retrieve_rows COLS rows [] = Ret S ->
    Fos.Store_Destination orm e S (reset w) = (os, w', l) ->
    failed os o ->
    run_shape orm e w o w' ([EActivity; EConnect] ++ l)
| run_store_returns COLS rows S r w' l :
    connect e = Ret tt ->
    query e Fos.sql = QRows COLS rows ->
    Fos.retrieve_rows COLS rows [] = Ret S ->
    Fos.Store_Destination orm e S (reset w) = (Ret r, w', l) ->
    run_shape orm e w (Ret tt) w'
              ([EActivity; EConnect] ++ l ++ [EClose; EFinish (fst r) (STATS w')]).

(** The trace of a store step, by its result. *)
Definition store_trace (o : outcome (bool * option note)) (l : list event) : Prop :=
  match o with
  | Ret (true, msg) => msg = None /\ forallb is_store_event l = true
  | Ret (false, msg) =>
      exists l0 x id kw,
        msg = Some (Saving x id) /\ caught x = true /\
        l = l0 ++ [EWrite id kw; ELogError (Saving x id)] /\
        forallb is_write l0 = true
  | _ => forallb is_store_event l = true
  end.

(** What one round of the save loop of the persons router can do. *)
Inductive person_step (orm : ORM) (e : env) (nitem : Persons.obj)
          (person_id : option pyval) (w : world)
  : outcome (option note * option pyval) -> world -> list event -> Prop :=
| person_saved v kw row :
    Persons.subscript nitem "person_id" = Ret v ->
    Persons.kwargs Persons.person_fields nitem = Ret kw ->
    save_error e (key_of v) kw = None ->
    to_row orm kw = Some row ->
    person_step orm e nitem person_id w
      (Ret (None, Some v))
      (mkWorld (Dict.set key_eqb (key_of v) row (db w))
               (mkStats (S (Update (STATS w))) (Delete (STATS w)) (Skip (STATS w))))
      [EWrite (key_of v) kw]
| person_unusable x :
    Persons.kwargs Persons.person_fields nitem = Raise x ->
    x = KeyError \/ x = TypeError ->
    person_step orm e nitem person_id w (Raise x) w []
| person_save_raised v kw x :
    Persons.subscript nitem "person_id" = Ret v ->
    Persons.kwargs Persons.person_fields nitem = Ret kw ->
    save_error e (key_of v) kw <> None \/ to_row orm kw = None ->
    caught x = false ->
    person_step orm e nitem person_id w (Raise x) w [EWrite (key_of v) kw].

(** The three aggregates the persons router builds before it reads the
    person view. *)
Definition aggregates (e : env) (A_DATA : Dict.t key (list record))
           (C_DATA E_DATA : Dict.t key pyval) : Prop :=
  (exists COLS rows, query e Persons.sql_address = QRows COLS rows /\
                     Persons.address_rows COLS rows [] = Ret A_DATA) /\
  (exists COLS rows, query e Persons.sql_citizenship = QRows COLS rows /\
                     Persons.joined_rows "country" COLS rows [] = Ret C_DATA) /\
  (exists COLS rows, query e Persons.sql_email = QRows COLS rows /\
                     Persons.joined_rows "Email" COLS rows [] = Ret E_DATA).

(** Every save issued in a trace was accepted by the destination. *)
Definition saves_accepted (orm : ORM) (e : env) (l : list event) : Prop :=
  forall id kw, In (EWrite id kw) l -> save_error e id kw = None /\ to_row orm kw <> None.

(* ================================================================== *)
(** ** Sample snapshots *)
(* ================================================================== *)

Module Sample.

Definition fos_cols : list string :=
  ["field_of_science_id"; "field_of_science_desc"; "fos_nsf_id"; "fos_nsf_abbrev";
   "is_active"; "fos_source"; "nsf_directorate_id"; "nsf_directorate_name";
   "nsf_directorate_abbrev"; "parent_field_of_science_id";
   "parent_field_of_science_desc"; "parent_fos_nsf_id"; "parent_fos_nsf_abbrev"].

Definition fos_row (id : Z) (desc abbrev source : string) : list pyval :=
  [VInt id; VStr desc; VInt 13; VStr abbrev; VBool true; VStr source; VInt 4;
   VStr "Mathematical and Physical Sciences"; VStr "MPS"; VNone; VNone; VNone; VNone].

Definition physics : list pyval := fos_row 1 "Physics" "PHY" "NSF".
Definition chemistry : list pyval := fos_row 2 "Chemistry" "CHE" "NSF".
Definition geology : list pyval := fos_row 3 "Geology" "none" "NSF".

(** A field of science whose source column holds the word [None]. *)
Definition unsourced : list pyval := fos_row 1 "Physics" "PHY" "None".

(** The record [Retrieve_Source] stores for a source row. *)
Definition source_record (row : list pyval) : record :=
  match Fos.retrieve_row (rowdict fos_cols row) with
  | Ret (_, nitem) => nitem
  | _ => []
  end.

(** The keyword arguments of the save issued for a source row. *)
Definition rowdict_kwargs (row : list pyval) : record :=
  match Fos.retrieve_row (rowdict fos_cols row) with
  | Ret (_, nitem) => match fos_kwargs nitem with Ret kw => kw | _ => [] end
  | _ => []
  end.

(** The stored counterpart of a source row: what the model class keeps
    of the keyword arguments of its save. *)
Definition stored (row : list pyval) : record :=
  match to_row Django.FieldOfScience (rowdict_kwargs row) with
  | Some r => r
  | None => []
  end.

(** A source that answers every query with the given rows and a
    destination on which the writes named by [bad_save] and
    [bad_delete] raise [IntegrityError]. *)
Definition source (COLS : list string) (rows : list (list pyval))
           (bad_save bad_delete : list key) : env :=
  mkEnv (Ret tt)
        (fun _ => QRows COLS rows)
        (fun id _ => if existsb (key_eqb id) bad_save then Some IntegrityError else None)
        (fun id => if existsb (key_eqb id) bad_delete then Some IntegrityError else None).

(** A source whose query fails. *)
Definition broken : env :=
  mkEnv (Ret tt) (fun _ => QError) (fun _ _ => None) (fun _ => None).

Definition empty : world := mkWorld [] (mkStats 0 0 0).

(** One row of the user map view. *)
Definition usermap_cols : list string :=
  ["person_id"; "portal_login"; "resource_id"; "resource_name"; "username"].
Definition jdoe : list pyval :=
  [VInt 7; VStr "jdoe"; VInt 3; VStr "stampede"; VStr "jd"].

(** The four views of the persons router: two persons, of which the
    first has an address, two citizenships and an e-mail address. *)
Definition person_cols : list string :=
  ["person_id"; "portal_login"; "last_name"; "first_name"; "middle_name";
   "is_suspended"; "organization"].
Definition ada : list pyval :=
  [VInt 7; VStr "ada"; VStr "Lovelace"; VStr "Ada"; VNone; VBool false; VStr "AE"].
Definition bob : list pyval :=
  [VInt 8; VStr "bob"; VStr "Boole"; VStr "Bob"; VNone; VBool false; VStr "QC"].

Definition persons_query (person_cols : list string) (persons : list (list pyval))
           (sql : string) : query_result :=
  if String.eqb sql Persons.sql_address
  then QRows ["person_id"; "city"] [[VInt 7; VStr "London"]]
  else if String.eqb sql Persons.sql_citizenship
  then QRows ["person_id"; "country"] [[VInt 7; VStr "UK"]; [VInt 7; VStr "FR"]]
  else if String.eqb sql Persons.sql_email
  then QRows ["person_id"; "Email"] [[VInt 7; VStr "ada@example.org"]]
  else QRows person_cols persons.

Definition persons_source (person_cols : list string) (persons : list (list pyval))
           (bad_save : list key) : env :=
  mkEnv (Ret tt)
        (persons_query person_cols persons)
        (fun id _ => if existsb (key_eqb id) bad_save then Some DataError else None)
        (fun _ => None).

(** The map [Retrieve_Source] builds from a person view. *)
Definition persons_map (e : env) : Dict.t key Persons.obj :=
  match fst (fst (Persons.Retrieve_Source e empty)) with
  | Ret DATA => DATA
  | _ => []
  end.

(** A person view that also carries the three derived columns. *)
Definition wide_cols : list string :=
  person_cols ++ ["citizenships"; "emails"; "addresses"].
Definition wide_ada : list pyval := ada ++ [VStr "UK"; VStr "ada@example.org"; VNone].

End Sample.

(* ================================================================== *)
(** ** Start-up of the fields-of-science router: URLs *)
(* ================================================================== *)

Module Startup.

(** [s.find(c)] for a one-character [c]: the lowest index, or [-1]. *)
Fixpoint index_of (c : ascii) (s : string) : option nat :=
  match s with
  | EmptyString => None
  | String d r =>
      if Ascii.eqb c d then Some O
      else match index_of c r with
           | Some n => Some (S n)
           | None => None
           end
  end.

Definition find (c : ascii) (s : string) : Z :=
  match index_of c s with
  | Some n => Z.of_nat n
  | None => -1
  end.

(** [s[0:n]] and [s[n:]] for [n >= 0] *)
Fixpoint upto (n : nat) (s : string) : string :=
  match n, s with
  | S n', String c r => String c (upto n' r)
  | _, _ => EmptyString
  end.

Fixpoint from (n : nat) (s : string) : string :=
  match n, s with
  | S n', String c r => from n' r
  | _, _ => s
  end.

Definition colon : ascii := chr 58.
Definition slash : ascii := chr 47.

(** [x in names] *)
Definition member (x : string) (names : list string) : bool :=
  existsb (String.eqb x) names.

(** Why [Setup] gives up: each is logged (or printed) and followed by
    [self.exit(1)]. *)
Inductive refusal : Type :=
| SourceScheme           (* 'Source not {file, http, https}' *)
| SourceSlashes          (* 'Source URL not followed by "//"' *)
| SourceNoDatabase       (* 'Source is missing a database name' *)
| DestinationScheme      (* 'Destination not {file, analyze, warehouse}' *)
| BothFiles              (* 'Source and Destination can not both be a {file}' *)
| SourceNotPostgresql.   (* 'Source must be "postgresql"' *)

Inductive result (A : Type) : Type :=
| Done (x : A)
| Refused (why : refusal)       (* an error line, then [exit(1)] *)
| Crashed (e : exn).            (* an exception leaves [Setup] *)
Arguments Done {A} x.
Arguments Refused {A} why.
Arguments Crashed {A} e.

Definition rbind {A B} (r : result A) (f : A -> result B) : result B :=
  match r with
  | Done x => f x
  | Refused why => Refused why
  | Crashed e => Crashed e
  end.



(** [idx = s.find(':')] and the split into scheme and path; without a
    colon at a positive index the path stays [None]. *)
Definition split_scheme (s : string) : string * option string :=
  let idx := find colon s in
  if 0 <? idx
  then (upto (Z.to_nat idx) s, Some (from (Z.to_nat (idx + 1)) s))
  else (s, None).

(** The source part of [Router.Setup]: scheme and path. *)
Definition Setup_source (src : string) : result (string * string) :=
  let '(scheme, path) := split_scheme src in
  if negb (member scheme ["file"; "http"; "https"; "postgresql"])
  then Refused SourceScheme
  else
    rbind
      (if member scheme ["http"; "https"; "postgresql"]
       then match path with
            | None => Crashed TypeError          (* None[0:2] *)
            | Some p =>
                if negb (String.eqb (upto 2 p) "//") then Refused SourceSlashes
                else Done (Some (from 2 p))
            end
       else Done path)
      (fun path =>
         match path with
         | None => Crashed TypeError             (* len(None) *)
         | Some p =>
             if (Z.of_nat (String.length p) <? 1) then Refused SourceNoDatabase
             else Done (scheme, p)
         end).




(** The URL analysis of [Router.Connect_Source]: host, port and database
    name; an invalid URL is logged and ends in [exit(1)]. *)
Definition Connect_Source_parts (url : string) : outcome (string * string * string) :=
  let idx := find colon url in
  if idx <=? 0 then Exit 1
  else
    let type := upto (Z.to_nat idx) url in
    let obj := from (Z.to_nat (idx + 1)) url in
    if negb (member type ["postgresql"]) then Exit 1
    else if negb (String.eqb (upto 2 obj) "//") then Exit 1
    else
      let obj := from 2 obj in
      let idx := find slash obj in
      if idx <=? 0 then Exit 1
      else
        let host := upto (Z.to_nat idx) obj in
        let path := from (Z.to_nat (idx + 1)) obj in
        let idx := find colon host in
        if 0 <? idx
        then Ret (upto (Z.to_nat idx) host, from (Z.to_nat (idx + 1)) host, path)
        else Ret (host, "5432", path).

(** The connection string handed to [psycopg2.connect]. *)
Definition conn_string (host port path user password : string) : string :=
  ("host='" ++ host ++ "' port='" ++ port ++ "' dbname='" ++ path
   ++ "' user='" ++ user ++ "' password='" ++ password ++ "'")%string.

Definition Connect_Source_string (url SOURCE_DBUSER SOURCE_DBPASS : string)
  : outcome string :=
  p <~ Connect_Source_parts url ;;
  Ret (conn_string (fst (fst p)) (snd (fst p)) (snd p) SOURCE_DBUSER SOURCE_DBPASS).

End Startup.

(* ================================================================== *)
(** ** Vocabulary of further properties *)
(* ================================================================== *)

(** The record of the last source row that [Retrieve_Source] stores
    under [k]. *)
Definition last_record (COLS : list string) (rows : list (list pyval)) (k : key)
  : option record :=
  fold_left (fun acc row =>
               match Fos.retrieve_row (rowdict COLS row) with
               | Ret (k', r) => if key_eqb k k' then Some r else acc
               | _ => acc
               end) rows None.

Definition is_save (ev : event) : bool :=
  match ev with EWrite _ _ => true | _ => false end.

Definition is_remove (ev : event) : bool :=
  match ev with ERemove _ => true | _ => false end.

Definition is_deleting (ev : event) : bool :=
  match ev with ELogError (Deleting _ _) => true | _ => false end.

(** Number of events of a kind in a trace. *)
Definition count (P : event -> bool) (l : list event) : nat :=
  List.length (filter P l).

(** The texts of column [col] in the rows of person [k], in fetch
    order. *)
Definition strings_of (col : string) (COLS : list string) (rows : list (list pyval))
           (k : key) : list string :=
  flat_map (fun row =>
              let rd := rowdict COLS row in
              match getitem rd "person_id", getitem rd col with
              | Ret id, Ret (VStr s) => if key_eqb k (key_of id) then [s] else []
              | _, _ => []
              end) rows.

(** The row dicts of person [k], in fetch order. *)
Definition records_of (COLS : list string) (rows : list (list pyval)) (k : key)
  : list record :=
  flat_map (fun row =>
              let rd := rowdict COLS row in
              match getitem rd "person_id" with
              | Ret id => if key_eqb k (key_of id) then [rd] else []
              | _ => []
              end) rows.

(** A row of a child view with a person and a text in column [col]. *)
Definition text_row (col : string) (COLS : list string) (row : list pyval) : Prop :=
  exists id s, getitem (rowdict COLS row) "person_id" = Ret id /\
               getitem (rowdict COLS row) col = Ret (VStr s).

(** What a join holds for a person with the texts [vs]: nothing, or the
    texts separated by commas. *)
Definition joined (vs : list string) : option pyval :=
  match vs with
  | [] => None
  | _ => Some (VStr (String.concat "," vs))
  end.

(** What the address map holds for a person with the rows [l]. *)
Definition grouped (l : list record) : option (list record) :=
  match l with
  | [] => None
  | _ => Some l
  end.

(** A row of a view with a person column. *)
Definition has_person (COLS : list string) (row : list pyval) : Prop :=
  exists id, getitem (rowdict COLS row) "person_id" = Ret id.

(** The lookup string the delete loop of the users router builds for a
    stored item. *)
Definition compstring (item : record) : string :=
  (str (Users.attr item "local_username") ++ str (Users.attr item "resource_name"))%string.

(** The stored items the delete loop of the users router visits. *)
Definition items_of (cur : Users.nested) : list (key * record) :=
  flat_map (fun p => map snd (snd p)) cur.

(** [self.cur] holds an item under resource [rk] and user [uk]. *)
Definition holds (cur : Users.nested) (rk uk : key) : bool :=
  match Dict.get key_eqb rk cur with
  | Some users => Dict.mem key_eqb uk users
  | None => false
  end.

(** The two keys under which [self.cur] files a stored item. *)
Definition filed (item : key * record) (rk uk : key) : bool :=
  key_eqb rk (KStr (str (Users.attr (snd item) "resource_name")))
  && key_eqb uk (KStr (str (Users.attr (snd item) "local_username"))).

(** A destination of the users router that holds one item, of a user
    the source does not list. *)
Module Destination.

Definition ranger : record :=
  [("person_id", VInt 9); ("portal_login", VStr "old"); ("resource_id", VInt 4);
   ("resource_name", VStr "ranger"); ("local_username", VStr "oo");
   ("ResourceID", VStr "ranger.org")].

Definition filled : world := mkWorld [(KInt 1, ranger)] (mkStats 0 0 0).

(** The source map with the user of [Sample.jdoe], and with the user
    of [ranger] as well. *)
Definition listed : Dict.t key record :=
  [(KStr "jdstampede", rowdict Sample.usermap_cols Sample.jdoe)].

Definition both : Dict.t key record :=
  listed ++ [(KStr "ooranger",
              rowdict Sample.usermap_cols
                      [VInt 9; VStr "old"; VInt 4; VStr "ranger"; VStr "oo"])].

End Destination.

(** The key [Retrieve_Usermap] files a row dict under. *)
Definition usermap_key (rd : record) (k : key) : Prop :=
  exists u r, getitem rd "username" = Ret u /\
              getitem rd "resource_name" = Ret r /\
              k = KStr (str u ++ str r).
(* ================================================================== *)
(** ** Facts about dictionaries *)
(* ================================================================== *)

Section DictFacts.
Variables K V : Type.
Variable eqb : K -> K -> bool.
Hypothesis eqb_spec : forall a b, reflect (a = b) (eqb a b).


Lemma get_set (k k' : K) (v : V) (d : Dict.t K V) :
  Dict.get eqb k (Dict.set eqb k' v d) = if eqb k k' then Some v else Dict.get eqb k d.
Proof.
  induction d as [|[k0 v0] d IH]; simpl.
  - reflexivity.
  - destruct (eqb_spec k' k0) as [->|Hn]; simpl.
    + destruct (eqb k k0); reflexivity.
    + rewrite IH. destruct (eqb_spec k k0) as [->|Hn'].
      * destruct (eqb_spec k0 k'); congruence.
      * reflexivity.
Qed.

Lemma get_remove (k k' : K) (d : Dict.t K V) :
  Dict.get eqb k (Dict.remove eqb k' d) = if eqb k k' then None else Dict.get eqb k d.
Proof.
  induction d as [|[k0 v0] d IH]; simpl.
  - destruct (eqb k k'); reflexivity.
  - destruct (eqb_spec k' k0) as [->|Hn]; simpl.
    + rewrite IH. destruct (eqb_spec k k0); reflexivity.
    + rewrite IH. destruct (eqb_spec k k0) as [->|Hn'].
      * destruct (eqb_spec k0 k'); congruence.
      * reflexivity.
Qed.

Lemma in_keys_get (k : K) (d : Dict.t K V) :
  In k (Dict.keys d) <-> Dict.get eqb k d <> None.
Proof.
  induction d as [|[k0 v0] d IH]; simpl.
  - split; [tauto | congruence].
  - destruct (eqb_spec k k0) as [->|Hn].
    + split; [congruence | auto].
    + rewrite <- IH. split; [intros [H|H]; congruence || auto | auto].
Qed.


Lemma get_in (k : K) (v : V) (d : Dict.t K V) :
  Dict.get eqb k d = Some v -> In (k, v) d.
Proof.
  induction d as [|[k0 v0] d IH]; simpl; [congruence|].
  destruct (eqb_spec k k0) as [->|Hn]; intros H.
  - left. congruence.
  - right. auto.
Qed.


Lemma keys_set (k k' : K) (v : V) (d : Dict.t K V) :
  In k (Dict.keys (Dict.set eqb k' v d)) <-> k = k' \/ In k (Dict.keys d).
Proof.
  rewrite !in_keys_get, get_set.
  destruct (eqb_spec k k'); split; try congruence; auto.
  intros [H|H]; congruence.
Qed.

Lemma NoDup_set (k : K) (v : V) (d : Dict.t K V) :
  NoDup (Dict.keys d) -> NoDup (Dict.keys (Dict.set eqb k v d)).
Proof.
  induction d as [|[k0 v0] d IH]; simpl; intros Hnd.
  - constructor; [simpl; tauto | constructor].
  - inversion Hnd; subst.
    destruct (eqb_spec k k0) as [->|Hn]; simpl.
    + assumption.
    + constructor; [|auto].
      intros Hin. apply keys_set in Hin. destruct Hin; congruence.
Qed.


Lemma set_fresh (k : K) (v : V) (d : Dict.t K V) :
  ~ In k (Dict.keys d) -> Dict.set eqb k v d = d ++ [(k, v)].
Proof.
  induction d as [|[k0 v0] d IH]; simpl; intros Hn; [reflexivity|].
  destruct (eqb_spec k k0) as [->|Hne]; [tauto|].
  rewrite IH; tauto.
Qed.

Lemma fold_set_NoDup (l acc : Dict.t K V) :
  NoDup (Dict.keys (acc ++ l)) ->
  fold_left (fun d kv => Dict.set eqb (fst kv) (snd kv) d) l acc = acc ++ l.
Proof.
  revert acc. induction l as [|[k v] l IH]; intros acc Hnd; simpl.
  - now rewrite app_nil_r.
  - assert (Hfresh : ~ In k (Dict.keys acc)).
    { unfold Dict.keys in *. rewrite map_app in Hnd. simpl in Hnd.
      apply NoDup_remove_2 in Hnd. intros H. apply Hnd. apply in_or_app. now left. }
    rewrite set_fresh by assumption.
    rewrite IH; rewrite <- app_assoc; simpl; [reflexivity | assumption].
Qed.

(** A dict rebuilt from its own items is itself. *)
Lemma of_list_NoDup (l : Dict.t K V) :
  NoDup (Dict.keys l) -> Dict.of_list eqb l = l.
Proof. intros H. unfold Dict.of_list. now rewrite fold_set_NoDup. Qed.

Lemma NoDup_of_list_acc (l acc : Dict.t K V) :
  NoDup (Dict.keys acc) ->
  NoDup (Dict.keys (fold_left (fun d kv => Dict.set eqb (fst kv) (snd kv) d) l acc)).
Proof.
  revert acc. induction l as [|[k v] l IH]; intros acc H; simpl; [assumption|].
  apply IH. now apply NoDup_set.
Qed.

Lemma NoDup_of_list (l : list (K * V)) : NoDup (Dict.keys (Dict.of_list eqb l)).
Proof. apply NoDup_of_list_acc. constructor. Qed.
End DictFacts.

Lemma key_eqb_spec (a b : key) : reflect (a = b) (key_eqb a b).
Proof.
  destruct a, b; simpl; try (constructor; congruence).
  - destruct (Z.eqb_spec z z0); constructor; congruence.
  - destruct (String.eqb_spec s s0); constructor; congruence.
Qed.

(* ================================================================== *)
(** ** The order of field names and the sorted form of a record *)
(* ================================================================== *)

Section StringOrder.

Lemma ascii_compare_trans (a b c : ascii) (r : comparison) :
  Ascii.compare a b = r -> Ascii.compare b c = r -> Ascii.compare a c = r.
Proof.
  unfold Ascii.compare. intros H1 H2. destruct r.
  - apply N.compare_eq_iff in H1, H2. apply N.compare_eq_iff. congruence.
  - rewrite N.compare_lt_iff in *. lia.
  - rewrite N.compare_gt_iff in *. lia.
Qed.

Lemma ascii_compare_eq (a b : ascii) : Ascii.compare a b = Eq -> a = b.
Proof. apply Ascii.compare_eq_iff. Qed.

Lemma leb_trans (a b c : string) :
  String.leb a b = true -> String.leb b c = true -> String.leb a c = true.
Proof.
  unfold String.leb. revert b c.
  induction a as [|x a IH]; intros [|y b] [|z c]; simpl; try congruence.
  destruct (Ascii.compare x y) eqn:Hxy; destruct (Ascii.compare y z) eqn:Hyz;
    try congruence.
  - apply ascii_compare_eq in Hxy, Hyz. subst.
    replace (Ascii.compare z z) with Eq
      by (symmetry; unfold Ascii.compare; apply N.compare_refl).
    apply IH.
  - apply ascii_compare_eq in Hxy. subst. now rewrite Hyz.
  - apply ascii_compare_eq in Hyz. subst. now rewrite Hxy.
  - now rewrite (ascii_compare_trans _ _ _ Hxy Hyz).
Qed.

End StringOrder.

Section Sorted.

Ltac insert_steps :=
  repeat (simpl; unfold item_leb;
          repeat match goal with
            | H : String.leb ?a ?b = _ |- context [String.leb ?a ?b] => rewrite H
            end).

Lemma insert_comm (x y : string * pyval) (s : record) :
  fst x <> fst y -> insert x (insert y s) = insert y (insert x s).
Proof.
  intros Hne.
  assert (Hcases : (String.leb (fst x) (fst y) = true /\ String.leb (fst y) (fst x) = false)
                   \/ (String.leb (fst x) (fst y) = false /\ String.leb (fst y) (fst x) = true)).
  { destruct (String.leb (fst y) (fst x)) eqn:Hyx;
      destruct (String.leb (fst x) (fst y)) eqn:Hxy; auto.
    - exfalso. apply Hne. now apply String.leb_antisym.
    - destruct (String.leb_total (fst x) (fst y)); congruence. }
  induction s as [|z s IH].
  - destruct Hcases as [[Hxy Hyx]|[Hxy Hyx]]; insert_steps; reflexivity.
  - destruct (String.leb (fst z) (fst y)) eqn:Hzy;
      destruct (String.leb (fst z) (fst x)) eqn:Hzx.
    + insert_steps. now rewrite IH.
    + assert (Hxy : String.leb (fst x) (fst y) = true).
      { destruct (String.leb_total (fst x) (fst z)) as [H|H]; [|congruence].
        exact (leb_trans _ _ _ H Hzy). }
      insert_steps. reflexivity.
    + assert (Hyx : String.leb (fst y) (fst x) = true).
      { destruct (String.leb_total (fst y) (fst z)) as [H|H]; [|congruence].
        exact (leb_trans _ _ _ H Hzx). }
      insert_steps. reflexivity.
    + destruct Hcases as [[Hxy Hyx]|[Hxy Hyx]]; insert_steps; reflexivity.
Qed.

(** Two dicts with the same items have the same sorted form. *)
Lemma sorted_perm (r r' : record) :
  NoDup (Dict.keys r) -> Permutation r r' -> sorted r = sorted r'.
Proof.
  intros Hnd Hp. induction Hp as [|x l l' Hp IH|x y l|l l' l'' Hp1 IH1 Hp2 IH2].
  - reflexivity.
  - simpl. rewrite IH; [reflexivity|]. now inversion Hnd.
  - simpl. apply insert_comm. inversion Hnd as [|? ? Hin _]. subst.
    intros Heq. apply Hin. simpl. left. congruence.
  - rewrite IH1 by assumption. apply IH2.
    unfold Dict.keys in *.
    eapply Permutation_NoDup; [apply Permutation_map; exact Hp1 | assumption].
Qed.

End Sorted.

Lemma normalize_keys (r : record) : Dict.keys (Fos.normalize r) = Dict.keys r.
Proof.
  unfold Fos.normalize, Dict.keys. rewrite map_map. reflexivity.
Qed.

(** C4.  Digest computation is order-independent: two records with the
    same fields, inserted in different orders, have the same content
    digest, on the source side and on the destination side. *)
Theorem digest_insertion_order_independent (r r' : record) :
  NoDup (Dict.keys r) -> Permutation r r' ->
  digest r = digest r' /\ Fos.item_digest r = Fos.item_digest r'.
Proof.
  intros Hnd Hp. split.
  - unfold digest, strdict. now rewrite (sorted_perm Hnd Hp).
  - unfold Fos.item_digest, digest, strdict.
    rewrite (@sorted_perm (Fos.normalize r) (Fos.normalize r')); [reflexivity| |].
    + now rewrite normalize_keys.
    + unfold Fos.normalize. now apply Permutation_map.
Qed.

Lemma digest_insertion_order_witness :
  digest [("name", VStr "X"); ("dept", VNone); ("id", VInt 7)]
  = digest [("id", VInt 7); ("name", VStr "X"); ("dept", VNone)]
  /\ Fos.item_digest [("name", VStr "X"); ("dept", VNone); ("id", VInt 7)]
     = Fos.item_digest [("id", VInt 7); ("name", VStr "X"); ("dept", VNone)].
Proof.
  apply digest_insertion_order_independent.
  - repeat constructor; simpl; intuition discriminate.
  - apply Permutation_sym.
    apply (@Permutation_cons_app _ [("name", VStr "X"); ("dept", VNone)]
             [("name", VStr "X"); ("dept", VNone)] [] ("id", VInt 7)).
    rewrite app_nil_r. apply Permutation_refl.
Defined.

(* ================================================================== *)
(** ** Normalisation of "no value" *)
(* ================================================================== *)

Section Normalisation.

Lemma set_same (k : string) (v : pyval) (d : record) :
  Dict.get String.eqb k d = Some v -> Dict.set String.eqb k v d = d.
Proof.
  induction d as [|[k0 v0] d IH]; simpl; [congruence|].
  destruct (String.eqb_spec k k0) as [->|Hn]; intros H.
  - congruence.
  - now rewrite IH.
Qed.

Lemma set_set (k : string) (v v' : pyval) (d : record) :
  Dict.set String.eqb k v (Dict.set String.eqb k v' d) = Dict.set String.eqb k v d.
Proof.
  induction d as [|[k0 v0] d IH]; simpl.
  - now rewrite String.eqb_refl.
  - destruct (String.eqb k k0) eqn:E; simpl; rewrite E; [reflexivity|].
    now rewrite IH.
Qed.

Lemma normalize_null (v : pyval) :
  null_like v -> (if is_none_str v then VNone else v) = VNone.
Proof. intros [->|H]; [reflexivity | now rewrite H]. Qed.

Lemma normalize_same_up_to_null (x y : record) :
  same_up_to_null x y -> Fos.normalize x = Fos.normalize y.
Proof.
  induction 1 as [|[k v] [k' v'] x y [Hk Hv] _ IH]; simpl in *; [reflexivity|].
  subst k'. rewrite IH. f_equal. f_equal.
  destruct Hv as [->|[Hv Hv']]; [reflexivity|].
  now rewrite !normalize_null.
Qed.

Lemma getitem_set_other (k k' : string) (v : pyval) (d : record) :
  String.eqb k k' = false ->
  getitem (Dict.set String.eqb k' v d) k = getitem d k.
Proof.
  intros H. unfold getitem. rewrite (get_set _ String.eqb_spec), H. reflexivity.
Qed.

Lemma getitem_set_same (k : string) (v : pyval) (d : record) :
  getitem (Dict.set String.eqb k v d) k = Ret v.
Proof.
  unfold getitem. rewrite (get_set _ String.eqb_spec), String.eqb_refl. reflexivity.
Qed.

(** What [Retrieve_Source] stores for a row whose [fos_nsf_abbrev] is
    a spelling of "no value". *)
Lemma retrieve_row_null (rd : record) (id v : pyval) :
  getitem rd "field_of_science_id" = Ret id ->
  getitem rd "fos_nsf_abbrev" = Ret v ->
  null_like v ->
  Fos.retrieve_row rd
  = Ret (key_of id, Dict.set String.eqb "fos_nsf_abbrev" VNone rd).
Proof.
  intros Hid Hna Hv. unfold Fos.retrieve_row. rewrite Hid, Hna. simpl.
  destruct Hv as [->|Hv].
  - simpl. rewrite set_same; [reflexivity|].
    unfold getitem in Hna. destruct (Dict.get String.eqb "fos_nsf_abbrev" rd); congruence.
  - now rewrite Hv.
Qed.

End Normalisation.

(** C5 (as the code has it).  [None] and the word [none] in any letter
    case are one value for the digest: in every field of a destination
    item, and in the field [fos_nsf_abbrev] of a source row. *)
Theorem none_spellings_same_digest (x y rd : record) (id v v' : pyval) :
  same_up_to_null x y ->
  getitem rd "field_of_science_id" = Ret id ->
  getitem rd "fos_nsf_abbrev" = Ret v ->
  null_like v -> null_like v' ->
  Fos.item_digest x = Fos.item_digest y /\
  exists r r',
    Fos.retrieve_row rd = Ret (key_of id, r) /\
    Fos.retrieve_row (Dict.set String.eqb "fos_nsf_abbrev" v' rd) = Ret (key_of id, r') /\
    digest r = digest r'.
Proof.
  intros Hxy Hid Hna Hv Hv'. split.
  - unfold Fos.item_digest. now rewrite (normalize_same_up_to_null Hxy).
  - exists (Dict.set String.eqb "fos_nsf_abbrev" VNone rd),
           (Dict.set String.eqb "fos_nsf_abbrev" VNone rd).
    split; [now apply retrieve_row_null with (v := v)|]. split; [|reflexivity].
    rewrite (@retrieve_row_null _ id v').
    + now rewrite set_set.
    + rewrite getitem_set_other; [assumption | reflexivity].
    + apply getitem_set_same.
    + assumption.
Qed.

Lemma none_spellings_witness :
  Fos.item_digest [("name", VStr "X"); ("dept", VStr "NONE")]
  = Fos.item_digest [("name", VStr "X"); ("dept", VNone)] /\
  exists r r',
    Fos.retrieve_row [("field_of_science_id", VInt 1); ("fos_nsf_abbrev", VStr "none")]
    = Ret (key_of (VInt 1), r) /\
    Fos.retrieve_row
      (Dict.set String.eqb "fos_nsf_abbrev" (VStr "NoNe")
         [("field_of_science_id", VInt 1); ("fos_nsf_abbrev", VStr "none")])
    = Ret (key_of (VInt 1), r') /\
    digest r = digest r'.
Proof.
  apply (@none_spellings_same_digest
           [("name", VStr "X"); ("dept", VStr "NONE")]
           [("name", VStr "X"); ("dept", VNone)]
           [("field_of_science_id", VInt 1); ("fos_nsf_abbrev", VStr "none")]
           (VInt 1) (VStr "none") (VStr "NoNe")).
  - constructor; [split; [reflexivity | left; reflexivity]|].
    constructor; [|constructor].
    split; [reflexivity | right; split; [right | left]; reflexivity].
  - reflexivity.
  - reflexivity.
  - right. reflexivity.
  - right. reflexivity.
Defined.


Lemma bytes_eqb_false (x y : list Z) : bytes_eqb x y = false -> x <> y.
Proof. unfold bytes_eqb. destruct (list_eq_dec Z.eq_dec x y); congruence. Qed.

(** The empty string is not a spelling of "no value" for the digest,
    and at the source the word [none] is one only in [fos_nsf_abbrev]. *)
Lemma empty_string_digest_differs :
  Fos.item_digest [("name", VStr "X"); ("dept", VStr EmptyString)]
  <> Fos.item_digest [("name", VStr "X"); ("dept", VNone)]
  /\ match Fos.retrieve_row [("field_of_science_id", VInt 1);
                             ("field_of_science_desc", VStr "none");
                             ("fos_nsf_abbrev", VStr "PHY")],
           Fos.retrieve_row [("field_of_science_id", VInt 1);
                             ("field_of_science_desc", VNone);
                             ("fos_nsf_abbrev", VStr "PHY")] with
     | Ret (_, r1), Ret (_, r2) => digest r1 <> digest r2
     | _, _ => False
     end.
Proof.
  split.
  - apply bytes_eqb_false. vm_compute. reflexivity.
  - simpl. apply bytes_eqb_false. vm_compute. reflexivity.
Qed.

(* ================================================================== *)
(** ** The rounds of the store loops *)
(* ================================================================== *)

Section Monad.

Lemma bind_inv A B (m : M A) (f : A -> M B) w o w' l :
  bind m f w = (o, w', l) ->
  (exists x w1 l1 l2, m w = (Ret x, w1, l1) /\ f x w1 = (o, w', l2) /\ l = l1 ++ l2)
  \/ (exists x, m w = (Raise x, w', l) /\ o = Raise x)
  \/ (exists rc, m w = (Exit rc, w', l) /\ o = Exit rc).
Proof.
  unfold bind. destruct (m w) as [[[x|x|rc] w1] l1].
  - destruct (f x w1) as [[o2 w2] l2] eqn:E. intros H. inversion H; subst.
    left. exists x, w1, l1, l2. auto.
  - intros H. inversion H; subst. right. left. eauto.
  - intros H. inversion H; subst. right. right. eauto.
Qed.

Lemma bind_ret A B (m : M A) (f : A -> M B) w x w1 l1 :
  m w = (Ret x, w1, l1) ->
  bind m f w = (let '(o, w2, l2) := f x w1 in (o, w2, l1 ++ l2)).
Proof. unfold bind. now intros ->. Qed.

End Monad.

Lemma fos_kwargs_id (nitem kw : record) :
  fos_kwargs nitem = Ret kw ->
  exists id dflt, getitem nitem "field_of_science_id" = Ret id /\
                  Fos.defaults Fos.default_fields nitem = Ret dflt /\
                  kw = ("field_of_science_id", id) :: dflt.
Proof.
  unfold fos_kwargs.
  destruct (getitem nitem "field_of_science_id") as [id| |]; cbn [obind]; try discriminate.
  destruct (Fos.defaults Fos.default_fields nitem) as [dflt| |]; cbn [obind]; try discriminate.
  intros H. inversion H. exists id, dflt. auto.
Qed.

Lemma getitem_cases (r : record) (k : string) :
  (exists v, getitem r k = Ret v) \/ getitem r k = Raise KeyError.
Proof. unfold getitem. destruct (Dict.get String.eqb k r); eauto. Qed.

Lemma defaults_cases (fs : list (string * bool)) (nitem : record) :
  (exists d, Fos.defaults fs nitem = Ret d) \/ Fos.defaults fs nitem = Raise KeyError.
Proof.
  induction fs as [|[f wrap] fs IH]; cbn [Fos.defaults].
  - left. eauto.
  - destruct (getitem_cases nitem f) as [[v ->]| ->]; cbn [obind]; [|now right].
    destruct IH as [[d ->]| ->]; cbn [obind]; [left; eauto | now right].
Qed.

Lemma store_item_step orm e cd new_id nitem w o w' l :
  Fos.store_item orm e cd new_id nitem w = (o, w', l) ->
  store_step orm e cd new_id nitem w o w' l.
Proof.
  unfold Fos.store_item.
  destruct (Fos.same_digest nitem (Dict.get key_eqb new_id cd)) eqn:Hd.
  - cbv [bind count_skip ret]. cbn [app]. intros H. inversion H; subst.
    now apply step_skip.
  - unfold try_catch, Fos.save_item, Fos.save_failed, db_save.
    cbv [bind lift emit raise ret count_update get_db put_db converted].
    destruct (getitem_cases nitem "field_of_science_id") as [[id Hid]|Hid]; rewrite Hid.
    2: { cbn [caught]. intros H; inversion H; subst; apply step_abort; auto; congruence. }
    destruct (defaults_cases Fos.default_fields nitem) as [[dflt Hdf]|Hdf]; rewrite Hdf.
    2: { cbn [caught]. intros H; inversion H; subst; apply step_abort; auto; congruence. }
    assert (Hkw : fos_kwargs nitem = Ret (("field_of_science_id", id) :: dflt)).
    { unfold fos_kwargs. now rewrite Hid, Hdf. }
    destruct (save_error e (key_of id) (("field_of_science_id", id) :: dflt)) as [x|] eqn:Hse.
    + cbn [app]. destruct (caught x) eqn:Hc.
      * cbn [app]. intros H. inversion H; subst. eapply step_fail; eauto.
      * intros H. inversion H; subst. apply step_abort; eauto; congruence.
    + destruct (to_row orm (("field_of_science_id", id) :: dflt)) as [row|] eqn:Hrow.
      * cbn [app]. intros H. inversion H; subst. eapply step_save; eauto.
      * cbn [app caught]. intros H. inversion H; subst.
        apply step_abort; eauto; congruence.
Qed.

Lemma delete_item_step e new_items cur_id w o w' l :
  Fos.delete_item e new_items cur_id w = (o, w', l) ->
  delete_step e new_items cur_id w o w' l.
Proof.
  unfold Fos.delete_item.
  destruct (Dict.mem key_eqb cur_id new_items) eqn:Hm; simpl.
  - cbv [ret]. intros H. inversion H; subst. now apply del_keep.
  - unfold try_catch, db_delete.
    cbv [bind lift emit raise ret count_delete get_db put_db].
    destruct (delete_error e cur_id) as [x|] eqn:Hde; simpl.
    + destruct (caught x) eqn:Hc; intros H; inversion H; subst.
      * now apply del_fail.
      * now apply del_abort.
    + intros H. inversion H; subst. now apply del_done.
Qed.

(* ================================================================== *)
(** ** The source map of the fields-of-science router *)
(* ================================================================== *)

Section SourceMap.

Lemma in_set (k k0 : key) (v v0 : record) (d : Dict.t key record) :
  In (k, v) (Dict.set key_eqb k0 v0 d) -> (k, v) = (k0, v0) \/ In (k, v) d.
Proof.
  induction d as [|[k1 v1] d IH]; simpl.
  - intros [H|[]]. left. congruence.
  - destruct (key_eqb_spec k0 k1) as [->|Hn]; simpl.
    + intros [H|H]; [left; congruence | right; now right].
    + intros [H|H]; [right; now left|].
      destruct (IH H); [now left | right; now right].
Qed.

Lemma retrieve_row_keyed (rd : record) (k : key) (r : record) :
  Fos.retrieve_row rd = Ret (k, r) ->
  k = key_of (Users.attr rd "field_of_science_id") /\
  exists v, getitem r "field_of_science_id" = Ret v /\ key_of v = k.
Proof.
  unfold Fos.retrieve_row, Users.attr.
  destruct (getitem_cases rd "field_of_science_id") as [[id Hid]|Hid]; rewrite Hid;
    cbn [obind]; [|discriminate].
  destruct (getitem_cases rd "fos_nsf_abbrev") as [[na Hna]|Hna]; rewrite Hna;
    cbn [obind]; [|discriminate].
  intros H. inversion H; subst. split.
  - unfold getitem in Hid.
    destruct (Dict.get String.eqb "field_of_science_id" rd); congruence.
  - exists id. split; [|reflexivity].
    destruct (is_none_str na); [|assumption].
    rewrite getitem_set_other; [assumption | reflexivity].
Qed.

Lemma retrieve_rows_acc (COLS : list string) (rows : list (list pyval))
      (DATA S : Dict.t key record) :
  Fos.retrieve_rows COLS rows DATA = Ret S ->
  keyed_by_id DATA -> NoDup (Dict.keys DATA) ->
  keyed_by_id S /\ NoDup (Dict.keys S) /\
  forall k, In k (Dict.keys S) <-> In k (Dict.keys DATA) \/ In k (source_ids COLS rows).
Proof.
  revert DATA. induction rows as [|row rows IH]; intros DATA; cbn [Fos.retrieve_rows].
  - intros H Hk Hnd. inversion H; subst. repeat split; auto.
    + intros [?|[]]; assumption.
  - destruct (Fos.retrieve_row (rowdict COLS row)) as [[k r]| |] eqn:Hrow;
      cbn [obind]; try discriminate.
    cbn [fst snd]. intros H Hk Hnd.
    destruct (retrieve_row_keyed _ Hrow) as [Hkey Hid].
    apply IH in H.
    + destruct H as (H1 & H2 & H3). repeat split; auto.
      * intros Hin. apply H3 in Hin. destruct Hin as [Hin|Hin].
        -- apply (keys_set _ key_eqb_spec) in Hin. destruct Hin as [->|Hin]; [|now left].
           right. left. symmetry. exact Hkey.
        -- right. now right.
      * intros Hin. apply H3. destruct Hin as [Hin|[Hin|Hin]].
        -- left. apply (keys_set _ key_eqb_spec). now right.
        -- left. apply (keys_set _ key_eqb_spec). left. rewrite <- Hin. symmetry. exact Hkey.
        -- now right.
    + intros k' r' Hin. apply in_set in Hin. destruct Hin as [Heq|Hin]; [|eauto].
      inversion Heq; subst. exact Hid.
    + now apply (NoDup_set _ key_eqb_spec).
Qed.

Lemma retrieve_rows_ok (COLS : list string) (rows : list (list pyval))
      (S : Dict.t key record) :
  Fos.retrieve_rows COLS rows [] = Ret S ->
  keyed_by_id S /\ NoDup (Dict.keys S) /\
  forall k, In k (Dict.keys S) <-> In k (source_ids COLS rows).
Proof.
  intros H. apply retrieve_rows_acc in H.
  - destruct H as (H1 & H2 & H3). repeat split; auto.
    + intros Hin. apply H3 in Hin. destruct Hin as [[]|]; assumption.
    + intros Hin. apply H3. now right.
  - intros k r [].
  - constructor.
Qed.

End SourceMap.

(* ================================================================== *)
(** ** The store step of the fields-of-science router *)
(* ================================================================== *)

Section FosStore.

Variable orm : ORM.
Variable e : env.

Ltac not_ret :=
  match goal with
  | H : forall r, Ret _ <> Ret r |- _ => exfalso; eapply H; reflexivity
  end.












End FosStore.

(* ================================================================== *)
(** ** Traces of the fields-of-science router *)
(* ================================================================== *)

Section FosTrace.

Variable orm : ORM.
Variable e : env.

Ltac not_ret :=
  match goal with
  | H : forall r, Ret _ <> Ret r |- _ => exfalso; eapply H; reflexivity
  end.

Lemma forallb_weaken (P Q : event -> bool) (l : list event) :
  (forall ev, P ev = true -> Q ev = true) ->
  forallb P l = true -> forallb Q l = true.
Proof.
  intros HPQ. rewrite !forallb_forall. auto.
Qed.

Lemma forallb_none (P Q : event -> bool) (l : list event) :
  (forall ev, P ev = true -> Q ev = false) ->
  forallb P l = true -> existsb Q l = false.
Proof.
  intros HPQ H. induction l as [|ev l IH]; simpl in *; [reflexivity|].
  apply andb_true_iff in H. destruct H as [H1 H2].
  rewrite (HPQ _ H1), IH; auto.
Qed.

Lemma write_is_store (ev : event) : is_write ev = true -> is_store_event ev = true.
Proof. destruct ev; simpl; congruence. Qed.

Lemma delete_is_store (ev : event) : is_delete_event ev = true -> is_store_event ev = true.
Proof. destruct ev as [| | | | |[]|]; simpl; congruence. Qed.


Lemma store_not_finish (ev : event) : is_store_event ev = true -> is_finish ev = false.
Proof. destruct ev as [| | | | |[]|]; simpl; congruence. Qed.

Lemma store_not_close (ev : event) : is_store_event ev = true -> is_close ev = false.
Proof. destruct ev as [| | | | |[]|]; simpl; congruence. Qed.

Lemma save_loop_trace (cd : Dict.t key (list Z)) (items : Dict.t key record) :
  forall w o w' l,
    Fos.save_loop orm e cd items w = (o, w', l) ->
    match o with
    | Ret (Some n) =>
        exists l0 x id kw,
          n = Saving x id /\ caught x = true /\
          l = l0 ++ [EWrite id kw; ELogError (Saving x id)] /\
          forallb is_write l0 = true
    | _ => forallb is_write l = true
    end.
Proof.
  induction items as [|[k0 r0] items IH]; intros w o w' l; cbn [Fos.save_loop].
  - cbv [ret]. intros H. inversion H; subst. reflexivity.
  - intros H. apply bind_inv in H.
    destruct H as [(x & w1 & l1 & l2 & Hstep & Hrest & ->)
                  |[(x & Hstep & ->)|(rc & Hstep & ->)]];
      apply store_item_step in Hstep.
    + destruct x as [msg|].
      * cbv [ret] in Hrest. inversion Hrest; subst. rewrite app_nil_r.
        inversion Hstep; subst; [|not_ret].
        exists [], x, (key_of id), kw. auto.
      * apply IH in Hrest.
        assert (Hl1 : forallb is_write l1 = true).
        { inversion Hstep; subst; [reflexivity|reflexivity|not_ret]. }
        destruct o as [[n|]| |].
        -- destruct Hrest as (l0 & x & id & kw & -> & Hc & -> & Hl0).
           exists (l1 ++ l0), x, id, kw. repeat split; auto.
           ++ now rewrite app_assoc.
           ++ rewrite forallb_app, Hl1, Hl0. reflexivity.
        -- rewrite forallb_app, Hl1, Hrest. reflexivity.
        -- rewrite forallb_app, Hl1, Hrest. reflexivity.
        -- rewrite forallb_app, Hl1, Hrest. reflexivity.
    + inversion Hstep; subst.
      match goal with H : _ \/ _ |- _ => destruct H as [->|(? & ? & _ & ->)] end; reflexivity.
    + inversion Hstep; subst.
      match goal with H : _ \/ _ |- _ => destruct H as [->|(? & ? & _ & ->)] end; reflexivity.
Qed.

Lemma delete_loop_trace (new_items : Dict.t key record) (cur : list (key * record)) :
  forall w o w' l,
    Fos.delete_loop e new_items cur w = (o, w', l) ->
    forallb is_delete_event l = true.
Proof.
  induction cur as [|[k0 r0] cur IH]; intros w o w' l; cbn [Fos.delete_loop].
  - cbv [ret]. intros H. inversion H; subst. reflexivity.
  - intros H. apply bind_inv in H.
    destruct H as [(x & w1 & l1 & l2 & Hstep & Hrest & ->)
                  |[(x & Hstep & ->)|(rc & Hstep & ->)]];
      apply delete_item_step in Hstep.
    + apply IH in Hrest. rewrite forallb_app, Hrest.
      inversion Hstep; subst; reflexivity.
    + inversion Hstep; subst; reflexivity.
    + inversion Hstep.
Qed.

Lemma Store_Destination_trace (S : Dict.t key record) (w : world) o w' l :
  Fos.Store_Destination orm e S w = (o, w', l) -> store_trace o l.
Proof.
  unfold Fos.Store_Destination. cbv [get_db]. intros H.
  apply bind_inv in H.
  destruct H as [(t & w0 & l0 & l0' & Ht & H & ->)|[(x & Hx & _)|(rc & Hx & _)]];
    try discriminate.
  inversion Ht; subst; clear Ht. cbn [app].
  apply bind_inv in H.
  destruct H as [(x & w1 & l1 & l2 & Hsave & H & ->)
                |[(x & Hsave & ->)|(rc & Hsave & ->)]];
    apply save_loop_trace in Hsave.
  - destruct x as [msg|].
    + cbv [ret] in H. inversion H; subst. rewrite app_nil_r.
      destruct Hsave as (l0 & x & id & kw & -> & Hc & -> & Hl0).
      exists l0, x, id, kw. auto.
    + apply bind_inv in H.
      destruct H as [(u & w2 & l3 & l4 & Hdel & H & ->)
                    |[(x & Hdel & ->)|(rc & Hdel & ->)]];
        apply delete_loop_trace in Hdel.
      * cbv [ret] in H. inversion H; subst. rewrite app_nil_r. split; [reflexivity|].
        rewrite forallb_app.
        rewrite (forallb_weaken _ _ _ write_is_store Hsave).
        now rewrite (forallb_weaken _ _ _ delete_is_store Hdel).
      * simpl. rewrite forallb_app.
        rewrite (forallb_weaken _ _ _ write_is_store Hsave).
        now rewrite (forallb_weaken _ _ _ delete_is_store Hdel).
      * simpl. rewrite forallb_app.
        rewrite (forallb_weaken _ _ _ write_is_store Hsave).
        now rewrite (forallb_weaken _ _ _ delete_is_store Hdel).
  - simpl. now apply (forallb_weaken _ _ _ write_is_store).
  - simpl. now apply (forallb_weaken _ _ _ write_is_store).
Qed.

Lemma Run_shape (w : world) o w' l :
  Fos.Run orm e w = (o, w', l) -> run_shape orm e w o w' l.
Proof.
  unfold Fos.Run, Fos.Connect_Source, Fos.Disconnect_Source, Fos.Retrieve_Source.
  intros H.
  apply bind_inv in H.
  destruct H as [(u0 & w0 & l0 & l0' & H0 & H & ->)|[(x & Hx & _)|(rc & Hx & _)]];
    try discriminate.
  cbv [put_stats] in H0. inversion H0; subst; clear H0. cbn [app].
  fold (reset w) in H.
  apply bind_inv in H.
  destruct H as [(u1 & w1 & l1 & l1' & H1 & H & ->)|[(x & Hx & _)|(rc & Hx & _)]];
    try discriminate.
  cbv [emit] in H1. inversion H1; subst; clear H1.
  apply bind_inv in H.
  destruct H as [(u2 & w2 & l2 & l2' & H2 & H & ->)|[(x & H2 & ->)|(rc & H2 & ->)]].
  2: { cbv [bind lift emit] in H2. destruct (connect e) as [[]|y|rc'] eqn:Hc;
       inversion H2; subst. apply run_connect_fails. left. eauto. }
  2: { cbv [bind lift emit] in H2. destruct (connect e) as [[]|y|rc'] eqn:Hc;
       inversion H2; subst. apply run_connect_fails. right. eauto. }
  cbv [bind lift emit] in H2. destruct (connect e) as [[]|y|rc'] eqn:Hc;
    inversion H2; subst; clear H2. cbn [app].
  apply bind_inv in H.
  destruct (query e Fos.sql) as [|COLS rows] eqn:Hq.
  { destruct H as [(u3 & w3 & l3 & l3' & H3 & _)|[(x & H3 & _)|(rc & H3 & ->)]];
      cbv [bind emit exit_] in H3; inversion H3; subst.
    now apply run_query_fails. }
  cbv [lift] in H.
  destruct H as [(S & w3 & l3 & l3' & H3 & H & ->)|[(x & H3 & ->)|(rc & H3 & ->)]];
    inversion H3; subst; clear H3.
  2: { eapply run_rows_fail; eauto. left. eauto. }
  2: { eapply run_rows_fail; eauto. right. eauto. }
  cbn [app]. apply bind_inv in H.
  destruct H as [(r & w4 & l4 & l4' & H4 & H & ->)|[(x & H4 & ->)|(rc & H4 & ->)]].
  2: { eapply run_store_fails; eauto. left. eauto. }
  2: { eapply run_store_fails; eauto. right. eauto. }
  cbv [bind emit get_stats] in H. inversion H; subst; clear H. cbn [app].
  eapply run_store_returns; eauto.
Qed.

End FosTrace.

(* ================================================================== *)
(** ** Properties of a run of the fields-of-science router *)
(* ================================================================== *)

Section TraceFacts.



Lemma failed_not_ret A B (o : outcome A) (x : B) : ~ failed o (Ret x).
Proof. intros [(y & _ & H)|(rc & _ & H)]; discriminate. Qed.

Lemma store_trace_plain (o : outcome (bool * option note)) (l : list event) :
  store_trace o l ->
  existsb is_finish l = false /\ existsb is_close l = false /\
  existsb is_connect l = false /\
  (existsb is_saving l = true <-> exists msg, o = Ret (false, msg)).
Proof.
  assert (Hstore : forall l', forallb is_store_event l' = true ->
            existsb is_finish l' = false /\ existsb is_close l' = false /\
            existsb is_connect l' = false /\ existsb is_saving l' = false).
  { intros l' H. repeat split; eapply forallb_none; try exact H;
      intros [| | | | |[]|]; simpl; congruence. }
  destruct o as [[[|] msg]|x|rc]; simpl.
  - intros [_ H]. destruct (Hstore _ H) as (H1 & H2 & H3 & H4).
    repeat split; auto; try congruence.
    intros [m Hm]. discriminate.
  - intros (l0 & x & id & kw & -> & Hc & -> & Hl0).
    assert (H := forallb_weaken _ _ _ write_is_store Hl0).
    destruct (Hstore _ H) as (H1 & H2 & H3 & H4).
    rewrite !existsb_app, H1, H2, H3, H4. simpl. repeat split; eauto.
  - intros H. destruct (Hstore _ H) as (H1 & H2 & H3 & H4).
    repeat split; auto; try congruence.
    intros [m Hm]. discriminate.
  - intros H. destruct (Hstore _ H) as (H1 & H2 & H3 & H4).
    repeat split; auto; try congruence.
    intros [m Hm]. discriminate.
Qed.

End TraceFacts.






(** C7 (as the code has it).  A run that returns emits exactly one
    finish report, as its last effect, and the report carries the
    failure flag exactly when a save failure was logged; a run that ends
    by [exit] or by a propagating exception emits none. *)
Theorem finish_report_once (orm : ORM) (e : env) (w w' : world)
        (o : outcome unit) (l : list event) :
  Fos.Run orm e w = (o, w', l) ->
  (o = Ret tt /\
   exists l0 rc, l = l0 ++ [EFinish rc (STATS w')] /\
                 existsb is_finish l0 = false /\
                 (rc = false <-> existsb is_saving l0 = true))
  \/ (o <> Ret tt /\ existsb is_finish l = false).
Proof.
  intros Hrun. apply Run_shape in Hrun. inversion Hrun; subst.
  - right. split; [|reflexivity].
    intros ->. eapply failed_not_ret; eauto.
  - right. split; [discriminate | reflexivity].
  - right. split; [|reflexivity].
    intros ->. eapply failed_not_ret; eauto.
  - right. split; [intros ->; eapply failed_not_ret; eauto|].
    match goal with H : Fos.Store_Destination _ _ _ _ = _ |- _ =>
      apply Store_Destination_trace, store_trace_plain in H;
      destruct H as (Hf & _) end.
    rewrite existsb_app, Hf. reflexivity.
  - left. split; [reflexivity|].
    match goal with H : Fos.Store_Destination _ _ _ _ = _ |- _ =>
      apply Store_Destination_trace in H; rename H into Hst end.
    assert (Hp := store_trace_plain _ _ Hst). destruct Hp as (Hf & _ & _ & Hs).
    exists ([EActivity; EConnect] ++ l0 ++ [EClose]), (fst r). repeat split.
    + rewrite <- !app_assoc. reflexivity.
    + rewrite !existsb_app, Hf. reflexivity.
    + intros Hrc. rewrite !existsb_app. cbn [existsb is_saving orb].
      rewrite orb_false_r. apply Hs. destruct r as [[|] msg]; [discriminate|].
      eauto.
    + rewrite !existsb_app. cbn [existsb is_saving orb]. rewrite orb_false_r.
      intros Hx. apply Hs in Hx. destruct Hx as [msg Hx]. inversion Hx. reflexivity.
Qed.

Lemma finish_report_once_witness :
  let r := Fos.Run Django.FieldOfScience
             (Sample.source Sample.fos_cols [Sample.physics] [KInt 1] []) Sample.empty in
  (fst (fst r) = Ret tt /\
   exists l0 rc, snd r = l0 ++ [EFinish rc (STATS (snd (fst r)))] /\
                 existsb is_finish l0 = false /\
                 (rc = false <-> existsb is_saving l0 = true))
  \/ (fst (fst r) <> Ret tt /\ existsb is_finish (snd r) = false).
Proof.
  intros r.
  apply (@finish_report_once Django.FieldOfScience
           (Sample.source Sample.fos_cols [Sample.physics] [KInt 1] []) Sample.empty).
  vm_compute. reflexivity.
Defined.

(** A query error during retrieval ends the process with status 1
    before any finish report: the error is logged and nothing is
    reported to the run tracker. *)
Lemma query_error_bypasses_report :
  Fos.Run Django.FieldOfScience Sample.broken Sample.empty
  = (Exit 1, Sample.empty,
     [EActivity; EConnect; ELogError (Failed Fos.sql)])
  /\ existsb is_finish (snd (Fos.Run Django.FieldOfScience Sample.broken Sample.empty))
     = false
  /\ fst (fst (Fos.main Django.FieldOfScience Sample.broken Sample.empty)) = 1.
Proof. repeat split. Qed.

(** C8 (as the code has it).  The cursor opened by [Connect_Source] is
    closed exactly when the run returns: after retrieval and the store
    step have returned, also when the store step reports a failed save;
    on an [exit] or a propagating exception it is left open. *)
Theorem cursor_closed_iff_run_returns (orm : ORM) (e : env) (w w' : world)
        (o : outcome unit) (l : list event) :
  Fos.Run orm e w = (o, w', l) ->
  existsb is_connect l = true ->
  (existsb is_close l = true <-> o = Ret tt).
Proof.
  intros Hrun. apply Run_shape in Hrun. inversion Hrun; subst; intros Hc.
  - discriminate.
  - split; discriminate.
  - split; [discriminate|]. intros ->. exfalso. eapply failed_not_ret; eauto.
  - match goal with H : Fos.Store_Destination _ _ _ _ = _ |- _ =>
      apply Store_Destination_trace, store_trace_plain in H;
      destruct H as (_ & Hcl & _) end.
    rewrite existsb_app, Hcl. split; [discriminate|].
    intros ->. exfalso. eapply failed_not_ret; eauto.
  - split; [reflexivity|]. intros _.
    rewrite !existsb_app. cbn [existsb is_close]. rewrite orb_true_r.
    apply orb_true_r.
Qed.

Lemma cursor_closed_witness :
  let r := Fos.Run Django.FieldOfScience
             (Sample.source Sample.fos_cols [Sample.physics] [KInt 1] []) Sample.empty in
  existsb is_close (snd r) = true <-> fst (fst r) = Ret tt.
Proof.
  intros r.
  apply (@cursor_closed_iff_run_returns Django.FieldOfScience
           (Sample.source Sample.fos_cols [Sample.physics] [KInt 1] []) Sample.empty
           (snd (fst r)) (fst (fst r)) (snd r)).
  - vm_compute. reflexivity.
  - vm_compute. reflexivity.
Defined.

(** After a query error the run has ended and the cursor it opened was
    never closed. *)
Lemma query_error_leaves_cursor_open :
  let r := Fos.Run Django.FieldOfScience Sample.broken Sample.empty in
  fst (fst r) = Exit 1 /\
  existsb is_connect (snd r) = true /\
  existsb is_close (snd r) = false.
Proof. repeat split. Qed.

(* ================================================================== *)
(** ** Records that need no write *)
(* ================================================================== *)

Section Untouched.

Variable orm : ORM.
Variable e : env.

Lemma touches_write (k id : key) (kw : record) :
  touches k (EWrite id kw) = true -> k = id.
Proof. simpl. destruct (key_eqb_spec k id); congruence. Qed.

Lemma touches_remove (k id : key) :
  touches k (ERemove id) = true -> k = id.
Proof. simpl. destruct (key_eqb_spec k id); congruence. Qed.





End Untouched.




(* ================================================================== *)
(** ** Two runs in a row *)
(* ================================================================== *)

Section SecondRun.

Variable orm : ORM.
Variable e : env.




End SecondRun.




(* ================================================================== *)
(** ** The source map of the persons router *)
(* ================================================================== *)

Section PersonsSource.

Variables (A_DATA : Dict.t key (list record)) (C_DATA E_DATA : Dict.t key pyval).
Variable COLS : list string.

Lemma person_rows_app (r1 r2 : list (list pyval)) :
  forall D0,
    Persons.person_rows A_DATA C_DATA E_DATA COLS (r1 ++ r2) D0
    = (D1 <~ Persons.person_rows A_DATA C_DATA E_DATA COLS r1 D0 ;;
       Persons.person_rows A_DATA C_DATA E_DATA COLS r2 D1).
Proof.
  induction r1 as [|row r1 IH]; intros D0; cbn [app Persons.person_rows obind].
  - reflexivity.
  - destruct (getitem (rowdict COLS row) "person_id"); cbn [obind]; auto.
Qed.



(** The three literal keys hold what the last person row put there. *)
Lemma person_rows_last (rows : list (list pyval)) (last : list pyval) D0 DATA :
  Persons.person_rows A_DATA C_DATA E_DATA COLS (rows ++ [last]) D0 = Ret DATA ->
  exists id,
    getitem (rowdict COLS last) "person_id" = Ret id /\
    Dict.get key_eqb (KStr "addresses") DATA
    = Some (Persons.addresses_of A_DATA (key_of id)) /\
    Dict.get key_eqb (KStr "citizenships") DATA
    = Some (Persons.joined_of C_DATA (key_of id)) /\
    Dict.get key_eqb (KStr "emails") DATA
    = Some (Persons.joined_of E_DATA (key_of id)).
Proof.
  rewrite person_rows_app.
  destruct (Persons.person_rows A_DATA C_DATA E_DATA COLS rows D0) as [D1| |];
    cbn [obind]; try discriminate.
  cbn [Persons.person_rows].
  destruct (getitem (rowdict COLS last) "person_id") as [id| |]; cbn [obind];
    try discriminate.
  intros H. inversion H; subst. exists id. split; [reflexivity|].
  rewrite !(get_set _ key_eqb_spec). cbn. auto.
Qed.

Lemma fold_set_keys (l acc : record) (f : string) :
  In f (Dict.keys (fold_left (fun d kv => Dict.set String.eqb (fst kv) (snd kv) d) l acc)) ->
  In f (Dict.keys acc) \/ In f (map fst l).
Proof.
  revert acc. induction l as [|[k v] l IH]; intros acc; simpl; [auto|].
  intros H. apply IH in H. destruct H as [H|H]; [|auto].
  apply (keys_set _ String.eqb_spec) in H. destruct H as [->|H]; auto.
Qed.

(** A row dict has no field beyond the columns of its view. *)
Lemma rowdict_absent (row : list pyval) (f : string) :
  ~ In f COLS -> Dict.get String.eqb f (rowdict COLS row) = None.
Proof.
  intros Hn. destruct (Dict.get String.eqb f (rowdict COLS row)) eqn:Hg; [|reflexivity].
  exfalso. apply Hn.
  assert (Hin : In f (Dict.keys (rowdict COLS row))).
  { apply (in_keys_get _ String.eqb_spec). congruence. }
  apply fold_set_keys in Hin. destruct Hin as [[]|Hin].
  apply in_map_iff in Hin. destruct Hin as ([k v] & <- & Hin).
  eapply in_combine_l; eauto.
Qed.

End PersonsSource.

Section PersonsRetrieve.

Variable e : env.

Lemma execute_ret (sql : string) (w w' : world) (l : list event)
      (p : list string * list (list pyval)) :
  Persons.execute e sql w = (Ret p, w', l) ->
  query e sql = QRows (fst p) (snd p) /\ w' = w /\ l = [].
Proof.
  unfold Persons.execute. destruct (query e sql) as [|COLS rows].
  - cbv [bind emit exit_]. discriminate.
  - cbv [ret]. intros H. inversion H; subst. auto.
Qed.

Lemma lift_ret A (o : outcome A) (w w' : world) (l : list event) (x : A) :
  lift o w = (Ret x, w', l) -> o = Ret x /\ w' = w /\ l = [].
Proof. cbv [lift]. intros H. inversion H; subst. auto. Qed.

(** The map [Retrieve_Source] returns is the one its last loop builds
    from the three aggregates and the person view. *)
Lemma Retrieve_Source_ret (w w' : world) (l : list event) (DATA : Dict.t key Persons.obj) :
  Persons.Retrieve_Source e w = (Ret DATA, w', l) ->
  exists A_DATA C_DATA E_DATA COLS rows,
    aggregates e A_DATA C_DATA E_DATA /\
    query e Persons.sql_person = QRows COLS rows /\
    Persons.person_rows A_DATA C_DATA E_DATA COLS rows [] = Ret DATA.
Proof.
  unfold Persons.Retrieve_Source. intros H.
  repeat match goal with
    | H : bind _ _ _ = (Ret _, _, _) |- _ =>
        apply bind_inv in H;
        destruct H as [(? & ? & ? & ? & ? & H & ?)|[(? & _ & ?)|(? & _ & ?)]];
        try discriminate
    end.
  repeat match goal with
    | H : Persons.execute _ _ _ = (Ret _, _, _) |- _ =>
        apply execute_ret in H; destruct H as (? & ? & ?)
    | H : lift _ _ = (Ret _, _, _) |- _ =>
        apply lift_ret in H; destruct H as (? & ? & ?)
    end.
  subst. do 5 eexists. repeat split; eauto.
Qed.

End PersonsRetrieve.



(* ================================================================== *)
(** ** The store step of the persons router *)
(* ================================================================== *)

Section PersonsStore.

Variable orm : ORM.
Variable e : env.

Lemma subscript_cases (o : Persons.obj) (k : string) :
  (exists v, Persons.subscript o k = Ret v)
  \/ Persons.subscript o k = Raise KeyError
  \/ Persons.subscript o k = Raise TypeError.
Proof.
  destruct o as [r|l|v]; simpl; auto.
  destruct (getitem_cases r k) as [[v Hv]|Hv]; rewrite Hv; eauto.
Qed.

Lemma kwargs_cases (fs : list (string * string * bool)) (o : Persons.obj) :
  (exists kw, Persons.kwargs fs o = Ret kw)
  \/ Persons.kwargs fs o = Raise KeyError
  \/ Persons.kwargs fs o = Raise TypeError.
Proof.
  induction fs as [|[[f col] wrap] fs IH]; cbn [Persons.kwargs].
  - left. eauto.
  - destruct (subscript_cases o col) as [[v ->]|[-> | ->]]; cbn [obind]; auto.
    destruct IH as [[kw ->]|[-> | ->]]; cbn [obind]; eauto.
Qed.

Lemma kwargs_person_id (o : Persons.obj) :
  match Persons.subscript o "person_id" with
  | Ret _ => True
  | r => Persons.kwargs Persons.person_fields o = match r with
                                                   | Raise x => Raise x
                                                   | Exit rc => Exit rc
                                                   | Ret _ => Raise KeyError
                                                   end
  end.
Proof.
  unfold Persons.person_fields. cbn [Persons.kwargs].
  destruct (Persons.subscript o "person_id"); cbn [obind]; auto.
Qed.

Lemma person_item_step (o : Persons.obj) (pid : option pyval) (w : world) out w' l :
  try_catch (Persons.save_item orm e o) (Persons.save_failed pid) w = (out, w', l) ->
  person_step orm e o pid w out w' l.
Proof.
  unfold try_catch, Persons.save_item, Persons.save_failed, db_save.
  cbv [bind lift emit raise ret count_update get_db put_db converted
       Persons.local Persons.message].
  assert (Hpid := kwargs_person_id o).
  destruct (kwargs_cases Persons.person_fields o) as [[kw Hkw]|[Hkw|Hkw]]; rewrite Hkw.
  2,3: cbn [caught]; intros H; inversion H; subst; apply person_unusable; auto.
  destruct (subscript_cases o "person_id") as [[v Hv]|[Hv|Hv]]; rewrite Hv in *;
    try congruence.
  destruct (save_error e (key_of v) kw) as [x|] eqn:Hse.
  - cbn [app]. destruct (caught x) eqn:Hc.
    + destruct pid as [p|]; cbn [app]; intros H; inversion H; subst;
        eapply person_save_raised; eauto; left; congruence.
    + intros H. inversion H; subst.
      eapply person_save_raised; eauto; left; congruence.
  - destruct (to_row orm kw) as [row|] eqn:Hrow; cbn [app caught].
    + intros H. inversion H; subst. eapply person_saved; eauto.
    + intros H. inversion H; subst. eapply person_save_raised; eauto.
Qed.

(** The save loop cannot get past an entry that takes no subscript
    ['person_id']. *)
Lemma save_loop_blocked (items : list (key * Persons.obj)) :
  (exists k o x, In (k, o) items /\ Persons.subscript o "person_id" = Raise x) ->
  forall pid w,
  exists x w' l,
    Persons.save_loop orm e items pid w = (Raise x, w', l) /\
    caught x = false /\
    (saves_accepted orm e l -> x = KeyError \/ x = TypeError).
Proof.
  induction items as [|[k0 o0] items IH]; intros (k & o & x & Hin & Hbad) pid w.
  - destruct Hin.
  - cbn [Persons.save_loop]. unfold bind.
    destruct (try_catch (Persons.save_item orm e o0) (Persons.save_failed pid) w)
      as [[out w1] l1] eqn:Hstep.
    apply person_item_step in Hstep. inversion Hstep; subst.
    + destruct Hin as [Heq|Hin]; [inversion Heq; subst; congruence|].
      cbn [fst snd].
      destruct (IH (ex_intro _ k (ex_intro _ o (ex_intro _ x (conj Hin Hbad))))
                   (Some v) (mkWorld (Dict.set key_eqb (key_of v) row (db w))
                      (mkStats (S (Update (STATS w))) (Delete (STATS w)) (Skip (STATS w)))))
        as (x' & w' & l' & Hrest & Hc & Hacc).
      rewrite Hrest. exists x', w', ([EWrite (key_of v) kw] ++ l').
      repeat split; auto.
      intros Hall. apply Hacc. intros id kw' Hin'. apply Hall. now right.
    + exists x0, w1, []. repeat split; auto.
      match goal with H : _ \/ _ |- _ => destruct H; subst; reflexivity end.
    + exists x0, w1, [EWrite (key_of v) kw]. repeat split; auto.
      intros Hall. exfalso.
      destruct (Hall (key_of v) kw (or_introl eq_refl)) as [Hs Ht].
      match goal with H : _ \/ _ |- _ => destruct H; contradiction end.
Qed.

Lemma nonempty_has_addresses A_DATA C_DATA E_DATA COLS rows DATA :
  Persons.person_rows A_DATA C_DATA E_DATA COLS rows [] = Ret DATA ->
  DATA <> [] ->
  exists o x, In (KStr "addresses", o) DATA /\
              Persons.subscript o "person_id" = Raise x.
Proof.
  intros Hrows Hne.
  destruct (exists_last (l := rows)) as (rows' & last & ->).
  { intros ->. cbn in Hrows. inversion Hrows. congruence. }
  destruct (person_rows_last _ _ _ _ _ _ _ Hrows) as (id & _ & Ha & _).
  apply (get_in _ key_eqb_spec) in Ha.
  exists (Persons.addresses_of A_DATA (key_of id)).
  unfold Persons.addresses_of in *.
  destruct (Dict.get key_eqb (key_of id) A_DATA);
    [exists TypeError | exists KeyError]; split; solve [exact Ha | reflexivity].
Qed.

Lemma person_rows_nonempty A_DATA C_DATA E_DATA COLS rows DATA :
  Persons.person_rows A_DATA C_DATA E_DATA COLS rows [] = Ret DATA ->
  rows <> [] -> DATA <> [].
Proof.
  intros Hrows Hne.
  destruct (exists_last Hne) as (rows' & last & ->).
  destruct (person_rows_last _ _ _ _ _ _ _ Hrows) as (id & _ & Ha & _).
  intros ->. discriminate.
Qed.

(** A run that returns has gone through both steps. *)
Lemma run_ret (w w' : world) (l : list event) :
  Persons.run orm e w = (Ret tt, w', l) ->
  exists w1 w2 l1 DATA w3 l3 r,
    Persons.Retrieve_Source e w1 = (Ret DATA, w2, l1) /\
    Persons.Store_Destination orm e DATA w2 = (Ret r, w3, l3).
Proof.
  unfold Persons.run. intros H.
  apply bind_inv in H.
  destruct H as [(? & ? & ? & ? & _ & H & _)|[(? & _ & ?)|(? & _ & ?)]];
    try discriminate.
  apply bind_inv in H.
  destruct H as [(? & ? & ? & ? & _ & H & _)|[(? & _ & ?)|(? & _ & ?)]];
    try discriminate.
  apply bind_inv in H.
  destruct H as [(? & ? & ? & ? & _ & H & _)|[(? & _ & ?)|(? & _ & ?)]];
    try discriminate.
  apply bind_inv in H.
  destruct H as [(? & ? & ? & ? & _ & H & _)|[(? & _ & ?)|(? & _ & ?)]];
    try discriminate.
  apply bind_inv in H.
  destruct H as [(DATA & w2 & l1 & ? & Hr & H & _)|[(? & _ & ?)|(? & _ & ?)]];
    try discriminate.
  apply bind_inv in H.
  destruct H as [(r & w3 & l3 & ? & Hs & H & _)|[(? & _ & ?)|(? & _ & ?)]];
    try discriminate.
  eauto 10.
Qed.

End PersonsStore.

(** C10 (as the code has it).  On every non-empty map that
    [Retrieve_Source] of the persons router returns, [Store_Destination]
    ends in an exception that its [except] clauses do not catch, so it
    never returns: the exception is [KeyError] or [TypeError] when every
    save it issued was accepted, and otherwise the one that the
    refused save or its handler raises. *)
Theorem persons_store_never_returns (orm : ORM) (e : env) (w0 w0' : world)
        (l0 : list event) (DATA : Dict.t key Persons.obj) (w : world) :
  Persons.Retrieve_Source e w0 = (Ret DATA, w0', l0) ->
  DATA <> [] ->
  (exists x w' l,
      Persons.Store_Destination orm e DATA w = (Raise x, w', l) /\
      caught x = false /\
      (saves_accepted orm e l -> x = KeyError \/ x = TypeError)) /\
  (forall wr wr' lr, Persons.run orm e wr <> (Ret tt, wr', lr)).
Proof.
  intros Hret Hne. apply Retrieve_Source_ret in Hret.
  destruct Hret as (A & C & E & COLS & rows & _ & Hq & Hrows).
  assert (Hstore : forall DATA' w1,
             DATA' <> [] ->
             (exists A' C' E' COLS' rows',
                 Persons.person_rows A' C' E' COLS' rows' [] = Ret DATA') ->
             exists x w' l,
               Persons.Store_Destination orm e DATA' w1 = (Raise x, w', l) /\
               caught x = false /\
               (saves_accepted orm e l -> x = KeyError \/ x = TypeError)).
  { intros DATA' w1 Hne' (A' & C' & E' & COLS' & rows' & Hrows').
    destruct (nonempty_has_addresses _ _ _ _ _ Hrows' Hne') as (o & x & Hin & Hbad).
    destruct (@save_loop_blocked orm e DATA'
                (ex_intro _ _ (ex_intro _ o (ex_intro _ x (conj Hin Hbad)))) None w1)
      as (x' & w' & l & Hloop & Hc & Hacc).
    exists x', w', l. split; [|auto].
    unfold Persons.Store_Destination. cbv [bind get_db]. rewrite Hloop. reflexivity. }
  split.
  - apply Hstore; [assumption|]. do 5 eexists. exact Hrows.
  - intros wr wr' lr Hrun. apply run_ret in Hrun.
    destruct Hrun as (w1 & w2 & l1 & DATA' & w3 & l3 & r & Hret' & Hst).
    apply Retrieve_Source_ret in Hret'.
    destruct Hret' as (A' & C' & E' & COLS' & rows' & _ & Hq' & Hrows').
    rewrite Hq in Hq'. inversion Hq'; subst COLS' rows'; clear Hq'.
    assert (Hne' : DATA' <> []).
    { eapply person_rows_nonempty; [exact Hrows'|].
      intros ->. cbn in Hrows. inversion Hrows. congruence. }
    destruct (Hstore DATA' w2 Hne') as (x & w' & l & Hraise & _).
    { do 5 eexists. exact Hrows'. }
    congruence.
Qed.

Lemma persons_store_never_returns_witness :
  let e := Sample.persons_source Sample.person_cols [Sample.ada; Sample.bob] [] in
  (exists x w' l,
      Persons.Store_Destination Django.plain e (Sample.persons_map e) Sample.empty
      = (Raise x, w', l) /\
      caught x = false /\
      (saves_accepted Django.plain e l -> x = KeyError \/ x = TypeError)) /\
  (forall wr wr' lr, Persons.run Django.plain e wr <> (Ret tt, wr', lr)).
Proof.
  intros e.
  apply (@persons_store_never_returns Django.plain e Sample.empty Sample.empty []).
  - vm_compute. reflexivity.
  - vm_compute. discriminate.
Defined.

(** When the destination refuses the first save with [DataError], the
    handler reads the local [person_id] before it is bound: the step
    ends in [UnboundLocalError], which is neither [KeyError] nor
    [TypeError]. *)
Lemma persons_store_unbound_local :
  let e := Sample.persons_source Sample.wide_cols [Sample.wide_ada] [KInt 7] in
  Sample.persons_map e <> [] /\
  fst (fst (Persons.Store_Destination Django.plain e (Sample.persons_map e) Sample.empty))
  = Raise UnboundLocalError.
Proof. split; [vm_compute; discriminate | vm_compute; reflexivity]. Qed.

(* ================================================================== *)
(** ** Start-up: the URL checks *)
(* ================================================================== *)

Section StringFacts.

Import Startup.

Lemma upto_from (n : nat) (s : string) : (upto n s ++ from n s)%string = s.
Proof.
  revert s. induction n as [|n IH]; intros [|c r]; simpl; try reflexivity.
  now rewrite IH.
Qed.

Lemma upto_app (a b : string) : upto (String.length a) (a ++ b) = a.
Proof. induction a as [|c a IH]; simpl; [now destruct b | now rewrite IH]. Qed.

Lemma from_app (a b : string) : from (String.length a) (a ++ b) = b.
Proof. induction a as [|c a IH]; simpl; [now destruct b | exact IH]. Qed.

Lemma from_app_S (a b : string) (c : ascii) :
  from (S (String.length a)) (a ++ String c b) = b.
Proof. induction a as [|d a IH]; simpl; [now destruct b | exact IH]. Qed.

Lemma index_of_app (c : ascii) (a b : string) :
  index_of c a = None -> index_of c (a ++ String c b) = Some (String.length a).
Proof.
  induction a as [|d a IH]; simpl.
  - now rewrite Ascii.eqb_refl.
  - destruct (Ascii.eqb c d); [discriminate|].
    destruct (index_of c a); [discriminate|]. intros _. now rewrite IH.
Qed.

Lemma index_of_split (c : ascii) (s : string) (n : nat) :
  index_of c s = Some n ->
  s = (upto n s ++ String c (from (S n) s))%string /\ index_of c (upto n s) = None.
Proof.
  revert n. induction s as [|d s IH]; simpl; intros n; [discriminate|].
  destruct (Ascii.eqb_spec c d) as [->|Hn].
  - intros H. inversion H; subst. simpl. auto.
  - destruct (index_of c s) as [m|]; [|discriminate].
    intros H. inversion H; subst. destruct (IH m eq_refl) as [Hs Hi]. split.
    + change (String d s = String d (upto m s ++ String c (from (S m) s))%string).
      now rewrite <- Hs.
    + change (index_of c (String d (upto m s)) = None). cbn [index_of].
      destruct (Ascii.eqb_spec c d); [contradiction|]. now rewrite Hi.
Qed.

Lemma index_of_app_none (c : ascii) (a b : string) :
  index_of c a = None -> index_of c b = None -> index_of c (a ++ b) = None.
Proof.
  induction a as [|d a IH]; simpl; [auto|].
  destruct (Ascii.eqb c d); [discriminate|].
  destruct (index_of c a); [discriminate|]. intros _ Hb. now rewrite IH.
Qed.

Lemma find_positive (c : ascii) (s : string) :
  0 < find c s ->
  exists n, index_of c s = Some (S n) /\ Z.to_nat (find c s) = S n /\
            Z.to_nat (find c s + 1) = S (S n).
Proof.
  unfold find. destruct (index_of c s) as [[|n]|]; try lia.
  intros _. exists n. repeat split; lia.
Qed.

Lemma length_nonempty (s : string) :
  (Z.of_nat (String.length s) <? 1) = false <-> s <> EmptyString.
Proof.
  destruct s; simpl; split; try congruence; try lia.
  - intros _. apply Z.ltb_ge. lia.
Qed.

End StringFacts.

Section SetupFacts.

Import Startup.

Lemma member_In (x : string) (names : list string) :
  member x names = true <-> In x names.
Proof.
  unfold member. rewrite existsb_exists. split.
  - intros (y & Hin & Heq). apply String.eqb_eq in Heq. now subst.
  - intros Hin. exists x. split; [assumption | apply String.eqb_refl].
Qed.

(** With a colon at a positive index the text is scheme, colon, path. *)
Lemma split_scheme_some (s scheme path : string) :
  split_scheme s = (scheme, Some path) ->
  s = (scheme ++ String colon path)%string /\ index_of colon scheme = None.
Proof.
  unfold split_scheme. destruct (0 <? find colon s) eqn:Hpos; [|discriminate].
  apply Z.ltb_lt in Hpos.
  destruct (find_positive _ _ Hpos) as (n & Hidx & -> & ->).
  intros H.
  assert (H1 : upto (S n) s = scheme) by congruence.
  assert (H2 : from (S (S n)) s = path) by congruence.
  rewrite <- H1, <- H2. now apply index_of_split.
Qed.

Lemma split_scheme_none (s scheme : string) :
  split_scheme s = (scheme, None) -> scheme = s.
Proof.
  unfold split_scheme. destruct (0 <? find colon s); [discriminate|].
  intros H. now inversion H.
Qed.

Lemma split_scheme_prefix (scheme path : string) :
  scheme <> EmptyString -> index_of colon scheme = None ->
  split_scheme (scheme ++ String colon path) = (scheme, Some path).
Proof.
  intros Hne Hnone. unfold split_scheme, find.
  rewrite (index_of_app _ _ path Hnone).
  destruct scheme as [|c r]; [congruence|]. cbn [String.length].
  replace (0 <? Z.of_nat (S (String.length r))) with true
    by (symmetry; apply Z.ltb_lt; lia).
  replace (Z.to_nat (Z.of_nat (S (String.length r)) + 1))
    with (S (String.length (String c r))) by (cbn [String.length]; lia).
  rewrite Nat2Z.id.
  change (S (String.length r)) with (String.length (String c r)).
  now rewrite upto_app, from_app_S.
Qed.

Lemma Setup_source_done (src scheme path : string) :
  Setup_source src = Done (scheme, path) ->
  path <> EmptyString /\
  ((scheme = "file" /\ src = ("file:" ++ path)%string)
   \/ (In scheme ["http"; "https"; "postgresql"] /\
       src = (scheme ++ "://" ++ path)%string)).
Proof.
  unfold Setup_source. destruct (split_scheme src) as [sch [p|]] eqn:Hsp.
  - apply split_scheme_some in Hsp. destruct Hsp as [-> _].
    destruct (member sch ["file"; "http"; "https"; "postgresql"]) eqn:Hm1;
      cbn [negb]; [|discriminate].
    destruct (member sch ["http"; "https"; "postgresql"]) eqn:Hm2.
    + destruct (String.eqb_spec (upto 2 p) "//") as [Hsl|Hsl]; cbn [negb rbind];
        [|discriminate].
      destruct (Z.of_nat (String.length (from 2 p)) <? 1) eqn:Hlen; [discriminate|].
      intros H. inversion H; subst. split; [now apply length_nonempty|].
      right. split; [now apply member_In|].
      rewrite <- (upto_from 2 p) at 1. rewrite Hsl. reflexivity.
    + cbn [rbind].
      destruct (Z.of_nat (String.length p) <? 1) eqn:Hlen; [discriminate|].
      intros H. inversion H; subst. split; [now apply length_nonempty|].
      assert (Hf : scheme = "file").
      { apply member_In in Hm1. destruct Hm1 as [<-|Hm1]; [reflexivity|].
        apply member_In in Hm1. congruence. }
      subst scheme. left. split; reflexivity.
  - destruct (member sch ["file"; "http"; "https"; "postgresql"]); cbn [negb];
      [|discriminate].
    destruct (member sch ["http"; "https"; "postgresql"]); cbn [rbind]; discriminate.
Qed.

End SetupFacts.

(** X1.  The source check of [Setup] lets a [postgresql] source through
    exactly when it is [postgresql://] followed by a non-empty text;
    that text becomes the source path. *)
Theorem Setup_source_postgresql (src path : string) :
  Startup.Setup_source src = Startup.Done ("postgresql", path)
  <-> path <> EmptyString /\ src = ("postgresql://" ++ path)%string.
Proof.
  split.
  - intros H. apply Setup_source_done in H.
    destruct H as [Hne [[Hf _]|[_ Hs]]]; [discriminate | auto].
  - intros [Hne ->]. unfold Startup.Setup_source.
    change ("postgresql://" ++ path)%string
      with ("postgresql" ++ String Startup.colon ("//" ++ path))%string.
    rewrite split_scheme_prefix by (try discriminate; reflexivity).
    cbn. apply length_nonempty in Hne. now rewrite Hne.
Qed.



(** X3.  The source check of [Setup] ends in an exception exactly for
    the four scheme names given without a colon: the path is then
    [None], and slicing it or taking its length raises [TypeError]. *)
Theorem Setup_source_crash (src : string) (x : exn) :
  Startup.Setup_source src = Startup.Crashed x
  <-> x = TypeError /\ In src ["file"; "http"; "https"; "postgresql"].
Proof.
  split.
  - unfold Startup.Setup_source.
    destruct (Startup.split_scheme src) as [sch [p|]] eqn:Hsp.
    + destruct (Startup.member sch ["file"; "http"; "https"; "postgresql"]);
        cbn [negb]; [|discriminate].
      destruct (Startup.member sch ["http"; "https"; "postgresql"]).
      * destruct (String.eqb (Startup.upto 2 p) "//"); cbn [negb Startup.rbind];
          [|discriminate].
        destruct (Z.of_nat (String.length (Startup.from 2 p)) <? 1); discriminate.
      * cbn [Startup.rbind].
        destruct (Z.of_nat (String.length p) <? 1); discriminate.
    + apply split_scheme_none in Hsp. subst sch.
      destruct (Startup.member src ["file"; "http"; "https"; "postgresql"]) eqn:Hm;
        cbn [negb]; [|discriminate].
      apply member_In in Hm.
      destruct (Startup.member src ["http"; "https"; "postgresql"]);
        cbn [Startup.rbind]; intros H; inversion H; auto.
  - intros [-> [<-|[<-|[<-|[<-|[]]]]]]; reflexivity.
Qed.

Section ConnectFacts.

Import Startup.

Lemma append_assoc' (a b c : string) : ((a ++ b) ++ c)%string = (a ++ (b ++ c))%string.
Proof. induction a as [|x a IH]; simpl; [reflexivity | now rewrite IH]. Qed.

Lemma append_length (a b : string) :
  String.length (a ++ b) = (String.length a + String.length b)%nat.
Proof. induction a as [|x a IH]; simpl; [reflexivity | now rewrite IH]. Qed.

(** Cutting a text at the first occurrence of a character. *)
Lemma cut (c : ascii) (a b : string) :
  index_of c a = None ->
  find c (a ++ String c b) = Z.of_nat (String.length a) /\
  upto (Z.to_nat (find c (a ++ String c b))) (a ++ String c b) = a /\
  from (Z.to_nat (find c (a ++ String c b) + 1)) (a ++ String c b) = b.
Proof.
  intros Hnone. unfold find. rewrite (index_of_app _ _ b Hnone).
  split; [reflexivity|]. rewrite Nat2Z.id.
  replace (Z.to_nat (Z.of_nat (String.length a) + 1)) with (S (String.length a)) by lia.
  split; [apply upto_app | apply from_app_S].
Qed.

(** What [Connect_Source] does once the scheme and the two slashes
    are read. *)
Lemma Connect_Source_parts_obj (obj : string) :
  Connect_Source_parts ("postgresql://" ++ obj)
  = if find slash obj <=? 0 then Exit 1
    else
      let host := upto (Z.to_nat (find slash obj)) obj in
      let path := from (Z.to_nat (find slash obj + 1)) obj in
      if 0 <? find colon host
      then Ret (upto (Z.to_nat (find colon host)) host,
                from (Z.to_nat (find colon host + 1)) host, path)
      else Ret (host, "5432", path).
Proof.
  unfold Connect_Source_parts.
  change ("postgresql://" ++ obj)%string
    with ("postgresql" ++ String colon ("//" ++ obj))%string.
  destruct (cut colon "postgresql" ("//" ++ obj) eq_refl) as (-> & -> & ->).
  reflexivity.
Qed.

End ConnectFacts.

(** X4.  [Connect_Source] reads host, port and database name back from
    a URL [postgresql://host:port/name]: the host is the text up to the
    first colon, the port the text up to the first slash, the name the
    rest, and they are put into the connection string in this order. *)
Theorem Connect_Source_host_port (host port name user password : string) :
  host <> EmptyString ->
  Startup.index_of Startup.colon host = None ->
  Startup.index_of Startup.slash host = None ->
  Startup.index_of Startup.slash port = None ->
  let url := ("postgresql://" ++ host ++ ":" ++ port ++ "/" ++ name)%string in
  Startup.Connect_Source_parts url = Ret (host, port, name) /\
  Startup.Connect_Source_string url user password
  = Ret ("host='" ++ host ++ "' port='" ++ port ++ "' dbname='" ++ name
         ++ "' user='" ++ user ++ "' password='" ++ password ++ "'")%string.
Proof.
  intros Hne Hc Hs Hp url.
  assert (Hparts : Startup.Connect_Source_parts url = Ret (host, port, name)).
  { unfold url. rewrite Connect_Source_parts_obj.
    change (host ++ ":" ++ port ++ "/" ++ name)%string
      with (host ++ (String Startup.colon port ++ String Startup.slash name))%string.
    rewrite <- append_assoc'.
    assert (Hnone : Startup.index_of Startup.slash (host ++ String Startup.colon port) = None).
    { apply index_of_app_none; [assumption|]. cbn [Startup.index_of].
      change (Ascii.eqb Startup.slash Startup.colon) with false. cbv iota.
      now rewrite Hp. }
    destruct (cut Startup.slash _ name Hnone) as (Hi & Hu & Hf).
    rewrite Hu, Hf, Hi. cbv zeta.
    replace (Z.of_nat (String.length (host ++ String Startup.colon port)) <=? 0) with false.
    2: { symmetry. apply Z.leb_gt. rewrite append_length. destruct host; [congruence|].
         cbn [String.length]. lia. }
    destruct (cut Startup.colon host port Hc) as (Hi' & Hu' & Hf').
    rewrite Hu', Hf', Hi'.
    replace (0 <? Z.of_nat (String.length host)) with true.
    2: { symmetry. apply Z.ltb_lt. destruct host; [congruence|]. cbn [String.length]. lia. }
    reflexivity. }
  split; [exact Hparts|].
  unfold Startup.Connect_Source_string. rewrite Hparts. reflexivity.
Qed.

Lemma Connect_Source_host_port_witness :
  Startup.Connect_Source_parts "postgresql://db.example.org:6432/warehouse"
  = Ret ("db.example.org", "6432", "warehouse") /\
  Startup.Connect_Source_string "postgresql://db.example.org:6432/warehouse" "info" "secret"
  = Ret "host='db.example.org' port='6432' dbname='warehouse' user='info' password='secret'".
Proof.
  apply (@Connect_Source_host_port "db.example.org" "6432" "warehouse" "info" "secret");
    solve [discriminate | reflexivity].
Defined.

(** X5.  Without a port the URL [postgresql://host/name] gives port
    [5432]. *)
Theorem Connect_Source_default_port (host name : string) :
  host <> EmptyString ->
  Startup.index_of Startup.colon host = None ->
  Startup.index_of Startup.slash host = None ->
  Startup.Connect_Source_parts ("postgresql://" ++ host ++ "/" ++ name)
  = Ret (host, "5432", name).
Proof.
  intros Hne Hc Hs. rewrite Connect_Source_parts_obj.
  change (host ++ "/" ++ name)%string with (host ++ String Startup.slash name)%string.
  destruct (cut Startup.slash host name Hs) as (Hi & Hu & Hf).
  rewrite Hu, Hf, Hi. cbv zeta.
  replace (Z.of_nat (String.length host) <=? 0) with false.
  2: { symmetry. apply Z.leb_gt. destruct host; [congruence|]. cbn [String.length]. lia. }
  unfold Startup.find at 1. rewrite Hc. reflexivity.
Qed.

Lemma Connect_Source_default_port_witness :
  Startup.Connect_Source_parts ("postgresql://" ++ "localhost" ++ "/" ++ "warehouse")
  = Ret ("localhost", "5432", "warehouse").
Proof.
  apply Connect_Source_default_port; solve [discriminate | reflexivity].
Defined.

(** X6.  A source that [Setup] accepts can still be refused by
    [Connect_Source]: [Setup] asks for a non-empty text after
    [postgresql://], [Connect_Source] for a slash in it after a
    non-empty host, and exits with status 1 exactly when there is
    none. *)
Theorem Connect_Source_after_Setup (path : string) :
  Startup.Setup_source ("postgresql://" ++ path) = Startup.Done ("postgresql", path) ->
  (Startup.Connect_Source_parts ("postgresql://" ++ path) = Exit 1
   <-> Startup.find Startup.slash path <= 0).
Proof.
  intros _. rewrite Connect_Source_parts_obj.
  destruct (Startup.find Startup.slash path <=? 0) eqn:Hle.
  - apply Z.leb_le in Hle. tauto.
  - apply Z.leb_gt in Hle. cbv zeta.
    destruct (0 <? Startup.find Startup.colon _); split; try discriminate; lia.
Qed.

Lemma Connect_Source_after_Setup_witness :
  Startup.Connect_Source_parts ("postgresql://" ++ "warehouse") = Exit 1
  <-> Startup.find Startup.slash "warehouse" <= 0.
Proof.
  apply Connect_Source_after_Setup. reflexivity.
Defined.

(* ================================================================== *)
(** ** More on the source map of the fields-of-science router *)
(* ================================================================== *)

Section RetrieveFacts.

Lemma retrieve_rows_get (COLS : list string) (rows : list (list pyval)) (k : key) :
  forall DATA S,
    Fos.retrieve_rows COLS rows DATA = Ret S ->
    Dict.get key_eqb k S
    = fold_left (fun acc row =>
                   match Fos.retrieve_row (rowdict COLS row) with
                   | Ret (k', r) => if key_eqb k k' then Some r else acc
                   | _ => acc
                   end) rows (Dict.get key_eqb k DATA).
Proof.
  induction rows as [|row rows IH]; intros DATA S; cbn [Fos.retrieve_rows fold_left].
  - intros H. now inversion H.
  - destruct (Fos.retrieve_row (rowdict COLS row)) as [[k' r]| |]; cbn [obind];
      try discriminate.
    intros H. rewrite (IH _ _ H). cbn [fst snd].
    now rewrite (get_set _ key_eqb_spec).
Qed.

Lemma retrieve_row_abbrev (rd r : record) (k : key) :
  Fos.retrieve_row rd = Ret (k, r) ->
  exists v, getitem r "fos_nsf_abbrev" = Ret v /\ is_none_str v = false.
Proof.
  unfold Fos.retrieve_row.
  destruct (getitem rd "field_of_science_id") as [id| |]; cbn [obind]; try discriminate.
  destruct (getitem rd "fos_nsf_abbrev") as [na| |] eqn:Hna; cbn [obind];
    try discriminate.
  intros H. inversion H; subst.
  destruct (is_none_str na) eqn:Hn.
  - exists VNone. split; [apply getitem_set_same | reflexivity].
  - exists na. auto.
Qed.

Lemma retrieve_rows_abbrev (COLS : list string) (rows : list (list pyval)) :
  forall DATA S,
    Fos.retrieve_rows COLS rows DATA = Ret S ->
    (forall k r, In (k, r) DATA ->
                 exists v, getitem r "fos_nsf_abbrev" = Ret v /\ is_none_str v = false) ->
    forall k r, In (k, r) S ->
                exists v, getitem r "fos_nsf_abbrev" = Ret v /\ is_none_str v = false.
Proof.
  induction rows as [|row rows IH]; intros DATA S; cbn [Fos.retrieve_rows].
  - intros H. inversion H; subst. auto.
  - destruct (Fos.retrieve_row (rowdict COLS row)) as [[k' r']| |] eqn:Hrow;
      cbn [obind]; try discriminate.
    intros H Hall. apply (IH _ _ H). cbn [fst snd].
    intros k r Hin. apply in_set in Hin. destruct Hin as [Heq|Hin]; [|eauto].
    inversion Heq; subst. eapply retrieve_row_abbrev; eauto.
Qed.

Lemma Fos_Retrieve_Source_rows (e : env) (w w' : world) (l : list event)
      (COLS : list string) (rows : list (list pyval)) (o : outcome (Dict.t key record)) :
  query e Fos.sql = QRows COLS rows ->
  Fos.Retrieve_Source e w = (o, w', l) ->
  o = Fos.retrieve_rows COLS rows [] /\ w' = w /\ l = [].
Proof.
  unfold Fos.Retrieve_Source. intros ->. cbv [lift]. intros H. inversion H. auto.
Qed.

End RetrieveFacts.

(** X7.  The map [Retrieve_Source] returns has one entry per
    identifier: looking an identifier up gives the record of the last
    fetched row that carries it; the world is left as it was. *)
Theorem Retrieve_Source_last_row_wins (e : env) (w w' : world) (l : list event)
        (COLS : list string) (rows : list (list pyval)) (new_items : Dict.t key record) :
  query e Fos.sql = QRows COLS rows ->
  Fos.Retrieve_Source e w = (Ret new_items, w', l) ->
  w' = w /\ l = [] /\ NoDup (Dict.keys new_items) /\
  forall k, Dict.get key_eqb k new_items = last_record COLS rows k.
Proof.
  intros Hq Hret. destruct (Fos_Retrieve_Source_rows _ _ Hq Hret) as (Hrows & -> & ->).
  symmetry in Hrows. repeat split.
  - now destruct (retrieve_rows_ok _ _ Hrows) as (_ & Hnd & _).
  - intros k. now rewrite (retrieve_rows_get _ _ k _ Hrows).
Qed.

Lemma Retrieve_Source_last_row_wins_witness :
  let rows := [Sample.physics; Sample.unsourced] in
  let e := Sample.source Sample.fos_cols rows [] [] in
  let new_items := [(KInt 1, Sample.source_record Sample.unsourced)] in
  Sample.empty = Sample.empty /\ @nil event = [] /\ NoDup (Dict.keys new_items) /\
  forall k, Dict.get key_eqb k new_items = last_record Sample.fos_cols rows k.
Proof.
  intros rows e new_items.
  apply (@Retrieve_Source_last_row_wins e Sample.empty Sample.empty []
           Sample.fos_cols rows new_items).
  - reflexivity.
  - vm_compute. reflexivity.
Defined.

(** X8.  In every record of the map [Retrieve_Source] returns the field
    [fos_nsf_abbrev] is present and is not the word [none] in any
    letter case. *)
Theorem Retrieve_Source_abbrev_normalised (e : env) (w w' : world) (l : list event)
        (new_items : Dict.t key record) (k : key) (r : record) :
  Fos.Retrieve_Source e w = (Ret new_items, w', l) ->
  In (k, r) new_items ->
  exists v, getitem r "fos_nsf_abbrev" = Ret v /\ is_none_str v = false.
Proof.
  intros Hret Hin. unfold Fos.Retrieve_Source in Hret.
  destruct (query e Fos.sql) as [|COLS rows].
  - cbv [bind emit exit_] in Hret. discriminate.
  - cbv [lift] in Hret. inversion Hret as [[Hrows Hw Hl]].
    eapply (retrieve_rows_abbrev _ _ _ Hrows); [|exact Hin].
    intros k' r' [].
Qed.

Lemma Retrieve_Source_abbrev_normalised_witness :
  exists v, getitem (Sample.source_record Sample.geology) "fos_nsf_abbrev" = Ret v /\
            is_none_str v = false.
Proof.
  apply (@Retrieve_Source_abbrev_normalised
           (Sample.source Sample.fos_cols [Sample.geology] [] [])
           Sample.empty Sample.empty [] [(KInt 3, Sample.source_record Sample.geology)]
           (KInt 3)).
  - vm_compute. reflexivity.
  - left. reflexivity.
Defined.

(** X9.  When the view answers with at least one row but lacks the
    column [field_of_science_id] or the column [fos_nsf_abbrev],
    [Retrieve_Source] ends in [KeyError] and returns no map. *)
Theorem Retrieve_Source_missing_column (e : env) (w : world)
        (COLS : list string) (row : list pyval) (rows : list (list pyval)) :
  query e Fos.sql = QRows COLS (row :: rows) ->
  ~ In "field_of_science_id" COLS \/ ~ In "fos_nsf_abbrev" COLS ->
  Fos.Retrieve_Source e w = (Raise KeyError, w, []).
Proof.
  intros Hq Hmiss. unfold Fos.Retrieve_Source. rewrite Hq. cbv [lift].
  cbn [Fos.retrieve_rows]. unfold Fos.retrieve_row, getitem.
  destruct Hmiss as [Hm|Hm].
  - now rewrite (rowdict_absent COLS row _ Hm).
  - rewrite (rowdict_absent COLS row _ Hm).
    destruct (Dict.get String.eqb "field_of_science_id" (rowdict COLS row)); reflexivity.
Qed.

Lemma Retrieve_Source_missing_column_witness :
  Fos.Retrieve_Source
    (Sample.source ["field_of_science_id"; "field_of_science_desc"]
                   [[VInt 1; VStr "Physics"]] [] [])
    Sample.empty
  = (Raise KeyError, Sample.empty, []).
Proof.
  apply (@Retrieve_Source_missing_column _ Sample.empty
           ["field_of_science_id"; "field_of_science_desc"] [VInt 1; VStr "Physics"] []).
  - reflexivity.
  - right. simpl. intuition discriminate.
Defined.

(* ================================================================== *)
(** ** More on the store step of the fields-of-science router *)
(* ================================================================== *)

Section FosCounts.

Variable orm : ORM.
Variable e : env.

Ltac not_ret :=
  match goal with
  | H : forall r, Ret _ <> Ret r |- _ => exfalso; eapply H; reflexivity
  end.

Lemma count_app (P : event -> bool) (l1 l2 : list event) :
  count P (l1 ++ l2) = (count P l1 + count P l2)%nat.
Proof. unfold count. now rewrite filter_app, length_app. Qed.

Lemma save_loop_counts (cd : Dict.t key (list Z)) (items : Dict.t key record) :
  forall w w' l,
    Fos.save_loop orm e cd items w = (Ret None, w', l) ->
    (Update (STATS w') + Skip (STATS w')
     = Update (STATS w) + Skip (STATS w) + List.length items)%nat /\
    Update (STATS w') = (Update (STATS w) + count is_save l)%nat /\
    Delete (STATS w') = Delete (STATS w) /\
    count is_remove l = O /\ count is_deleting l = O.
Proof.
  induction items as [|[k0 r0] items IH]; intros w w' l; cbn [Fos.save_loop].
  - cbv [ret]. intros H. inversion H; subst. cbn. repeat split; lia.
  - intros H. apply bind_inv in H.
    destruct H as [(x & w1 & l1 & l2 & Hstep & Hrest & ->)|[(x & _ & Hx)|(rc & _ & Hx)]];
      try discriminate.
    destruct x as [msg|]; [cbv [ret] in Hrest; discriminate|].
    apply IH in Hrest. destruct Hrest as (H1 & H2 & H3 & H4 & H5).
    rewrite !count_app, H4, H5.
    apply store_item_step in Hstep. inversion Hstep; subst; try not_ret;
      cbn [STATS Update Delete Skip List.length] in *; cbn; repeat split; lia.
Qed.

Lemma delete_loop_counts (new_items : Dict.t key record) (cur : list (key * record)) :
  forall w w' l,
    Fos.delete_loop e new_items cur w = (Ret tt, w', l) ->
    Update (STATS w') = Update (STATS w) /\
    Skip (STATS w') = Skip (STATS w) /\
    (Delete (STATS w') + count is_deleting l
     = Delete (STATS w) + count is_remove l)%nat /\
    count is_save l = O.
Proof.
  induction cur as [|[k0 r0] cur IH]; intros w w' l; cbn [Fos.delete_loop].
  - cbv [ret]. intros H. inversion H; subst. cbn. repeat split; lia.
  - intros H. apply bind_inv in H.
    destruct H as [(x & w1 & l1 & l2 & Hstep & Hrest & ->)|[(x & _ & Hx)|(rc & _ & Hx)]];
      try discriminate.
    apply IH in Hrest. destruct Hrest as (H1 & H2 & H3 & H4).
    rewrite !count_app, H4.
    apply delete_item_step in Hstep. inversion Hstep; subst;
      cbn [STATS Update Delete Skip] in *; cbn; repeat split; lia.
Qed.

Lemma Store_Destination_counts (new_items : Dict.t key record) (w w' : world)
      (l : list event) (msg : option note) :
  Fos.Store_Destination orm e new_items w = (Ret (true, msg), w', l) ->
  (Update (STATS w') + Skip (STATS w')
   = Update (STATS w) + Skip (STATS w) + List.length new_items)%nat /\
  Update (STATS w') = (Update (STATS w) + count is_save l)%nat /\
  (Delete (STATS w') + count is_deleting l
   = Delete (STATS w) + count is_remove l)%nat.
Proof.
  unfold Fos.Store_Destination. cbv [get_db]. intros H.
  apply bind_inv in H.
  destruct H as [(t & w0 & l0 & l0' & Ht & H & ->)|[(x & Hx & _)|(rc & Hx & _)]];
    try discriminate.
  inversion Ht; subst; clear Ht. cbn [app].
  apply bind_inv in H.
  destruct H as [(x & w1 & l1 & l2 & Hsave & H & ->)|[(x & _ & Hx)|(rc & _ & Hx)]];
    try discriminate.
  destruct x as [m|]; [cbv [ret] in H; discriminate|].
  apply bind_inv in H.
  destruct H as [(u & w2 & l3 & l4 & Hdel & H & ->)|[(x & _ & Hx)|(rc & _ & Hx)]];
    try discriminate.
  cbv [ret] in H. inversion H; subst; clear H. destruct u.
  apply save_loop_counts in Hsave. destruct Hsave as (A1 & A2 & A3 & A4 & A5).
  apply delete_loop_counts in Hdel. destruct Hdel as (B1 & B2 & B3 & B4).
  rewrite app_nil_r, !count_app, A4, A5, B4. repeat split; lia.
Qed.

(** A failing save leaves what was saved before it and deletes
    nothing. *)
Lemma save_loop_failed (cd : Dict.t key (list Z)) (items : Dict.t key record) :
  forall w w' l n,
    Fos.save_loop orm e cd items w = (Ret (Some n), w', l) ->
    exists l0 x id kw,
      n = Saving x id /\
      l = l0 ++ [EWrite id kw; ELogError (Saving x id)] /\
      forallb is_save l0 = true /\
      (forall k, In k (Dict.keys (db w)) -> In k (Dict.keys (db w'))) /\
      (forall id' kw', In (EWrite id' kw') l0 -> In id' (Dict.keys (db w'))).
Proof.
  induction items as [|[k0 r0] items IH]; intros w w' l n; cbn [Fos.save_loop].
  - cbv [ret]. discriminate.
  - intros H. apply bind_inv in H.
    destruct H as [(x & w1 & l1 & l2 & Hstep & Hrest & ->)|[(x & _ & Hx)|(rc & _ & Hx)]];
      try discriminate.
    apply store_item_step in Hstep. destruct x as [msg|].
    + cbv [ret] in Hrest. inversion Hrest; subst. rewrite app_nil_r.
      inversion Hstep; subst; [|not_ret].
      exists [], x, (key_of id), kw. repeat split; auto.
      intros id' kw' [].
    + apply IH in Hrest.
      destruct Hrest as (l0 & x & id & kw & -> & -> & Hl0 & Hkeep & Hsaved).
      inversion Hstep; subst; try not_ret.
      * exists l0, x, id, kw. repeat split; auto.
      * exists ([EWrite (key_of id0) kw0] ++ l0), x, id, kw.
        cbn [db] in *. repeat split; auto.
        -- intros k Hin. apply Hkeep. apply (keys_set _ key_eqb_spec). now right.
        -- intros id' kw' [Heq|Hin]; [|eauto].
           inversion Heq; subst. apply Hkeep.
           apply (keys_set _ key_eqb_spec). now left.
Qed.

Lemma curdigest_absent (t : table) (k : key) :
  ~ In k (Dict.keys t) -> Dict.get key_eqb k (Fos.curdigest_of t) = None.
Proof.
  intros Hn. unfold Fos.curdigest_of.
  assert (Hacc : forall acc,
             Dict.get key_eqb k acc = None ->
             Dict.get key_eqb k
               (fold_left (fun cd item =>
                  Dict.set key_eqb (fst item) (Fos.item_digest (snd item)) cd) t acc)
             = None).
  { induction t as [|[k0 r0] t IH]; intros acc Hacc; cbn [fold_left]; [assumption|].
    apply IH.
    - intros Hin. apply Hn. now right.
    - cbn [fst snd]. rewrite (get_set _ key_eqb_spec).
      destruct (key_eqb_spec k k0) as [->|Hne]; [|assumption].
      exfalso. apply Hn. now left. }
  now apply Hacc.
Qed.

Lemma run_failed_no_finish (w : world) (o : outcome unit) (w' : world) (l : list event) :
  run_shape orm e w o w' l -> o <> Ret tt -> existsb is_finish l = false.
Proof.
  intros Hrun Hne. inversion Hrun; subst; try reflexivity.
  - match goal with H : Fos.Store_Destination _ _ _ _ = _ |- _ =>
      apply Store_Destination_trace, store_trace_plain in H;
      destruct H as (Hf & _) end.
    rewrite existsb_app, Hf. reflexivity.
  - congruence.
Qed.

End FosCounts.

(** X10.  In the finish report of a run whose store step succeeded,
    updates plus skips is the number of source records, updates is the
    number of saves issued, and deletes is the number of deletes issued
    less those that failed. *)
Theorem finish_report_counts (orm : ORM) (e : env) (w w' : world) (l : list event)
        (COLS : list string) (rows : list (list pyval)) (new_items : Dict.t key record)
        (s : stats) :
  query e Fos.sql = QRows COLS rows ->
  Fos.retrieve_rows COLS rows [] = Ret new_items ->
  Fos.Run orm e w = (Ret tt, w', l) ->
  In (EFinish true s) l ->
  (Update s + Skip s = List.length new_items)%nat /\
  Update s = count is_save l /\
  (Delete s + count is_deleting l = count is_remove l)%nat.
Proof.
  intros Hq Hret Hrun Hin. apply Run_shape in Hrun.
  inversion Hrun; subst;
    try match goal with H : failed _ (Ret tt) |- _ => destruct (failed_not_ret H) end.
  match goal with H : query e Fos.sql = QRows ?c ?r |- _ =>
    assert (Hcr : QRows COLS rows = QRows c r) by (rewrite <- Hq; exact H);
    inversion Hcr; subst c r; clear Hcr end.
  match goal with H : Fos.retrieve_rows _ _ _ = Ret S |- _ =>
    rewrite Hret in H; inversion H; subst S; clear H end.
  match goal with H : Fos.Store_Destination _ _ _ _ = _ |- _ => rename H into Hst end.
  assert (Hplain := store_trace_plain _ _ (Store_Destination_trace _ _ _ _ Hst)).
  destruct Hplain as (Hf & _).
  assert (Hs : EFinish true s = EFinish (fst r) (STATS w')).
  { cbn [app] in Hin. destruct Hin as [Hin|[Hin|Hin]]; try discriminate.
    apply in_app_or in Hin. destruct Hin as [Hin|[Hin|[Hin|[]]]]; try discriminate.
    - exfalso. assert (Hex : existsb is_finish l0 = true).
      { apply existsb_exists. exists (EFinish true s). auto. }
      congruence.
    - auto. }
  inversion Hs as [[Hflag Hstats]]. destruct r as [[|] msg]; [|discriminate].
  apply Store_Destination_counts in Hst. cbn [reset STATS Update Delete Skip] in Hst.
  destruct Hst as (A & B & C).
  rewrite !count_app. cbn. repeat split; lia.
Qed.

Lemma finish_report_counts_witness :
  let rows := [Sample.physics; Sample.geology] in
  let e := Sample.source Sample.fos_cols rows [] [KInt 2] in
  let w := mkWorld [(KInt 1, Sample.stored Sample.physics);
                    (KInt 2, Sample.stored Sample.chemistry);
                    (KInt 4, Sample.stored Sample.chemistry)] (mkStats 0 0 0) in
  let l := snd (Fos.Run Django.FieldOfScience e w) in
  (Update (mkStats 1 1 1) + Skip (mkStats 1 1 1) = 2)%nat /\
  Update (mkStats 1 1 1) = count is_save l /\
  (Delete (mkStats 1 1 1) + count is_deleting l = count is_remove l)%nat.
Proof.
  intros rows e w l.
  apply (@finish_report_counts Django.FieldOfScience e w
           (snd (fst (Fos.Run Django.FieldOfScience e w))) l Sample.fos_cols rows
           [(KInt 1, Sample.source_record Sample.physics);
            (KInt 3, Sample.source_record Sample.geology)] (mkStats 1 1 1)).
  - reflexivity.
  - vm_compute. reflexivity.
  - vm_compute. reflexivity.
  - vm_compute. do 7 right. left. reflexivity.
Defined.

(** X11.  A store step that returns a failed save has issued no delete,
    has kept every row the destination had, and has kept the rows of
    the saves issued before the failing one: nothing is rolled back. *)
Theorem failed_store_keeps_rows (orm : ORM) (e : env) (new_items : Dict.t key record)
        (w w' : world) (l : list event) (msg : option note) :
  Fos.Store_Destination orm e new_items w = (Ret (false, msg), w', l) ->
  exists l0 x id kw,
    msg = Some (Saving x id) /\
    l = l0 ++ [EWrite id kw; ELogError (Saving x id)] /\
    forallb is_save l0 = true /\
    (forall k, In k (Dict.keys (db w)) -> In k (Dict.keys (db w'))) /\
    (forall id' kw', In (EWrite id' kw') l0 -> In id' (Dict.keys (db w'))).
Proof.
  unfold Fos.Store_Destination. cbv [get_db]. intros H.
  apply bind_inv in H.
  destruct H as [(t & w0 & l0 & l0' & Ht & H & ->)|[(x & Hx & _)|(rc & Hx & _)]];
    try discriminate.
  inversion Ht; subst; clear Ht. cbn [app].
  apply bind_inv in H.
  destruct H as [(x & w1 & l1 & l2 & Hsave & H & ->)|[(x & _ & Hx)|(rc & _ & Hx)]];
    try discriminate.
  destruct x as [n|].
  - cbv [ret] in H. inversion H; subst. rewrite app_nil_r.
    apply save_loop_failed in Hsave.
    destruct Hsave as (l0 & x & id & kw & -> & -> & Hrest).
    exists l0, x, id, kw. auto.
  - apply bind_inv in H.
    destruct H as [(u & w2 & l3 & l4 & Hdel & H & ->)|[(x & _ & Hx)|(rc & _ & Hx)]];
      discriminate.
Qed.

Lemma failed_store_keeps_rows_witness :
  let e := Sample.source Sample.fos_cols [Sample.physics; Sample.geology] [KInt 3] [] in
  let w := mkWorld [(KInt 2, Sample.stored Sample.chemistry)] (mkStats 0 0 0) in
  let r := Fos.Store_Destination Django.FieldOfScience e
             [(KInt 1, Sample.source_record Sample.physics);
              (KInt 3, Sample.source_record Sample.geology)] w in
  exists l0 x id kw,
    Some (Saving IntegrityError (KInt 3)) = Some (Saving x id) /\
    snd r = l0 ++ [EWrite id kw; ELogError (Saving x id)] /\
    forallb is_save l0 = true /\
    (forall k, In k (Dict.keys (db w)) -> In k (Dict.keys (db (snd (fst r))))) /\
    (forall id' kw', In (EWrite id' kw') l0 -> In id' (Dict.keys (db (snd (fst r))))).
Proof.
  intros e w r.
  apply (@failed_store_keeps_rows Django.FieldOfScience e
           [(KInt 1, Sample.source_record Sample.physics);
            (KInt 3, Sample.source_record Sample.geology)]
           w (snd (fst r)) (snd r) (Some (Saving IntegrityError (KInt 3)))).
  vm_compute. reflexivity.
Defined.

(** X12.  A source record whose identifier is not in the destination is
    never skipped: its save is issued, and when the destination accepts
    it the row is created under the record's identifier and counted as
    an update. *)
Theorem absent_identifier_is_created (orm : ORM) (e : env) (w w0 : world)
        (new_id : key) (nitem kw row : record) (id : pyval) :
  ~ In new_id (Dict.keys (db w)) ->
  getitem nitem "field_of_science_id" = Ret id ->
  fos_kwargs nitem = Ret kw ->
  save_error e (key_of id) kw = None ->
  to_row orm kw = Some row ->
  Fos.store_item orm e (Fos.curdigest_of (db w)) new_id nitem w0
  = (Ret None,
     mkWorld (Dict.set key_eqb (key_of id) row (db w0))
             (mkStats (S (Update (STATS w0))) (Delete (STATS w0)) (Skip (STATS w0))),
     [EWrite (key_of id) kw]).
Proof.
  intros Habs Hid Hkw Hse Hrow. unfold Fos.store_item.
  rewrite (curdigest_absent _ _ Habs). cbn [Fos.same_digest].
  destruct (fos_kwargs_id _ Hkw) as (id' & dflt & Hid' & Hdf & ->).
  assert (id' = id) by congruence. subst id'.
  unfold try_catch, Fos.save_item, db_save.
  cbv [bind lift emit raise ret count_update get_db put_db converted].
  rewrite Hid, Hdf, Hse, Hrow. reflexivity.
Qed.

Lemma absent_identifier_is_created_witness :
  let e := Sample.source Sample.fos_cols [Sample.physics] [] [] in
  Fos.store_item Django.FieldOfScience e (Fos.curdigest_of (db Sample.empty)) (KInt 1)
                 (Sample.source_record Sample.physics) Sample.empty
  = (Ret None,
     mkWorld (Dict.set key_eqb (key_of (VInt 1)) (Sample.stored Sample.physics)
                       (db Sample.empty))
             (mkStats 1 0 0),
     [EWrite (key_of (VInt 1)) (Sample.rowdict_kwargs Sample.physics)]).
Proof.
  intros e.
  apply (@absent_identifier_is_created Django.FieldOfScience e Sample.empty Sample.empty
           (KInt 1) (Sample.source_record Sample.physics)
           (Sample.rowdict_kwargs Sample.physics) (Sample.stored Sample.physics) (VInt 1)).
  - simpl. tauto.
  - reflexivity.
  - reflexivity.
  - reflexivity.
  - vm_compute. reflexivity.
Defined.



(** X14.  The process ends with status 0 whenever a finish report was
    emitted, also when the report carries the failure flag: the status
    does not tell a failed save from a clean run. *)
Theorem main_status_after_report (orm : ORM) (e : env) (w w' : world)
        (rc : Z) (l : list event) (flag : bool) (s : stats) :
  Fos.main orm e w = (rc, w', l) ->
  In (EFinish flag s) l ->
  rc = 0.
Proof.
  unfold Fos.main. destruct (Fos.Run orm e w) as [[o w1] l1] eqn:Hrun.
  apply Run_shape in Hrun.
  assert (Hnone : o <> Ret tt -> ~ In (EFinish flag s) l1).
  { intros Hne Hin. apply (run_failed_no_finish Hrun) in Hne.
    assert (existsb is_finish l1 = true) by (apply existsb_exists; eauto).
    congruence. }
  destruct o as [[]|x|rc'].
  - intros H _. now inversion H.
  - intros H Hin. inversion H; subst. exfalso.
    apply in_app_or in Hin. destruct Hin as [Hin|[Hin|[]]]; [|discriminate].
    now apply Hnone.
  - intros H Hin. inversion H; subst. exfalso. now apply Hnone.
Qed.

Lemma main_status_after_report_witness :
  fst (fst (Fos.main Django.FieldOfScience
              (Sample.source Sample.fos_cols [Sample.physics] [KInt 1] []) Sample.empty))
  = 0.
Proof.
  set (m := Fos.main Django.FieldOfScience
              (Sample.source Sample.fos_cols [Sample.physics] [KInt 1] []) Sample.empty).
  apply (@main_status_after_report Django.FieldOfScience
           (Sample.source Sample.fos_cols [Sample.physics] [KInt 1] []) Sample.empty
           (snd (fst m)) (fst (fst m)) (snd m) false (mkStats 0 0 0)).
  - vm_compute. reflexivity.
  - vm_compute. do 5 right. left. reflexivity.
Defined.

(* ================================================================== *)
(** ** The aggregates of the persons router *)
(* ================================================================== *)

Section PersonsAggregates.

Variable col : string.
Variable COLS : list string.

Lemma concat_snoc (l : list string) (s : string) :
  l <> [] ->
  String.concat "," (l ++ [s]) = (String.concat "," l ++ "," ++ s)%string.
Proof.
  induction l as [|x l IH]; [congruence|]. intros _.
  destruct l as [|y l].
  - reflexivity.
  - change (String.concat "," ((x :: y :: l) ++ [s]))
      with (x ++ "," ++ String.concat "," ((y :: l) ++ [s]))%string.
    rewrite IH by discriminate.
    change (String.concat "," (x :: y :: l))
      with (x ++ "," ++ String.concat "," (y :: l))%string.
    now rewrite !append_assoc'.
Qed.

Lemma joined_rows_acc (rows : list (list pyval)) :
  Forall (text_row col COLS) rows ->
  forall (J0 : Dict.t key pyval) (pre : key -> list string),
    (forall k, Dict.get key_eqb k J0 = joined (pre k)) ->
    exists J,
      Persons.joined_rows col COLS rows J0 = Ret J /\
      forall k, Dict.get key_eqb k J = joined (pre k ++ strings_of col COLS rows k).
Proof.
  induction 1 as [|row rows (id & s & Hid & Hs) _ IH]; intros J0 pre Hpre.
  - exists J0. split; [reflexivity|]. intros k. cbn. now rewrite app_nil_r.
  - cbn [Persons.joined_rows]. rewrite Hid. cbn [obind].
    set (pre' := fun k => pre k ++ (if key_eqb k (key_of id) then [s] else [])).
    assert (Hstep : forall k, pre k ++ strings_of col COLS (row :: rows) k
                              = pre' k ++ strings_of col COLS rows k).
    { intros k. unfold pre', strings_of. cbn [flat_map]. rewrite Hid, Hs.
      now rewrite app_assoc. }
    destruct (Dict.get key_eqb (key_of id) J0) as [old|] eqn:Hold;
      rewrite Hs; cbn [obind].
    + rewrite Hpre in Hold. destruct (pre (key_of id)) as [|x l] eqn:Hp; [discriminate|].
      inversion Hold; subst old. cbn [Persons.add obind].
      destruct (IH (Dict.set key_eqb (key_of id)
                             (VStr (String.concat "," (x :: l) ++ ("," ++ s))) J0) pre')
        as (J & HJ & Hget).
      { intros k. rewrite (get_set _ key_eqb_spec). unfold pre'.
        destruct (key_eqb_spec k (key_of id)) as [->|Hne].
        - rewrite Hp. unfold joined. cbn [app]. f_equal. f_equal. symmetry.
          apply (@concat_snoc (x :: l) s). discriminate.
        - now rewrite app_nil_r. }
      exists J. split; [exact HJ|]. intros k. now rewrite Hstep.
    + rewrite Hpre in Hold.
      destruct (pre (key_of id)) as [|x l] eqn:Hp; [|discriminate].
      destruct (IH (Dict.set key_eqb (key_of id) (VStr s) J0) pre') as (J & HJ & Hget).
      { intros k. rewrite (get_set _ key_eqb_spec). unfold pre'.
        destruct (key_eqb_spec k (key_of id)) as [->|Hne].
        - rewrite Hp. reflexivity.
        - now rewrite app_nil_r. }
      exists J. split; [exact HJ|]. intros k. now rewrite Hstep.
Qed.

Lemma joined_rows_app (r1 r2 : list (list pyval)) :
  forall J0,
    Persons.joined_rows col COLS (r1 ++ r2) J0
    = (J1 <~ Persons.joined_rows col COLS r1 J0 ;; Persons.joined_rows col COLS r2 J1).
Proof.
  induction r1 as [|row r1 IH]; intros J0; cbn [app Persons.joined_rows obind].
  - reflexivity.
  - destruct (getitem (rowdict COLS row) "person_id") as [id| |]; cbn [obind]; auto.
    destruct (Dict.get key_eqb (key_of id) J0);
      destruct (getitem (rowdict COLS row) col) as [v| |]; cbn [obind]; auto.
    destruct (Persons.add (VStr ",") v) as [t| |]; cbn [obind]; auto.
    destruct (Persons.add p t); cbn [obind]; auto.
Qed.

End PersonsAggregates.

Section PersonsAddresses.

Variable COLS : list string.

Lemma address_rows_acc (rows : list (list pyval)) :
  forall (A0 A : Dict.t key (list record)) (pre : key -> list record),
    (forall k, Dict.get key_eqb k A0 = grouped (pre k)) ->
    Persons.address_rows COLS rows A0 = Ret A ->
    forall k, Dict.get key_eqb k A = grouped (pre k ++ records_of COLS rows k).
Proof.
  induction rows as [|row rows IH]; intros A0 A pre Hpre; cbn [Persons.address_rows].
  - intros H k. inversion H; subst. cbn. now rewrite app_nil_r.
  - destruct (getitem (rowdict COLS row) "person_id") as [id| |] eqn:Hid; cbn [obind];
      try discriminate.
    intros H k.
    set (pre' := fun k => pre k ++ (if key_eqb k (key_of id)
                                    then [rowdict COLS row] else [])).
    assert (Hstep : pre k ++ records_of COLS (row :: rows) k
                    = pre' k ++ records_of COLS rows k).
    { unfold pre', records_of. cbn [flat_map]. rewrite Hid. now rewrite app_assoc. }
    rewrite Hstep. eapply IH with (pre := pre'); [|exact H].
    intros k'. rewrite (get_set _ key_eqb_spec). unfold pre'.
    destruct (key_eqb_spec k' (key_of id)) as [->|Hne].
    + rewrite Hpre. destruct (pre (key_of id)); reflexivity.
    + rewrite app_nil_r. apply Hpre.
Qed.

End PersonsAddresses.

Section PersonsAddressesTotal.

Variable COLS : list string.

Lemma address_rows_total (rows : list (list pyval)) :
  Forall (has_person COLS) rows ->
  forall A0, exists A, Persons.address_rows COLS rows A0 = Ret A.
Proof.
  induction 1 as [|row rows (id & Hid) _ IH]; intros A0; cbn [Persons.address_rows].
  - eauto.
  - rewrite Hid. cbn [obind]. apply IH.
Qed.

End PersonsAddressesTotal.

(** X15.  On a child view whose rows all carry a person and a text in
    column [col], the join loop of [Retrieve_Source] returns a map that
    holds, for every person, the texts of that person's rows in fetch
    order separated by commas, and no entry for a person without rows. *)
Theorem joined_rows_comma_separated (col : string) (COLS : list string)
        (rows : list (list pyval)) :
  Forall (text_row col COLS) rows ->
  exists J, Persons.joined_rows col COLS rows [] = Ret J /\
            forall k, Dict.get key_eqb k J = joined (strings_of col COLS rows k).
Proof.
  intros Hrows.
  destruct (@joined_rows_acc col COLS rows Hrows [] (fun _ => [])) as (J & HJ & Hget).
  - reflexivity.
  - exists J. split; [exact HJ|]. intros k. now rewrite Hget.
Qed.

Lemma joined_rows_comma_separated_witness :
  let COLS := ["person_id"; "country"] in
  let rows := [[VInt 7; VStr "UK"]; [VInt 8; VStr "US"]; [VInt 7; VStr "FR"]] in
  exists J, Persons.joined_rows "country" COLS rows [] = Ret J /\
            forall k, Dict.get key_eqb k J = joined (strings_of "country" COLS rows k).
Proof.
  intros COLS rows.
  apply (@joined_rows_comma_separated "country" COLS rows).
  repeat constructor.
  - exists (VInt 7), "UK". split; reflexivity.
  - exists (VInt 8), "US". split; reflexivity.
  - exists (VInt 7), "FR". split; reflexivity.
Defined.

(** X16.  On an address view whose rows all carry a person, the address
    loop of [Retrieve_Source] returns a map that holds, for every
    person, the list of that person's row dicts in fetch order, and no
    entry for a person without rows. *)
Theorem address_rows_grouped (COLS : list string) (rows : list (list pyval)) :
  Forall (has_person COLS) rows ->
  exists A, Persons.address_rows COLS rows [] = Ret A /\
            forall k, Dict.get key_eqb k A = grouped (records_of COLS rows k).
Proof.
  intros Hrows. destruct (address_rows_total Hrows []) as (A & HA).
  exists A. split; [exact HA|]. intros k.
  now rewrite (@address_rows_acc COLS rows [] A (fun _ => []) (fun _ => eq_refl) HA k).
Qed.

Lemma address_rows_grouped_witness :
  let COLS := ["person_id"; "city"] in
  let rows := [[VInt 7; VStr "London"]; [VInt 8; VStr "Cork"]; [VInt 7; VStr "Turin"]] in
  exists A, Persons.address_rows COLS rows [] = Ret A /\
            forall k, Dict.get key_eqb k A = grouped (records_of COLS rows k).
Proof.
  intros COLS rows.
  apply (@address_rows_grouped COLS rows).
  repeat constructor.
  - exists (VInt 7). reflexivity.
  - exists (VInt 8). reflexivity.
  - exists (VInt 7). reflexivity.
Defined.

(** X17.  A join stops with [TypeError] at the first row that adds, to
    a person who already has a text, a value that is no [str] (a NULL
    country or e-mail address): [',' + None] is not defined. *)
Theorem joined_rows_second_value_not_text (col : string) (COLS : list string)
        (r1 r2 : list (list pyval)) (row : list pyval) (id v : pyval) :
  Forall (text_row col COLS) r1 ->
  getitem (rowdict COLS row) "person_id" = Ret id ->
  strings_of col COLS r1 (key_of id) <> [] ->
  getitem (rowdict COLS row) col = Ret v ->
  (forall s, v <> VStr s) ->
  Persons.joined_rows col COLS (r1 ++ row :: r2) [] = Raise TypeError.
Proof.
  intros Hr1 Hid Hne Hv Hns.
  rewrite joined_rows_app.
  destruct (@joined_rows_acc col COLS r1 Hr1 [] (fun _ => [])) as (J & HJ & Hget);
    [reflexivity|].
  rewrite HJ. cbn [obind Persons.joined_rows]. rewrite Hid. cbn [obind].
  rewrite Hget. cbn [app].
  destruct (strings_of col COLS r1 (key_of id)) as [|x l]; [congruence|].
  cbn [joined]. rewrite Hv. cbn [obind].
  destruct v; try reflexivity. exfalso. eapply Hns. reflexivity.
Qed.

Lemma joined_rows_second_value_not_text_witness :
  Persons.joined_rows "country" ["person_id"; "country"]
    ([[VInt 7; VStr "UK"]] ++ [VInt 7; VNone] :: [[VInt 8; VStr "US"]]) []
  = Raise TypeError.
Proof.
  apply (@joined_rows_second_value_not_text "country" ["person_id"; "country"]
           [[VInt 7; VStr "UK"]] [[VInt 8; VStr "US"]] [VInt 7; VNone] (VInt 7) VNone).
  - repeat constructor. exists (VInt 7), "UK". split; reflexivity.
  - reflexivity.
  - vm_compute. discriminate.
  - reflexivity.
  - intros s. discriminate.
Defined.

(* ================================================================== *)
(** ** The store step of the persons router on a filled destination *)
(* ================================================================== *)

Section PersonsDelete.

Variable orm : ORM.
Variable e : env.

Lemma persons_save_loop_ret (items : list (key * Persons.obj)) :
  forall pid w r w' l,
    Persons.save_loop orm e items pid w = (Ret r, w', l) ->
    r = None /\ Forall (fun ev => is_save ev = true) l /\
    Delete (STATS w') = Delete (STATS w).
Proof.
  induction items as [|[k o] items IH]; intros pid w r w' l; cbn [Persons.save_loop].
  - cbv [ret]. intros H. inversion H; subst. auto.
  - unfold bind.
    destruct (try_catch (Persons.save_item orm e o) (Persons.save_failed pid) w)
      as [[out w1] l1] eqn:Hstep.
    apply person_item_step in Hstep. inversion Hstep; subst; try discriminate.
    cbn [fst snd].
    match goal with
    | |- context [Persons.save_loop orm e items ?p ?w2] =>
        destruct (Persons.save_loop orm e items p w2) as [[out2 w3] l3] eqn:Hrest
    end.
    intros Heq. inversion Heq; subst.
    destruct (IH _ _ _ _ _ Hrest) as (-> & Hl & Hd).
    repeat split; [constructor; [reflexivity | exact Hl] | exact Hd].
Qed.

Lemma persons_delete_loop_raises (new_items : Dict.t key Persons.obj)
      (c : key * record) (cur : Dict.t key record) (w : world) :
  Persons.delete_loop e new_items (c :: cur) w = (Raise TypeError, w, []).
Proof. reflexivity. Qed.

Lemma persons_cur_of_acc (t : table) :
  forall acc, acc <> [] ->
              fold_left (fun cur item => Dict.set key_eqb (fst item) (snd item) cur) t acc
              <> [].
Proof.
  induction t as [|item t IH]; intros acc Hacc; cbn [fold_left]; [exact Hacc|].
  apply IH. destruct acc as [|[k0 v0] acc]; [congruence|].
  cbn [Dict.set]. destruct (key_eqb (fst item) k0); discriminate.
Qed.

Lemma persons_cur_of_nil (t : table) : Persons.cur_of t = [] -> t = [].
Proof.
  destruct t as [|item t]; [reflexivity|]. unfold Persons.cur_of. cbn [fold_left].
  intros H. exfalso. revert H. apply persons_cur_of_acc. discriminate.
Qed.

End PersonsDelete.

(** X18.  [Store_Destination] of the persons router returns only when
    the destination table was empty at its start, and then with
    [(True, '')] after nothing but saves: on a filled table the delete
    loop subscripts a model instance, and the handler of a refused save
    raises before it can return [(False, msg)]. *)
Theorem persons_store_returns_only_on_empty_table (orm : ORM) (e : env)
        (new_items : Dict.t key Persons.obj) (w w' : world)
        (r : bool * option note) (l : list event) :
  Persons.Store_Destination orm e new_items w = (Ret r, w', l) ->
  db w = [] /\ r = (true, None) /\ Forall (fun ev => is_save ev = true) l /\
  Delete (STATS w') = Delete (STATS w).
Proof.
  unfold Persons.Store_Destination. cbv [bind get_db].
  destruct (Persons.save_loop orm e new_items None w) as [[out w1] l1] eqn:Hsave.
  destruct out as [[msg|]|x|rc]; try discriminate.
  - apply persons_save_loop_ret in Hsave. destruct Hsave as (Hr & _). discriminate.
  - destruct (Persons.cur_of (db w)) as [|c cur] eqn:Hcur.
    + cbn. intros H. inversion H; subst. rewrite !app_nil_r.
      apply persons_save_loop_ret in Hsave. destruct Hsave as (_ & Hl & Hd).
      repeat split; auto. now apply persons_cur_of_nil.
    + rewrite persons_delete_loop_raises. discriminate.
Qed.

Lemma persons_store_returns_only_on_empty_table_witness :
  let e := Sample.persons_source Sample.person_cols [] [] in
  let new_items := [(KInt 7, Persons.ORow (rowdict Sample.wide_cols Sample.wide_ada))] in
  let out := Persons.Store_Destination Django.plain e new_items Sample.empty in
  db Sample.empty = [] /\ (true, @None note) = (true, None) /\
  Forall (fun ev => is_save ev = true) (snd out) /\
  Delete (STATS (snd (fst out))) = Delete (STATS Sample.empty).
Proof.
  intros e new_items out.
  apply (@persons_store_returns_only_on_empty_table Django.plain e new_items
           Sample.empty (snd (fst out)) (true, None) (snd out)).
  vm_compute. reflexivity.
Defined.

(* ================================================================== *)
(** ** The users router *)
(* ================================================================== *)

Section UsersStore.

Variable orm : ORM.
Variable e : env.

Ltac getitems :=
  repeat match goal with
         | |- context [getitem ?r ?k] =>
             let v := fresh "v" in
             destruct (getitem_cases r k) as [[v ->]| ->]
         end.

(** One round of the save loop: it issues at most one save, counts it
    when it returns, and never returns a message. *)
Lemma users_store_item_cases (cur : Users.nested) (nitem : record)
      (pid : option pyval) (w : world) out w' l :
  Users.store_item orm e cur nitem pid w = (out, w', l) ->
  Forall (fun ev => is_save ev = true) l /\
  match out with
  | Ret r => fst r = None /\
             STATS w' = mkStats (Update (STATS w) + List.length l)
                                (Delete (STATS w)) (Skip (STATS w))
  | Raise x => caught x = false
  | Exit _ => False
  end.
Proof.
  unfold Users.store_item. cbv [bind lift].
  destruct (Users.present cur nitem) as [[|]|x|rc] eqn:Hp.
  - cbv [ret]. intros H. inversion H; subst. split; [constructor|].
    split; [reflexivity|]. cbn. rewrite Nat.add_0_r. now destruct (STATS w').
  - unfold try_catch, Users.save_item, Users.save_failed, db_save.
    cbv [bind lift emit raise ret count_update get_db put_db converted
         Persons.local Persons.message].
    destruct (getitem_cases nitem "person_id") as [[v1 ->]| ->];
      [|cbn; intros H; inversion H; subst; split; [constructor|reflexivity]].
    destruct (getitem_cases nitem "portal_login") as [[v2 ->]| ->];
      [|cbn; intros H; inversion H; subst; split; [constructor|reflexivity]].
    destruct (getitem_cases nitem "resource_id") as [[v3 ->]| ->];
      [|cbn; intros H; inversion H; subst; split; [constructor|reflexivity]].
    destruct (getitem_cases nitem "resource_name") as [[v4 ->]| ->];
      [|cbn; intros H; inversion H; subst; split; [constructor|reflexivity]].
    destruct (getitem_cases nitem "username") as [[v5 ->]| ->];
      [|cbn; intros H; inversion H; subst; split; [constructor|reflexivity]].
    match goal with
    | |- context [save_error e ?k ?kw] => destruct (save_error e k kw) as [x|] eqn:Hse
    end.
    + cbn [app]. destruct (caught x) eqn:Hc.
      * destruct pid as [p|]; cbn [app]; intros H; inversion H; subst;
          (split; [repeat constructor | reflexivity]).
      * intros H. inversion H; subst. split; [repeat constructor | exact Hc].
    + match goal with
      | |- context [to_row orm ?kw] => destruct (to_row orm kw) as [row|] eqn:Hrow
      end; cbn [app caught].
      * intros H. inversion H; subst. split; [repeat constructor|].
        split; [reflexivity|]. cbn. now rewrite Nat.add_1_r.
      * intros H. inversion H; subst. split; [repeat constructor | reflexivity].
  - intros H. inversion H; subst. split; [constructor|].
    unfold Users.present in Hp.
    destruct (getitem_cases nitem "resource_name") as [[v Hv]|Hv]; rewrite Hv in Hp;
      cbn [obind] in Hp; [|inversion Hp; reflexivity].
    destruct (Dict.get key_eqb (key_of v) cur); [|discriminate].
    destruct (getitem_cases nitem "username") as [[u Hu]|Hu]; rewrite Hu in Hp;
      cbn [obind] in Hp; [discriminate | inversion Hp; reflexivity].
  - exfalso. unfold Users.present in Hp.
    destruct (getitem_cases nitem "resource_name") as [[v Hv]|Hv]; rewrite Hv in Hp;
      cbn [obind] in Hp; [|discriminate].
    destruct (Dict.get key_eqb (key_of v) cur); [|discriminate].
    destruct (getitem_cases nitem "username") as [[u Hu]|Hu]; rewrite Hu in Hp;
      cbn [obind] in Hp; discriminate.
Qed.

Lemma users_save_loop_cases (cur : Users.nested) (items : list (key * record)) :
  forall pid w out w' l,
    Users.save_loop orm e cur items pid w = (out, w', l) ->
    Forall (fun ev => is_save ev = true) l /\
    match out with
    | Ret r => r = None /\
               STATS w' = mkStats (Update (STATS w) + List.length l)
                                  (Delete (STATS w)) (Skip (STATS w))
    | Raise x => caught x = false
    | Exit _ => False
    end.
Proof.
  induction items as [|[k nitem] items IH]; intros pid w out w' l;
    cbn [Users.save_loop].
  - cbv [ret]. intros H. inversion H; subst. split; [constructor|].
    split; [reflexivity|]. cbn. rewrite Nat.add_0_r. now destruct (STATS w').
  - unfold bind.
    destruct (Users.store_item orm e cur nitem pid w) as [[o1 w1] l1] eqn:Hstep.
    apply users_store_item_cases in Hstep. destruct Hstep as (Hl1 & Ho1).
    destruct o1 as [[msg pid']|x|rc].
    + destruct Ho1 as (Hmsg & Hst). cbn [fst] in Hmsg. subst msg. cbn [fst snd].
      destruct (Users.save_loop orm e cur items pid' w1) as [[o2 w2] l2] eqn:Hrest.
      intros H. inversion H; subst.
      destruct (IH _ _ _ _ _ Hrest) as (Hl2 & Ho2).
      split; [now apply Forall_app|].
      destruct out as [r|x|rc]; auto.
      destruct Ho2 as (-> & Hst2). split; [reflexivity|].
      rewrite Hst2, Hst. cbn. rewrite length_app. f_equal. lia.
    + intros H. inversion H; subst. auto.
    + destruct Ho1.
Qed.

Variable new_items : Dict.t key record.

(** One round of the delete loop: a stored item whose lookup string
    is a key of the source map is left alone; for any other item the
    round issues one delete and ends in an exception that no handler
    catches. *)
Lemma users_delete_item_cases (item : key * record) (w : world) :
  (Dict.mem key_eqb (KStr (compstring (snd item))) new_items = true /\
   Users.delete_item e new_items item w = (Ret tt, w, []))
  \/ (Dict.mem key_eqb (KStr (compstring (snd item))) new_items = false /\
      exists x w',
        Users.delete_item e new_items item w = (Raise x, w', [ERemove (fst item)]) /\
        caught x = false /\
        (delete_error e (fst item) = None ->
         x = KeyError /\ db w' = Dict.remove key_eqb (fst item) (db w))).
Proof.
  unfold Users.delete_item. fold (compstring (snd item)).
  destruct (Dict.mem key_eqb (KStr (compstring (snd item))) new_items) eqn:Hm;
    cbn [negb]; [left; auto | right; split; [reflexivity|]].
  unfold try_catch, db_delete, Users.missing_counter.
  cbv [bind lift emit raise ret get_db put_db Persons.message].
  destruct (delete_error e (fst item)) as [x|] eqn:Hde.
  - cbn [app]. destruct (caught x) eqn:Hc.
    + exists AttributeError, w. repeat split; try discriminate.
    + exists x, w. repeat split; try discriminate. exact Hc.
  - cbn [app caught]. eexists _, _. repeat split.
Qed.

Lemma users_delete_users_cases (users : list (key * (key * record))) (w : world) :
  (Forall (fun item => Dict.mem key_eqb (KStr (compstring (snd item))) new_items = true)
          (map snd users) /\
   Users.delete_users e new_items users w = (Ret tt, w, []))
  \/ (exists item x w',
         In item (map snd users) /\
         Dict.mem key_eqb (KStr (compstring (snd item))) new_items = false /\
         Users.delete_users e new_items users w = (Raise x, w', [ERemove (fst item)]) /\
         caught x = false /\
         (delete_error e (fst item) = None ->
          x = KeyError /\ db w' = Dict.remove key_eqb (fst item) (db w))).
Proof.
  induction users as [|[uk item] users IH]; cbn [Users.delete_users map].
  - left. split; [constructor | reflexivity].
  - unfold bind.
    destruct (users_delete_item_cases item w) as [(Hm & ->)|(Hm & x & w' & -> & Hc & Hd)].
    + destruct IH as [(Hall & ->)|(it & x & w' & Hin & Hm' & -> & Hc & Hd)].
      * left. split; [now constructor | reflexivity].
      * right. exists it, x, w'. cbn [app snd].
        split; [now right|]. split; [exact Hm'|]. split; [reflexivity|].
        split; [exact Hc | exact Hd].
    + right. exists item, x, w'. cbn [snd].
      split; [now left|]. split; [exact Hm|]. split; [reflexivity|].
      split; [exact Hc | exact Hd].
Qed.

Lemma users_delete_loop_cases (cur : Users.nested) (w : world) :
  (Forall (fun item => Dict.mem key_eqb (KStr (compstring (snd item))) new_items = true)
          (items_of cur) /\
   Users.delete_loop e new_items cur w = (Ret tt, w, []))
  \/ (exists item x w',
         In item (items_of cur) /\
         Dict.mem key_eqb (KStr (compstring (snd item))) new_items = false /\
         Users.delete_loop e new_items cur w = (Raise x, w', [ERemove (fst item)]) /\
         caught x = false /\
         (delete_error e (fst item) = None ->
          x = KeyError /\ db w' = Dict.remove key_eqb (fst item) (db w))).
Proof.
  induction cur as [|[rk users] cur IH]; cbn [Users.delete_loop items_of flat_map].
  - left. split; [constructor | reflexivity].
  - unfold bind. cbn [snd].
    destruct (users_delete_users_cases users w)
      as [(Hall & ->)|(it & x & w' & Hin & Hm & -> & Hc & Hd)].
    + destruct IH as [(Hall' & ->)|(it & x & w' & Hin & Hm & -> & Hc & Hd)].
      * left. split; [now apply Forall_app | reflexivity].
      * right. exists it, x, w'. cbn [app].
        split; [apply in_or_app; now right|]. split; [exact Hm|]. split; [reflexivity|].
        split; [exact Hc | exact Hd].
    + right. exists it, x, w'.
      split; [apply in_or_app; now left|]. split; [exact Hm|]. split; [reflexivity|].
      split; [exact Hc | exact Hd].
Qed.

End UsersStore.

Section UsersWarehouse.

Variable orm : ORM.
Variable e : env.
Variable new_items : Dict.t key record.

(** What [run] sees of a [Warehouse_Usermap] that returns. *)
Lemma users_warehouse_stats (w w' : world) (r : bool * option note) (l : list event) :
  Users.Warehouse_Usermap orm e new_items w = (Ret r, w', l) ->
  fst r = true /\
  Forall (fun ev => is_save ev = true) l /\
  Update (STATS w') = (Update (STATS w) + List.length l)%nat /\
  Delete (STATS w') = Delete (STATS w) /\ Skip (STATS w') = Skip (STATS w).
Proof.
  unfold Users.Warehouse_Usermap. intros H.
  apply bind_inv in H.
  destruct H as [(t & w0 & la & lb & H0 & H & ->)|[(? & _ & ?)|(? & _ & ?)]];
    try discriminate.
  cbv [get_db] in H0. inversion H0; subst. clear H0.
  apply bind_inv in H.
  destruct H as [(o & w1 & lc & ld & Hsave & H & ->)|[(? & _ & ?)|(? & _ & ?)]];
    try discriminate.
  apply users_save_loop_cases in Hsave. destruct Hsave as (Hl1 & -> & Hst).
  apply bind_inv in H.
  destruct H as [([] & w2 & le & lf & Hdel & H & ->)|[(? & _ & ?)|(? & _ & ?)]];
    try discriminate.
  destruct (users_delete_loop_cases e new_items (Users.cur_of (db w0)) w1)
    as [(_ & Hd)|(it & x & w3 & _ & _ & Hd & _)]; rewrite Hd in Hdel;
    [|discriminate].
  inversion Hdel; subst. cbv [ret] in H. inversion H; subst.
  cbn [app]. rewrite !app_nil_r. rewrite Hst. cbn. auto.
Qed.

End UsersWarehouse.

(** X19.  [Warehouse_Usermap] returns only [(True, '')], never
    [(False, msg)], and only when it had nothing to delete: every item
    it found in the destination has its lookup string among the keys of
    the source map; the trace then holds saves only and the update
    counter has grown by their number. *)
Theorem usermap_warehouse_returns_without_delete (orm : ORM) (e : env)
        (new_items : Dict.t key record) (w w' : world)
        (r : bool * option note) (l : list event) :
  Users.Warehouse_Usermap orm e new_items w = (Ret r, w', l) ->
  r = (true, None) /\
  Forall (fun ev => is_save ev = true) l /\
  Forall (fun item => Dict.mem key_eqb (KStr (compstring (snd item))) new_items = true)
         (items_of (Users.cur_of (db w))) /\
  STATS w' = mkStats (Update (STATS w) + List.length l) (Delete (STATS w)) (Skip (STATS w)).
Proof.
  unfold Users.Warehouse_Usermap. cbv [bind get_db].
  destruct (Users.save_loop orm e (Users.cur_of (db w)) new_items None w)
    as [[out w1] l1] eqn:Hsave.
  apply users_save_loop_cases in Hsave. destruct Hsave as (Hl1 & Hout).
  destruct out as [[msg|]|x|rc]; try discriminate.
  - destruct Hout as (Habs & _). discriminate.
  - destruct Hout as (_ & Hst).
    destruct (users_delete_loop_cases e new_items (Users.cur_of (db w)) w1)
      as [(Hall & ->)|(it & x & w2 & _ & _ & -> & _)]; [|discriminate].
    cbn. intros H. inversion H; subst. rewrite !app_nil_r. auto.
Qed.

Lemma usermap_warehouse_returns_without_delete_witness :
  let e := Sample.source Sample.usermap_cols [] [] [] in
  let out := Users.Warehouse_Usermap Django.plain e Destination.both Destination.filled in
  (true, @None note) = (true, None) /\
  Forall (fun ev => is_save ev = true) (snd out) /\
  Forall (fun item => Dict.mem key_eqb (KStr (compstring (snd item))) Destination.both = true)
         (items_of (Users.cur_of (db Destination.filled))) /\
  STATS (snd (fst out))
  = mkStats (Update (STATS Destination.filled) + List.length (snd out))
            (Delete (STATS Destination.filled)) (Skip (STATS Destination.filled)).
Proof.
  intros e out.
  apply (@usermap_warehouse_returns_without_delete Django.plain e Destination.both
           Destination.filled (snd (fst out)) (true, None) (snd out)).
  vm_compute. reflexivity.
Defined.

(** X20.  A delete is the last thing [Warehouse_Usermap] does: a trace
    with a delete has exactly one, and the call ends in an exception
    that no handler catches.  When the destination accepted the delete
    the row is gone and the exception is the [KeyError] of the counter
    ['Usermap.Delete'], which [run] never creates. *)
Theorem usermap_delete_is_fatal (orm : ORM) (e : env) (new_items : Dict.t key record)
        (w w' : world) (out : outcome (bool * option note)) (l : list event) (id : key) :
  Users.Warehouse_Usermap orm e new_items w = (out, w', l) ->
  In (ERemove id) l ->
  count is_remove l = 1%nat /\
  exists x, out = Raise x /\ caught x = false /\
            (delete_error e id = None ->
             x = KeyError /\ Dict.get key_eqb id (db w') = None).
Proof.
  unfold Users.Warehouse_Usermap. cbv [bind get_db].
  destruct (Users.save_loop orm e (Users.cur_of (db w)) new_items None w)
    as [[o1 w1] l1] eqn:Hsave.
  apply users_save_loop_cases in Hsave. destruct Hsave as (Hl1 & Hout).
  assert (Hno : forall k, ~ In (ERemove k) l1).
  { intros k Hin. rewrite Forall_forall in Hl1. specialize (Hl1 _ Hin). discriminate. }
  assert (Hc1 : count is_remove l1 = 0%nat).
  { clear -Hl1. induction Hl1 as [|ev l1 Hev _ IH]; [reflexivity|].
    destruct ev; try discriminate. exact IH. }
  destruct o1 as [[msg|]|x|rc].
  - destruct Hout as (Habs & _). discriminate.
  - destruct (users_delete_loop_cases e new_items (Users.cur_of (db w)) w1)
      as [(Hall & ->)|(it & x & w2 & _ & _ & -> & Hc & Hd)].
    + cbn. intros H Hin. inversion H; subst. rewrite !app_nil_r in Hin.
      now apply Hno in Hin.
    + cbn [app]. intros H Hin. inversion H; subst.
      apply in_app_or in Hin. destruct Hin as [Hin|[Hin|[]]]; [now apply Hno in Hin|].
      inversion Hin; subst id. split.
      * rewrite count_app, Hc1. reflexivity.
      * exists x. repeat split; auto; destruct (Hd H0) as (Hx & Hdb); auto.
        rewrite Hdb, (get_remove _ key_eqb_spec).
        now destruct (key_eqb_spec (fst it) (fst it)).
  - intros H Hin. inversion H; subst. now apply Hno in Hin.
  - destruct Hout.
Qed.

Lemma usermap_delete_is_fatal_witness :
  let e := Sample.source Sample.usermap_cols [] [] [] in
  let out := Users.Warehouse_Usermap Django.plain e Destination.listed Destination.filled in
  count is_remove (snd out) = 1%nat /\
  exists x, fst (fst out) = Raise x /\ caught x = false /\
            (delete_error e (KInt 1) = None ->
             x = KeyError /\ Dict.get key_eqb (KInt 1) (db (snd (fst out))) = None).
Proof.
  intros e out.
  apply (@usermap_delete_is_fatal Django.plain e Destination.listed Destination.filled
           (snd (fst out)) (fst (fst out)) (snd out) (KInt 1)).
  - vm_compute. reflexivity.
  - vm_compute. right. left. reflexivity.
Defined.

(* ================================================================== *)
(** ** What the users router finds in the destination *)
(* ================================================================== *)

Section UsersCurrent.

Lemma mem_set (A : Type) (k k' : key) (v : A) (d : Dict.t key A) :
  Dict.mem key_eqb k (Dict.set key_eqb k' v d)
  = key_eqb k k' || Dict.mem key_eqb k d.
Proof.
  unfold Dict.mem. rewrite (get_set _ key_eqb_spec).
  destruct (key_eqb k k'); reflexivity.
Qed.

(** Filing one more stored item. *)
Lemma holds_step (cur : Users.nested) (item : key * record) (rk uk : key) :
  holds
    (let r := KStr (str (Users.attr (snd item) "resource_name")) in
     let u := KStr (str (Users.attr (snd item) "local_username")) in
     match Dict.get key_eqb r cur with
     | Some users =>
         if Dict.mem key_eqb u users then cur
         else Dict.set key_eqb r (Dict.set key_eqb u item users) cur
     | None => Dict.set key_eqb r [(u, item)] cur
     end) rk uk
  = holds cur rk uk || filed item rk uk.
Proof.
  cbv zeta. unfold filed.
  set (r := KStr (str (Users.attr (snd item) "resource_name"))).
  set (u := KStr (str (Users.attr (snd item) "local_username"))).
  destruct (Dict.get key_eqb r cur) as [users|] eqn:Hr.
  - destruct (Dict.mem key_eqb u users) eqn:Hu.
    + destruct (key_eqb_spec rk r) as [->|Hne]; cbn [andb]; [|now rewrite orb_false_r].
      destruct (key_eqb_spec uk u) as [->|Hne']; [|now rewrite orb_false_r].
      unfold holds. rewrite Hr, Hu. reflexivity.
    + unfold holds. rewrite (get_set _ key_eqb_spec).
      destruct (key_eqb_spec rk r) as [->|Hne]; cbn [andb].
      * rewrite Hr, mem_set. apply orb_comm.
      * now rewrite orb_false_r.
  - unfold holds. rewrite (get_set _ key_eqb_spec).
    destruct (key_eqb_spec rk r) as [->|Hne]; cbn [andb].
    + rewrite Hr. unfold Dict.mem. cbn [Dict.get].
      destruct (key_eqb uk u); reflexivity.
    + now rewrite orb_false_r.
Qed.

Lemma holds_cur_of (t : table) (rk uk : key) :
  holds (Users.cur_of t) rk uk = existsb (fun item => filed item rk uk) t.
Proof.
  unfold Users.cur_of.
  assert (Hgen : forall acc,
             holds (fold_left
                      (fun cur item =>
                         let r := KStr (str (Users.attr (snd item) "resource_name")) in
                         let u := KStr (str (Users.attr (snd item) "local_username")) in
                         match Dict.get key_eqb r cur with
                         | Some users =>
                             if Dict.mem key_eqb u users then cur
                             else Dict.set key_eqb r (Dict.set key_eqb u item users) cur
                         | None => Dict.set key_eqb r [(u, item)] cur
                         end) t acc) rk uk
             = holds acc rk uk || existsb (fun item => filed item rk uk) t).
  { induction t as [|item t IH]; intros acc; cbn [fold_left existsb].
    - now rewrite orb_false_r.
    - rewrite IH, holds_step. now rewrite orb_assoc. }
  rewrite Hgen. reflexivity.
Qed.

Lemma present_holds (cur : Users.nested) (nitem : record) :
  Users.present cur nitem = Ret true <->
  exists r u, getitem nitem "resource_name" = Ret r /\
              getitem nitem "username" = Ret u /\
              holds cur (key_of r) (key_of u) = true.
Proof.
  unfold Users.present, holds. split.
  - destruct (getitem nitem "resource_name") as [r| |]; cbn [obind]; try discriminate.
    destruct (Dict.get key_eqb (key_of r) cur) as [users|] eqn:Hr; [|discriminate].
    destruct (getitem nitem "username") as [u| |]; cbn [obind]; try discriminate.
    intros H. exists r, u. rewrite Hr. repeat split. congruence.
  - intros (r & u & -> & Hu & Hh). cbn [obind].
    destruct (Dict.get key_eqb (key_of r) cur) as [users|]; [|discriminate].
    rewrite Hu. cbn [obind]. now rewrite Hh.
Qed.

End UsersCurrent.

(** X21.  [Warehouse_Usermap] skips a source record exactly when the
    destination holds an item whose [str(resource_name)] and
    [str(local_username)] are the record's [resource_name] and
    [username] themselves, as keys: a record whose resource or user
    name is no [str] is never skipped. *)
Theorem usermap_skip_condition (t : table) (nitem : record) :
  Users.present (Users.cur_of t) nitem = Ret true <->
  exists r u item,
    getitem nitem "resource_name" = Ret r /\
    getitem nitem "username" = Ret u /\
    In item t /\
    key_of r = KStr (str (Users.attr (snd item) "resource_name")) /\
    key_of u = KStr (str (Users.attr (snd item) "local_username")).
Proof.
  rewrite present_holds. split.
  - intros (r & u & Hr & Hu & Hh). rewrite holds_cur_of in Hh.
    apply existsb_exists in Hh. destruct Hh as (item & Hin & Hf).
    unfold filed in Hf. apply andb_true_iff in Hf. destruct Hf as (Hf1 & Hf2).
    exists r, u, item. repeat split; auto.
    + now destruct (key_eqb_spec (key_of r)
                                 (KStr (str (Users.attr (snd item) "resource_name")))).
    + now destruct (key_eqb_spec (key_of u)
                                 (KStr (str (Users.attr (snd item) "local_username")))).
  - intros (r & u & item & Hr & Hu & Hin & Hkr & Hku).
    exists r, u. repeat split; auto. rewrite holds_cur_of.
    apply existsb_exists. exists item. split; [exact Hin|].
    unfold filed. rewrite <- Hkr, <- Hku.
    destruct (key_eqb_spec (key_of r) (key_of r)); [|congruence].
    destruct (key_eqb_spec (key_of u) (key_of u)); [reflexivity|congruence].
Qed.

(* ================================================================== *)
(** ** The source map of the users router *)
(* ================================================================== *)

Section UsersSource.

Variable COLS : list string.

Lemma users_retrieve_rows_acc (rows : list (list pyval)) :
  forall acc DATA,
    (forall k rd, In (k, rd) acc -> usermap_key rd k) ->
    NoDup (Dict.keys acc) ->
    Users.retrieve_rows COLS rows acc = Ret DATA ->
    (forall k rd, In (k, rd) DATA -> usermap_key rd k) /\ NoDup (Dict.keys DATA).
Proof.
  induction rows as [|row rows IH]; intros acc DATA Hacc Hnd;
    cbn [Users.retrieve_rows].
  - intros H. inversion H; subst. auto.
  - destruct (getitem (rowdict COLS row) "username") as [u| |] eqn:Hu; cbn [obind];
      try discriminate.
    destruct (getitem (rowdict COLS row) "resource_name") as [r| |] eqn:Hr;
      cbn [obind]; try discriminate.
    apply IH.
    + intros k rd Hin. apply in_set in Hin. destruct Hin as [Heq|Hin].
      * inversion Heq; subst. exists u, r. auto.
      * now apply Hacc.
    + now apply (NoDup_set _ key_eqb_spec).
Qed.

End UsersSource.

Lemma Retrieve_Usermap_ret (e : env) (w w' : world) (l : list event)
      (DATA : Dict.t key record) :
  Users.Retrieve_Usermap e w = (Ret DATA, w', l) ->
  w' = w /\ l = [] /\
  exists COLS rows, query e Users.sql = QRows COLS rows /\
                    Users.retrieve_rows COLS rows [] = Ret DATA.
Proof.
  unfold Users.Retrieve_Usermap.
  destruct (query e Users.sql) as [|COLS rows].
  - cbv [bind emit exit_]. discriminate.
  - cbv [lift]. intros H. inversion H as [[Hrows Hw Hl]].
    split; [reflexivity|]. split; [reflexivity|]. exists COLS, rows. split; reflexivity.
Qed.

(** X22.  [Retrieve_Usermap] leaves the world as it is and returns a
    map without duplicate keys in which every row dict is filed under
    [str(username) + str(resource_name)] of its own columns. *)
Theorem Retrieve_Usermap_keys (e : env) (w w' : world) (l : list event)
        (DATA : Dict.t key record) :
  Users.Retrieve_Usermap e w = (Ret DATA, w', l) ->
  w' = w /\ l = [] /\ NoDup (Dict.keys DATA) /\
  forall k rd, In (k, rd) DATA -> usermap_key rd k.
Proof.
  intros Hret.
  destruct (Retrieve_Usermap_ret _ _ Hret) as (-> & -> & COLS & rows & _ & Hrows).
  destruct (@users_retrieve_rows_acc COLS rows [] DATA) as (Hk & Hnd); auto.
  - intros k rd [].
  - constructor.
Qed.

Lemma Retrieve_Usermap_keys_witness :
  let e := Sample.source Sample.usermap_cols [Sample.jdoe] [] [] in
  Sample.empty = Sample.empty /\ @nil event = [] /\
  NoDup (Dict.keys Destination.listed) /\
  forall k rd, In (k, rd) Destination.listed -> usermap_key rd k.
Proof.
  intros e.
  apply (@Retrieve_Usermap_keys e Sample.empty Sample.empty [] Destination.listed).
  vm_compute. reflexivity.
Defined.



(** X24.  A run of the users router that returns has reported success
    with no deletes and no skips, and with as many updates as it
    issued saves; its trace is the activity, the connection, the saves,
    the closing of the cursor and the report, in this order. *)
Theorem users_run_report (orm : ORM) (e : env) (w w' : world) (l : list event) :
  Users.run orm e w = (Ret tt, w', l) ->
  exists saves,
    Forall (fun ev => is_save ev = true) saves /\
    l = [EActivity; EConnect] ++ saves
        ++ [EClose; EFinish true (mkStats (List.length saves) 0 0)].
Proof.
  unfold Users.run. intros H.
  apply bind_inv in H.
  destruct H as [(? & w1 & l1 & ? & H1 & H & ->)|[(? & _ & ?)|(? & _ & ?)]];
    try discriminate.
  cbv [emit] in H1. inversion H1; subst. clear H1.
  apply bind_inv in H.
  destruct H as [(? & w2 & l2 & ? & H2 & H & ->)|[(? & _ & ?)|(? & _ & ?)]];
    try discriminate.
  cbv [lift] in H2. inversion H2; subst. clear H2.
  apply bind_inv in H.
  destruct H as [(? & w3 & l3 & ? & H3 & H & ->)|[(? & _ & ?)|(? & _ & ?)]];
    try discriminate.
  cbv [emit] in H3. inversion H3; subst. clear H3.
  apply bind_inv in H.
  destruct H as [(? & w4 & l4 & ? & H4 & H & ->)|[(? & _ & ?)|(? & _ & ?)]];
    try discriminate.
  cbv [put_stats] in H4. inversion H4; subst. clear H4.
  apply bind_inv in H.
  destruct H as [(DATA & w5 & l5 & ? & H5 & H & ->)|[(? & _ & ?)|(? & _ & ?)]];
    try discriminate.
  apply Retrieve_Usermap_ret in H5. destruct H5 as (-> & -> & _).
  apply bind_inv in H.
  destruct H as [(r & w6 & l6 & ? & H6 & H & ->)|[(? & _ & ?)|(? & _ & ?)]];
    try discriminate.
  apply users_warehouse_stats in H6. destruct H6 as (Hr & Hl6 & Hu & Hd & Hk).
  cbv [bind get_stats emit] in H. inversion H; subst.
  exists l6. split; [exact Hl6|].
  rewrite Hr.
  match goal with
  | |- context [EFinish true (STATS ?w)] =>
      destruct (STATS w) as [u d k]; cbn in Hu, Hd, Hk; subst; reflexivity
  end.
Qed.

Lemma users_run_report_witness :
  let e := Sample.source Sample.usermap_cols [Sample.jdoe] [] [] in
  let out := Users.run Django.plain e Sample.empty in
  exists saves,
    Forall (fun ev => is_save ev = true) saves /\
    snd out = [EActivity; EConnect] ++ saves
              ++ [EClose; EFinish true (mkStats (List.length saves) 0 0)].
Proof.
  intros e out.
  apply (@users_run_report Django.plain e Sample.empty (snd (fst out)) (snd out)).
  vm_compute. reflexivity.
Defined.
